(** * Proma runtime detection: WSL listing parser and runtime coordinator

    A shallow embedding of

    - [apps/electron/src/main/lib/wsl-detector.ts]
      ([parseWslListOutput], [detectWsl]),
    - the runtime initialisation coordinator
      ([initializeRuntime], [getRuntimeStatus], [isRuntimeInitialized],
      [reinitializeRuntime]),
    - [packages/shared/src/types/runtime.ts] (the status records),
    - [apps/electron/src/renderer/components/chat/ChatMessageItem.tsx]
      ([formatMessageTime], the updates of the attachments under edit
      and the payload built on submit),

    and, for the Node.js, Bun, Git and Git Bash detectors, which the
    coordinator imports and which are not among the sources, a model of
    what the runtime specification says of them ([SpecDetectors]),

    followed by the properties of the runtime specification that concern
    them and by further properties read off the code. *)

From Stdlib Require Import String Ascii List NArith ZArith Bool Lia DecimalPos.
Import ListNotations.

Set Implicit Arguments.

(* ================================================================== *)
(** * JavaScript strings *)
(* ================================================================== *)

(** A JavaScript string is a sequence of UTF-16 code units.  The string
    methods the detector uses ([split], [trim], [includes], [startsWith],
    [replace] with the pattern [/^\*\s*/], [split] with [/\s+/] and
    [Number.parseInt]) are all total on strings; they are embedded as
    total functions on lists of code units. *)
Module JS.

Abbreviation codeunit := N (only parsing).
Abbreviation str := (list N) (only parsing).

(** [a === b] on strings. *)
Fixpoint str_eqb (a b : str) : bool :=
  match a, b with
  | [], [] => true
  | x :: a', y :: b' => (x =? y)%N && str_eqb a' b'
  | _, _ => false
  end.

(** ** Literals

    Rocq string literals are sequences of UTF-8 bytes; [lit] decodes
    them to UTF-16 code units so that the source's literals can be
    written as they appear there. *)
Definition cont (b : N) : N := N.land b 63.

Definition surrogates (cp : N) : list codeunit :=
  let v := (cp - 65536)%N in
  [ (55296 + N.shiftr v 10)%N ; (56320 + N.land v 1023)%N ].

Fixpoint utf16 (bs : list N) : str :=
  match bs with
  | [] => []
  | b0 :: r0 =>
      if (b0 <? 128)%N then b0 :: utf16 r0
      else if (b0 <? 192)%N then 65533%N :: utf16 r0
      else if (b0 <? 224)%N then
        match r0 with
        | b1 :: r1 =>
            (N.shiftl (N.land b0 31) 6 + cont b1)%N :: utf16 r1
        | [] => [65533%N]
        end
      else if (b0 <? 240)%N then
        match r0 with
        | b1 :: b2 :: r2 =>
            (N.shiftl (N.land b0 15) 12 + N.shiftl (cont b1) 6 + cont b2)%N
              :: utf16 r2
        | _ => [65533%N]
        end
      else
        match r0 with
        | b1 :: b2 :: b3 :: r3 =>
            surrogates (N.shiftl (N.land b0 7) 18 + N.shiftl (cont b1) 12
                        + N.shiftl (cont b2) 6 + cont b3)%N
              ++ utf16 r3
        | _ => [65533%N]
        end
  end.

Definition lit (s : string) : str :=
  utf16 (map N_of_ascii (list_ascii_of_string s)).

Arguments lit : simpl never.

(** ** White space

    [String.prototype.trim] and the regular-expression class [\s] use
    the same set: WhiteSpace and LineTerminator of ECMA-262. *)
Definition isWhiteSpace (c : codeunit) : bool :=
  ((9 <=? c) && (c <=? 13) || (c =? 32) || (c =? 160) || (c =? 5760)
   || (8192 <=? c) && (c <=? 8202) || (c =? 8232) || (c =? 8233)
   || (c =? 8239) || (c =? 8287) || (c =? 12288) || (c =? 65279))%N.

Fixpoint dropWhile (p : codeunit -> bool) (s : str) : str :=
  match s with
  | [] => []
  | c :: s' => if p c then dropWhile p s' else s
  end.

Definition trimStart (s : str) : str := dropWhile isWhiteSpace s.
Definition trimEnd (s : str) : str := rev (dropWhile isWhiteSpace (rev s)).

(** [s.trim()] *)
Definition trim (s : str) : str := trimEnd (trimStart s).

(** [s.split(sep)] for a separator of one code unit. *)
Fixpoint splitOn (sep : codeunit) (cur : str) (s : str) : list str :=
  match s with
  | [] => [cur]
  | c :: s' =>
      if (c =? sep)%N then cur :: splitOn sep [] s'
      else splitOn sep (cur ++ [c]) s'
  end.

Definition split (s : str) (sep : codeunit) : list str := splitOn sep [] s.

(** [s.startsWith(p)] *)
Fixpoint startsWith (s p : str) : bool :=
  match p, s with
  | [], _ => true
  | _ :: _, [] => false
  | x :: p', c :: s' => (c =? x)%N && startsWith s' p'
  end.

(** [s.includes(p)] *)
Fixpoint includes (s p : str) : bool :=
  startsWith s p ||
  match s with
  | [] => false
  | _ :: s' => includes s' p
  end.

(** [s.replace(/^\*\s*/, '')]: the pattern is anchored at the start,
    matches one asterisk and the longest run of white space after it. *)
Definition replaceDefaultMarker (s : str) : str :=
  match s with
  | c :: s' => if (c =? 42)%N then dropWhile isWhiteSpace s' else s
  | [] => []
  end.

(** [s.split(/\s+/)]: the separators are the maximal runs of white
    space; a run at either end leaves an empty string there, and the
    empty string splits into one empty string. *)
Fixpoint splitWs (cur : str) (inRun : bool) (s : str) : list str :=
  match s with
  | [] => [cur]
  | c :: s' =>
      if isWhiteSpace c
      then if inRun then splitWs [] true s' else cur :: splitWs [] true s'
      else splitWs (cur ++ [c]) false s'
  end.

Definition splitWhitespace (s : str) : list str := splitWs [] false s.

(** ** Numbers

    [Number.parseInt(s, 10)]: leading white space is skipped, an
    optional sign is read, then the longest prefix of decimal digits;
    no digit gives NaN. *)
Inductive number : Type :=
| NaN : number
| Num : Z -> number.

Definition isDigit (c : codeunit) : bool := ((48 <=? c) && (c <=? 57))%N.

Fixpoint digits (acc : option Z) (s : str) : option Z :=
  match s with
  | c :: s' =>
      if isDigit c
      then digits (Some (10 * match acc with Some a => a | None => 0 end
                         + Z.of_N (c - 48))%Z) s'
      else acc
  | [] => acc
  end.

Definition parseInt10 (s : str) : number :=
  let s1 := trimStart s in
  let '(neg, s2) :=
    match s1 with
    | c :: s' =>
        if (c =? 45)%N then (true, s')
        else if (c =? 43)%N then (false, s')
        else (false, s1)
    | [] => (false, s1)
    end in
  match digits None s2 with
  | Some z => Num (if neg then (- z)%Z else z)
  | None => NaN
  end.

(** Truthiness of a string: every string but the empty one. *)
Definition truthy (s : str) : bool :=
  match s with [] => false | _ :: _ => true end.

(** ** Substrings *)

(** [p] occurs in [s] as a contiguous substring. *)
Definition infix (p s : str) : Prop := exists a b, s = a ++ p ++ b.

(** No code unit of [p] is white space. *)
Definition noWhiteSpace (p : str) : bool :=
  forallb (fun c => negb (isWhiteSpace c)) p.

End JS.

Notation "'js' s" := (JS.lit s%string) (at level 9, s at level 0, only parsing).

(* ================================================================== *)
(** * Exceptions and awaited calls *)
(* ================================================================== *)

(** A thrown value is an [Error] object carrying a message, or some other
    value, of which only its [String(...)] conversion is observed. *)
Inductive exn : Type :=
| ErrorObject (message : JS.str)
| OtherValue (asString : JS.str).

(** The outcome of a call (or of an awaited promise): a value, or an
    exception. *)
Inductive outcome (A : Type) : Type :=
| Returned (a : A)
| Thrown (e : exn).

Arguments Returned {A} a.
Arguments Thrown {A} e.

(* ================================================================== *)
(** * [packages/shared/src/types/runtime.ts] *)
(* ================================================================== *)

Module BunRuntimeStatus.
Inductive source_t : Type := system | bundled | vendor.
Record t : Type := mk
  { available : bool;
    path : option JS.str;
    version : option JS.str;
    source : option source_t;
    error : option JS.str }.
End BunRuntimeStatus.

Module NodeRuntimeStatus.
Record t : Type := mk
  { available : bool;
    version : option JS.str;
    path : option JS.str;
    error : option JS.str }.
End NodeRuntimeStatus.

Module GitRuntimeStatus.
Record t : Type := mk
  { available : bool;
    version : option JS.str;
    path : option JS.str;
    error : option JS.str }.
End GitRuntimeStatus.

Module GitBashStatus.
Record t : Type := mk
  { available : bool;
    path : option JS.str;
    version : option JS.str;
    error : option JS.str }.
End GitBashStatus.

Module WslStatus.
Record t : Type := mk
  { available : bool;
    version : option JS.number;
    defaultDistro : option JS.str;
    distros : list JS.str;
    error : option JS.str }.
End WslStatus.

Module ShellEnvironmentStatus.
Inductive recommended_t : Type := git_bash | wsl_shell.
Record t : Type := mk
  { gitBash : GitBashStatus.t;
    wsl : WslStatus.t;
    recommended : option recommended_t }.
End ShellEnvironmentStatus.

Module RuntimeStatus.
(** [shell?: ShellEnvironmentStatus]: [None] is the absent field. *)
Record t : Type := mk
  { node : NodeRuntimeStatus.t;
    bun : BunRuntimeStatus.t;
    git : GitRuntimeStatus.t;
    shell : option ShellEnvironmentStatus.t;
    envLoaded : bool;
    initializedAt : Z }.
End RuntimeStatus.

Module RuntimeInitOptions.
(** Every flag is an optional boolean; [None] is the absent field. *)
Record t : Type := mk
  { skipEnvLoad : option bool;
    skipNodeDetection : option bool;
    skipBunDetection : option bool;
    skipGitDetection : option bool;
    skipShellDetection : option bool }.

(** The default argument [{}]. *)
Definition empty : t := mk None None None None None.

(** Truthiness of an optional boolean: [undefined] is falsy. *)
Definition truthy (f : option bool) : bool :=
  match f with Some true => true | _ => false end.
End RuntimeInitOptions.

Module ShellEnvResult.
Record t : Type := mk
  { success : bool;
    loadedCount : Z;
    error : option JS.str }.
End ShellEnvResult.

(* ================================================================== *)
(** * [wsl-detector.ts] *)
(* ================================================================== *)

Module WslDetector.
Import JS.

(** The object returned by [parseWslListOutput]. *)
Record parsed : Type := mkParsed
  { version : option number;
    defaultDistro : option str;
    distros : list str }.

(** [output.split('\n').map((line) => line.trim()).filter(Boolean)] *)
Definition lines (output : str) : list str :=
  filter truthy (map trim (split output 10%N)).

Definition dataLines (output : str) : list str :=
  filter (fun line =>
            negb (includes line (js "NAME"))
            && negb (includes line (js "STATE"))
            && negb (includes line (js "VERSION")))
         (lines output).

(** One iteration of [for (const line of dataLines)].  The three
    mutable locals are carried in a [parsed]; [continue] returns them
    unchanged.  [parts[i]] is [undefined] out of range. *)
Definition loopBody (acc : parsed) (line : str) : parsed :=
  let isDefault := startsWith line (js "*") in
  let cleanLine := trim (replaceDefaultMarker line) in
  let parts := splitWhitespace cleanLine in
  if (length parts <? 3)%nat then acc
  else
    let distroName := nth_error parts 0 in
    let versionStr := nth_error parts (length parts - 1) in
    match distroName with
    | Some name =>
        if truthy name then
          let distros1 := distros acc ++ [name] in
          let default1 :=
            if isDefault then Some name else defaultDistro acc in
          let version1 :=
            match versionStr with
            | Some v =>
                if isDefault && (str_eqb v (js "1") || str_eqb v (js "2"))
                then Some (parseInt10 v)
                else version acc
            | None => version acc
            end in
          mkParsed version1 default1 distros1
        else acc
    | None => acc
    end.

Definition parseWslListOutput (output : str) : parsed :=
  fold_left loopBody (dataLines output) (mkParsed None None []).

(** What [detectWsl] reads of its host: [process.platform] and
    [execSync], the latter returning the command's standard output or
    throwing. *)
Record host : Type := mkHost
  { platform : str;
    execSync : str -> outcome str }.

Definition unavailable (msg : str) : WslStatus.t :=
  WslStatus.mk false None None [] (Some msg).

(** [error instanceof Error ? error.message : String(error)] *)
Definition errorMessageOf (e : exn) : str :=
  match e with
  | ErrorObject m => m
  | OtherValue s => s
  end.

(** The [catch] block. *)
Definition onExecError (e : exn) : WslStatus.t :=
  let errorMessage := errorMessageOf e in
  if includes errorMessage (js "wsl.exe")
     && (includes errorMessage (js "not found")
         || includes errorMessage (js "not recognized"))
  then unavailable (js "WSL 未安装")
  else unavailable (js "WSL 检测失败: " ++ errorMessage).

(** The statements of the [try] block after [execSync] returned. *)
Definition onExecOutput (output : str) : WslStatus.t :=
  let p := parseWslListOutput output in
  if (length (distros p) =? 0)%nat
  then unavailable (js "WSL 已安装但未安装任何 Linux 发行版")
  else WslStatus.mk true (version p) (defaultDistro p) (distros p) None.

Definition detectWsl (h : host) : outcome WslStatus.t :=
  if negb (str_eqb (platform h) (js "win32"))
  then Returned (unavailable (js "非 Windows 平台"))
  else
    match execSync h (js "chcp 65001 > nul && wsl.exe --list --verbose") with
    | Returned output => Returned (onExecOutput output)
    | Thrown e => Returned (onExecError e)
    end.

End WslDetector.

(* ================================================================== *)
(** * The listing format, row by row *)
(* ================================================================== *)

(** The parsing rules as the specification words them, one row at a
    time; the parser of [wsl-detector.ts] is compared with them below. *)
Module WslListing.
Import JS.

(** A leading marker character denotes the default distribution. *)
Definition isDefaultRow (line : str) : bool := startsWith line (js "*").

(** Strip the marker, then split on white space. *)
Definition rowTokens (line : str) : list str :=
  splitWhitespace (trim (replaceDefaultMarker line)).

(** The first token is the distribution name. *)
Definition rowName (line : str) : str := hd [] (rowTokens line).

(** The last token is the row's version marker. *)
Definition rowMarker (line : str) : str := last (rowTokens line) [].

(** A version marker counts if it is [1] or [2]. *)
Definition markerVersion (m : str) : option number :=
  if str_eqb m (js "1") then Some (Num 1)
  else if str_eqb m (js "2") then Some (Num 2)
  else None.

(** The rows the parser keeps: those of at least three tokens. *)
Definition recorded (line : str) : bool :=
  (3 <=? length (rowTokens line))%nat.

(** The version a row supplies: that of its marker, for a default row. *)
Definition suppliedVersion (line : str) : list number :=
  if isDefaultRow line
  then match markerVersion (rowMarker line) with
       | Some v => [v]
       | None => []
       end
  else [].

Definition lastOf {A} (l : list A) : option A := last (map Some l) None.

(** A line is taken for the header if one of the three column titles
    occurs in it. *)
Definition isHeader (line : str) : bool :=
  includes line (js "NAME") || includes line (js "STATE")
  || includes line (js "VERSION").

(** A line of white space only. *)
Definition isBlank (line : str) : bool := forallb isWhiteSpace line.

(** Lines joined by line feeds, a line feed after each. *)
Definition unlines (ls : list str) : str :=
  flat_map (fun l => l ++ [10%N]) ls.

(** The result the rules give for the data lines [rows]: names in
    encounter order, the default and the version from the last row that
    supplies one. *)
Definition parsedOf (rows : list str) : WslDetector.parsed :=
  WslDetector.mkParsed
    (lastOf (flat_map suppliedVersion (filter recorded rows)))
    (lastOf (map rowName (filter isDefaultRow (filter recorded rows))))
    (map rowName (filter recorded rows)).

(** The listing of the parser's documentation, and the same rows with
    single blanks between the columns. *)
Definition documentedListing : str :=
  js "  NAME            STATE           VERSION
* Ubuntu          Running         2
  Debian          Stopped         1
".

Definition compactListing : str :=
  js "NAME STATE VERSION
* Ubuntu Running 2
Debian Stopped 1".

End WslListing.

(* ================================================================== *)
(** * The runtime initialisation coordinator *)
(* ================================================================== *)

Module Coordinator.

(** ** Module state and effects *)

(** The two module-level variables. *)
Record vars : Type := mkVars
  { runtimeStatusCache : option RuntimeStatus.t;
    isInitialized : bool }.

(** [let runtimeStatusCache = null; let isInitialized = false] *)
Definition initialVars : vars := mkVars None false.

(** The calls the coordinator makes to what it imports, in the order
    they are made. *)
Inductive call : Type :=
| CallDateNow
| CallLoadShellEnv
| CallDetectNodeRuntime
| CallDetectBunRuntime
| CallDetectGitRuntime
| CallDetectGitBash
| CallDetectWsl.

Definition call_eqb (a b : call) : bool :=
  match a, b with
  | CallDateNow, CallDateNow
  | CallLoadShellEnv, CallLoadShellEnv
  | CallDetectNodeRuntime, CallDetectNodeRuntime
  | CallDetectBunRuntime, CallDetectBunRuntime
  | CallDetectGitRuntime, CallDetectGitRuntime
  | CallDetectGitBash, CallDetectGitBash
  | CallDetectWsl, CallDetectWsl => true
  | _, _ => false
  end.

(** The module variables together with the record of the calls made so
    far. *)
Record world : Type := mkWorld
  { mem : vars;
    calls : list call }.

(** What the imported functions and the host answer during one run:
    every detector, awaited, gives a status or throws; [Date.now()]
    answers by the number of times it was asked before. *)
Record imports : Type := mkImports
  { platform : JS.str;
    dateNow : nat -> Z;
    loadShellEnv : outcome ShellEnvResult.t;
    detectNodeRuntime : outcome NodeRuntimeStatus.t;
    detectBunRuntime : outcome BunRuntimeStatus.t;
    detectGitRuntime : outcome GitRuntimeStatus.t;
    detectGitBash : outcome GitBashStatus.t;
    detectWsl : outcome WslStatus.t }.

(** Computations: a world in, an outcome and a world out.  An
    exception keeps the world reached when it was thrown. *)
Definition M (A : Type) : Type := world -> outcome A * world.

Definition ret {A} (a : A) : M A := fun w => (Returned a, w).

Definition bind {A B} (m : M A) (k : A -> M B) : M B :=
  fun w =>
    match m w with
    | (Returned a, w1) => k a w1
    | (Thrown e, w1) => (Thrown e, w1)
    end.

(** [try { body } catch (error) { handler }] *)
Definition tryCatch {A} (body : M A) (handler : exn -> M A) : M A :=
  fun w =>
    match body w with
    | (Returned a, w1) => (Returned a, w1)
    | (Thrown e, w1) => handler e w1
    end.

(** [await f()] for an imported [f]: the call is recorded, its outcome
    is the one the imports give. *)
Definition await {A} (c : call) (o : outcome A) : M A :=
  fun w => (o, mkWorld (mem w) (calls w ++ [c])).

Definition setRuntimeStatusCache (v : option RuntimeStatus.t) : M unit :=
  fun w =>
    (Returned tt, mkWorld (mkVars v (isInitialized (mem w))) (calls w)).

Definition setIsInitialized (b : bool) : M unit :=
  fun w =>
    (Returned tt, mkWorld (mkVars (runtimeStatusCache (mem w)) b) (calls w)).

(** How often [Date.now()] was asked so far. *)
Definition asked (w : world) : nat :=
  length (filter (call_eqb CallDateNow) (calls w)).

Declare Scope coord_scope.
Delimit Scope coord_scope with coord.
Notation "x <- m ;; k" := (bind m (fun x => k))
  (at level 100, m at next level, right associativity) : coord_scope.
Notation "m ;;; k" := (bind m (fun _ => k))
  (at level 100, right associativity) : coord_scope.
Local Open Scope coord_scope.

Section WithImports.
Variable I : imports.

(** [Date.now()] *)
Definition now : M Z :=
  fun w =>
    (Returned (dateNow I (asked w)),
     mkWorld (mem w) (calls w ++ [CallDateNow])).

(** ** [initializeRuntime] *)

Definition skippedNode : NodeRuntimeStatus.t :=
  NodeRuntimeStatus.mk false None None (Some (js "已跳过 Node.js 检测")).

Definition skippedBun : BunRuntimeStatus.t :=
  BunRuntimeStatus.mk false None None None (Some (js "已跳过 Bun 检测")).

Definition skippedGit : GitRuntimeStatus.t :=
  GitRuntimeStatus.mk false None None (Some (js "已跳过 Git 检测")).

(** The recommendation computed inside the [try] block. *)
Definition recommend (gitBashStatus : GitBashStatus.t)
           (wslStatus : WslStatus.t)
  : option ShellEnvironmentStatus.recommended_t :=
  if GitBashStatus.available gitBashStatus
  then Some ShellEnvironmentStatus.git_bash
  else if WslStatus.available wslStatus
       then Some ShellEnvironmentStatus.wsl_shell
       else None.

(** Step 1: the shell environment. *)
Definition loadEnvStep (options : RuntimeInitOptions.t) : M bool :=
  if negb (RuntimeInitOptions.truthy (RuntimeInitOptions.skipEnvLoad options))
  then tryCatch
         (shellEnvResult <- await CallLoadShellEnv (loadShellEnv I) ;;
          ret (ShellEnvResult.success shellEnvResult))
         (fun _ => ret false)
  else ret false.

(** Step 5: the shell environment status, [undefined] unless set in
    the [try] block. *)
Definition shellStep (options : RuntimeInitOptions.t)
  : M (option ShellEnvironmentStatus.t) :=
  if JS.str_eqb (platform I) (js "win32")
     && negb (RuntimeInitOptions.truthy
                (RuntimeInitOptions.skipShellDetection options))
  then tryCatch
         (gitBashStatus <- await CallDetectGitBash (detectGitBash I) ;;
          wslStatus <- await CallDetectWsl (detectWsl I) ;;
          let recommended := recommend gitBashStatus wslStatus in
          ret (Some (ShellEnvironmentStatus.mk
                       gitBashStatus wslStatus recommended)))
         (fun _ => ret None)
  else ret None.

Definition initializeRuntime (options : RuntimeInitOptions.t)
  : M RuntimeStatus.t :=
  startTime <- now ;;
  envLoaded <- loadEnvStep options ;;
  nodeStatus <-
    (if RuntimeInitOptions.truthy
          (RuntimeInitOptions.skipNodeDetection options)
     then ret skippedNode
     else await CallDetectNodeRuntime (detectNodeRuntime I)) ;;
  bunStatus <-
    (if RuntimeInitOptions.truthy
          (RuntimeInitOptions.skipBunDetection options)
     then ret skippedBun
     else await CallDetectBunRuntime (detectBunRuntime I)) ;;
  gitStatus <-
    (if RuntimeInitOptions.truthy
          (RuntimeInitOptions.skipGitDetection options)
     then ret skippedGit
     else await CallDetectGitRuntime (detectGitRuntime I)) ;;
  shellEnvironmentStatus <- shellStep options ;;
  initializedAt <- now ;;
  let runtimeStatus :=
    RuntimeStatus.mk nodeStatus bunStatus gitStatus
                     shellEnvironmentStatus envLoaded initializedAt in
  setRuntimeStatusCache (Some runtimeStatus) ;;;
  setIsInitialized true ;;;
  finished <- now ;;
  let duration := (finished - startTime)%Z in
  ret runtimeStatus.

(** ** [reinitializeRuntime] *)
Definition reinitializeRuntime (options : RuntimeInitOptions.t)
  : M RuntimeStatus.t :=
  setIsInitialized false ;;;
  setRuntimeStatusCache None ;;;
  initializeRuntime options.

End WithImports.

(** ** [getRuntimeStatus], [isRuntimeInitialized] *)
Definition getRuntimeStatus (w : world) : option RuntimeStatus.t :=
  runtimeStatusCache (mem w).

Definition isRuntimeInitialized (w : world) : bool :=
  isInitialized (mem w).

(** The world of a freshly loaded module. *)
Definition initialWorld : world := mkWorld initialVars [].

(** The imports of the program as it is linked: [detectWsl] is the
    detector of [wsl-detector.ts] on a host with the same platform. *)
Definition linked (I : imports) (execSync : JS.str -> outcome JS.str)
  : imports :=
  mkImports (platform I) (dateNow I) (loadShellEnv I)
            (detectNodeRuntime I) (detectBunRuntime I)
            (detectGitRuntime I) (detectGitBash I)
            (WslDetector.detectWsl
               (WslDetector.mkHost (platform I) execSync)).

(** ** One run, step by step

    What each step of [initializeRuntime] comes to, given the imports:
    the outcome of the three detection steps, the value of [envLoaded]
    and of [shellEnvironmentStatus], and the calls each step makes. *)

Definition addCalls (w : world) (made : list call) : world :=
  mkWorld (mem w) (calls w ++ made).

Definition nodeStep (I : imports) (options : RuntimeInitOptions.t)
  : outcome NodeRuntimeStatus.t :=
  if RuntimeInitOptions.truthy (RuntimeInitOptions.skipNodeDetection options)
  then Returned skippedNode else detectNodeRuntime I.

Definition bunStep (I : imports) (options : RuntimeInitOptions.t)
  : outcome BunRuntimeStatus.t :=
  if RuntimeInitOptions.truthy (RuntimeInitOptions.skipBunDetection options)
  then Returned skippedBun else detectBunRuntime I.

Definition gitStep (I : imports) (options : RuntimeInitOptions.t)
  : outcome GitRuntimeStatus.t :=
  if RuntimeInitOptions.truthy (RuntimeInitOptions.skipGitDetection options)
  then Returned skippedGit else detectGitRuntime I.

Definition envLoadedOf (I : imports) (options : RuntimeInitOptions.t) : bool :=
  if negb (RuntimeInitOptions.truthy (RuntimeInitOptions.skipEnvLoad options))
  then match loadShellEnv I with
       | Returned r => ShellEnvResult.success r
       | Thrown _ => false
       end
  else false.

(** Shell detection runs on [win32] unless it is skipped. *)
Definition shellDetectionRuns (I : imports) (options : RuntimeInitOptions.t)
  : bool :=
  JS.str_eqb (platform I) (js "win32")
  && negb (RuntimeInitOptions.truthy
             (RuntimeInitOptions.skipShellDetection options)).

Definition shellOf (I : imports) (options : RuntimeInitOptions.t)
  : option ShellEnvironmentStatus.t :=
  if shellDetectionRuns I options
  then match detectGitBash I, detectWsl I with
       | Returned gitBashStatus, Returned wslStatus =>
           Some (ShellEnvironmentStatus.mk
                   gitBashStatus wslStatus
                   (recommend gitBashStatus wslStatus))
       | _, _ => None
       end
  else None.

Definition envCalls (options : RuntimeInitOptions.t) : list call :=
  if negb (RuntimeInitOptions.truthy (RuntimeInitOptions.skipEnvLoad options))
  then [CallLoadShellEnv] else [].

Definition nodeCalls (options : RuntimeInitOptions.t) : list call :=
  if RuntimeInitOptions.truthy (RuntimeInitOptions.skipNodeDetection options)
  then [] else [CallDetectNodeRuntime].

Definition bunCalls (options : RuntimeInitOptions.t) : list call :=
  if RuntimeInitOptions.truthy (RuntimeInitOptions.skipBunDetection options)
  then [] else [CallDetectBunRuntime].

Definition gitCalls (options : RuntimeInitOptions.t) : list call :=
  if RuntimeInitOptions.truthy (RuntimeInitOptions.skipGitDetection options)
  then [] else [CallDetectGitRuntime].

Definition shellCalls (I : imports) (options : RuntimeInitOptions.t)
  : list call :=
  if shellDetectionRuns I options
  then CallDetectGitBash
         :: match detectGitBash I with
            | Returned _ => [CallDetectWsl]
            | Thrown _ => []
            end
  else [].

(** The status a run builds once the three detection steps gave [n],
    [b] and [g]: the time stamp is the second answer of [Date.now()]
    within the run. *)
Definition builtStatus (I : imports) (o : RuntimeInitOptions.t) (w : world)
           (n : NodeRuntimeStatus.t) (b : BunRuntimeStatus.t)
           (g : GitRuntimeStatus.t) : RuntimeStatus.t :=
  RuntimeStatus.mk n b g (shellOf I o) (envLoadedOf I o)
                   (dateNow I (S (asked w))).

(** The value a run returned, if it returned. *)
Definition returned {A} (r : outcome A * world) : option A :=
  match fst r with
  | Returned a => Some a
  | Thrown _ => None
  end.

End Coordinator.

(* ================================================================== *)
(** * The detectors outside the sources *)
(* ================================================================== *)

(** [node-detector.ts], [bun-finder.ts], [git-detector.ts] and
    [git-bash-detector.ts] are imported by the coordinator but are not
    among the sources.  What the runtime specification says of them
    (sections 3, 4.1, 4.2, 4.3, 4.5 and 7) is modelled here; what it
    leaves open (where the executable is looked for, what the probe
    answers, which token counts as a version, the texts of the errors) is
    a field of [tool] or of [bunStrategies]. *)
Module SpecDetectors.
Import JS.

(** Modelled from the spec: what ProcessProbe's [run] answers (section
    4.1, [{stdout, exitCode}]). *)
Record probed : Type := mkProbed
  { stdout : str;
    exitCode : Z }.

(** Modelled from the spec: what the detector of one tool works with
    (section 4.2): the executable found on the system path or at a
    well-known install location, if it is at any; the probe of its
    version flag, which answers or fails with an execution error
    (section 4.1); the extraction of the first semantic-version-like
    token of the answer; the error texts for a tool that is absent and
    for a probe that failed. *)
Record tool : Type := mkTool
  { found : option str;
    run : str -> outcome probed;
    versionToken : str -> option str;
    notFoundError : str;
    describe : exn -> str }.

(** Modelled from the spec: the Status record of section 3,
    [{available, path, version, error}]. *)
Record status : Type := mkStatus
  { available : bool;
    path : option str;
    version : option str;
    error : option str }.

(** Modelled from the spec: the status of a tool that is not available
    (section 3: [available=false] pairs with a non-null [error] and null
    [path] and [version]; section 4.2: descriptive [error],
    [path=null]). *)
Definition unavailable (msg : str) : status :=
  mkStatus false None None (Some msg).

(** Modelled from the spec: [detect] of section 4.2.  Find the
    executable, invoke its version flag, extract the first
    semantic-version-like token; a tool present whose version cannot be
    parsed is available with a null version; a tool absent at every
    searched location and a probe failure are unavailable statuses
    (section 7: both surface as data on the status, nothing is thrown). *)
Definition detect (t : tool) : status :=
  match found t with
  | None => unavailable (notFoundError t)
  | Some p =>
      match run t p with
      | Thrown e => unavailable (describe t e)
      | Returned r => mkStatus true (Some p) (versionToken t (stdout r)) None
      end
  end.

(** Modelled from the spec: NodeDetector (section 4.2), with the fields
    of [NodeRuntimeStatus]. *)
Definition detectNodeRuntime (t : tool) : NodeRuntimeStatus.t :=
  let s := detect t in
  NodeRuntimeStatus.mk (available s) (version s) (path s) (error s).

(** Modelled from the spec: GitDetector (section 4.2), with the fields
    of [GitRuntimeStatus]. *)
Definition detectGitRuntime (t : tool) : GitRuntimeStatus.t :=
  let s := detect t in
  GitRuntimeStatus.mk (available s) (version s) (path s) (error s).

(** Modelled from the spec: GitBashDetector (section 4.5, same shape as
    4.2), with the fields of [GitBashStatus]. *)
Definition detectGitBash (t : tool) : GitBashStatus.t :=
  let s := detect t in
  GitBashStatus.mk (available s) (path s) (version s) (error s).

(** Modelled from the spec: what BunDetector works with (section 4.3):
    the three places it tries, and the aggregated error that names the
    attempted strategies. *)
Record bunStrategies : Type := mkBunStrategies
  { systemPath : tool;
    bundledBinary : tool;
    vendorDirectory : tool;
    aggregatedError : str }.

(** Modelled from the spec: one strategy of section 4.3 succeeds when it
    produces a runnable, version-reporting binary; it then gives the path
    and the version. *)
Definition attempt (t : tool) : option (str * str) :=
  match found t with
  | None => None
  | Some p =>
      match run t p with
      | Thrown _ => None
      | Returned r =>
          match versionToken t (stdout r) with
          | None => None
          | Some v => Some (p, v)
          end
      end
  end.

(** Modelled from the spec: the status of a strategy that won. *)
Definition bunFrom (src : BunRuntimeStatus.source_t) (pv : str * str)
  : BunRuntimeStatus.t :=
  BunRuntimeStatus.mk true (Some (fst pv)) (Some (snd pv)) (Some src) None.

(** Modelled from the spec: BunDetector's [detect] (section 4.3).  The
    system path, the bundled binary and the vendor directory are tried
    in this order, the first that succeeds wins and sets [source]; all
    three failing give [available=false], [source=null] and the
    aggregated error (with null [path] and [version], section 3). *)
Definition detectBunRuntime (b : bunStrategies) : BunRuntimeStatus.t :=
  match attempt (systemPath b) with
  | Some pv => bunFrom BunRuntimeStatus.system pv
  | None =>
      match attempt (bundledBinary b) with
      | Some pv => bunFrom BunRuntimeStatus.bundled pv
      | None =>
          match attempt (vendorDirectory b) with
          | Some pv => bunFrom BunRuntimeStatus.vendor pv
          | None =>
              BunRuntimeStatus.mk false None None None
                                  (Some (aggregatedError b))
          end
      end
  end.

(** Modelled from the spec: the machine the program runs on, for the
    detectors above and for [detectWsl]. *)
Record machine : Type := mkMachine
  { platform : str;
    dateNow : nat -> Z;
    loadShellEnv : outcome ShellEnvResult.t;
    node : tool;
    bun : bunStrategies;
    git : tool;
    gitBash : tool;
    execSync : str -> outcome str }.

(** Modelled from the spec: the imports of the coordinator on a machine.
    The four detectors above never throw (section 7: no failure
    propagates as an exception past a detector boundary); [detectWsl] is
    the detector of [wsl-detector.ts]. *)
Definition program (m : machine) : Coordinator.imports :=
  Coordinator.mkImports
    (platform m) (dateNow m) (loadShellEnv m)
    (Returned (detectNodeRuntime (node m)))
    (Returned (detectBunRuntime (bun m)))
    (Returned (detectGitRuntime (git m)))
    (Returned (detectGitBash (gitBash m)))
    (WslDetector.detectWsl (WslDetector.mkHost (platform m) (execSync m))).

End SpecDetectors.

(* ================================================================== *)
(** * The status records, taken together *)
(* ================================================================== *)

(** The status records that carry [available] and [error], under one
    type, with the fields the availability invariant speaks of.  A record
    type without the field ([path] and [source] for WSL, [source] for
    Node.js, Git and Git Bash) has nothing there to be non-null. *)
Module AnyStatus.
Import JS.

Inductive t : Type :=
| OfNode (s : NodeRuntimeStatus.t)
| OfBun (s : BunRuntimeStatus.t)
| OfGit (s : GitRuntimeStatus.t)
| OfGitBash (s : GitBashStatus.t)
| OfWsl (s : WslStatus.t).

Definition available (x : t) : bool :=
  match x with
  | OfNode s => NodeRuntimeStatus.available s
  | OfBun s => BunRuntimeStatus.available s
  | OfGit s => GitRuntimeStatus.available s
  | OfGitBash s => GitBashStatus.available s
  | OfWsl s => WslStatus.available s
  end.

Definition error (x : t) : option str :=
  match x with
  | OfNode s => NodeRuntimeStatus.error s
  | OfBun s => BunRuntimeStatus.error s
  | OfGit s => GitRuntimeStatus.error s
  | OfGitBash s => GitBashStatus.error s
  | OfWsl s => WslStatus.error s
  end.

Definition path (x : t) : option str :=
  match x with
  | OfNode s => NodeRuntimeStatus.path s
  | OfBun s => BunRuntimeStatus.path s
  | OfGit s => GitRuntimeStatus.path s
  | OfGitBash s => GitBashStatus.path s
  | OfWsl _ => None
  end.

Definition versionIsNull (x : t) : bool :=
  match x with
  | OfNode s => match NodeRuntimeStatus.version s with None => true | _ => false end
  | OfBun s => match BunRuntimeStatus.version s with None => true | _ => false end
  | OfGit s => match GitRuntimeStatus.version s with None => true | _ => false end
  | OfGitBash s => match GitBashStatus.version s with None => true | _ => false end
  | OfWsl s => match WslStatus.version s with None => true | _ => false end
  end.

Definition source (x : t) : option BunRuntimeStatus.source_t :=
  match x with
  | OfBun s => BunRuntimeStatus.source s
  | _ => None
  end.

(** The availability invariant of one status. *)
Definition blankWhenUnavailable (x : t) : Prop :=
  available x = false ->
  error x <> None /\ path x = None /\ versionIsNull x = true
  /\ source x = None.

(** The statuses of an aggregate. *)
Definition statusesOf (s : RuntimeStatus.t) : list t :=
  [OfNode (RuntimeStatus.node s); OfBun (RuntimeStatus.bun s);
   OfGit (RuntimeStatus.git s)]
  ++ match RuntimeStatus.shell s with
     | Some sh => [OfGitBash (ShellEnvironmentStatus.gitBash sh);
                   OfWsl (ShellEnvironmentStatus.wsl sh)]
     | None => []
     end.

(** The statuses a detector or a skip substitution produces: the three
    skip substitutions of [initializeRuntime], the results of
    [detectWsl], the results of the Node.js, Bun, Git and Git Bash
    detectors of [SpecDetectors], and every status that
    [initializeRuntime] stores in the aggregate it returns, on any
    machine, under any options and from any world. *)
Inductive produced : t -> Prop :=
| SkippedNode : produced (OfNode Coordinator.skippedNode)
| SkippedBun : produced (OfBun Coordinator.skippedBun)
| SkippedGit : produced (OfGit Coordinator.skippedGit)
| DetectedWsl (h : WslDetector.host) (s : WslStatus.t) :
    WslDetector.detectWsl h = Returned s -> produced (OfWsl s)
| DetectedNode (t : SpecDetectors.tool) :
    produced (OfNode (SpecDetectors.detectNodeRuntime t))
| DetectedBun (b : SpecDetectors.bunStrategies) :
    produced (OfBun (SpecDetectors.detectBunRuntime b))
| DetectedGit (t : SpecDetectors.tool) :
    produced (OfGit (SpecDetectors.detectGitRuntime t))
| DetectedGitBash (t : SpecDetectors.tool) :
    produced (OfGitBash (SpecDetectors.detectGitBash t))
| Stored (m : SpecDetectors.machine) (o : RuntimeInitOptions.t)
         (w w' : Coordinator.world) (s : RuntimeStatus.t) (x : t) :
    Coordinator.initializeRuntime (SpecDetectors.program m) o w
    = (Returned s, w') ->
    In x (statusesOf s) -> produced x.

End AnyStatus.

(* ================================================================== *)
(** * Sample hosts *)
(* ================================================================== *)

Module Scenarios.
Import Coordinator.

Definition nodeFound : NodeRuntimeStatus.t :=
  NodeRuntimeStatus.mk true (Some (js "v22.3.0")) (Some (js "node.exe")) None.

Definition bunFound : BunRuntimeStatus.t :=
  BunRuntimeStatus.mk true (Some (js "bun.exe")) (Some (js "1.1.20"))
                      (Some BunRuntimeStatus.system) None.

Definition gitFound : GitRuntimeStatus.t :=
  GitRuntimeStatus.mk true (Some (js "2.45.1")) (Some (js "git.exe")) None.

Definition gitBashFound : GitBashStatus.t :=
  GitBashStatus.mk true (Some (js "bash.exe")) (Some (js "5.2.26")) None.

Definition wslFound : WslStatus.t :=
  WslStatus.mk true (Some (JS.Num 2)) (Some (js "Ubuntu"))
               [js "Ubuntu"; js "Debian"] None.

(** A Windows host on which every tool is found. *)
Definition windowsHost : imports :=
  mkImports (js "win32") (fun n => (1000 + Z.of_nat n)%Z)
            (Returned (ShellEnvResult.mk false 0 None))
            (Returned nodeFound) (Returned bunFound) (Returned gitFound)
            (Returned gitBashFound) (Returned wslFound).

(** The same host, later, with a Node.js detector that throws. *)
Definition nodeThrows : imports :=
  mkImports (js "win32") (fun n => (2000 + Z.of_nat n)%Z)
            (Returned (ShellEnvResult.mk false 0 None))
            (Thrown (ErrorObject (js "spawn node ENOENT")))
            (Returned bunFound) (Returned gitFound)
            (Returned gitBashFound) (Returned wslFound).

(** The same host with a Git Bash detector that throws. *)
Definition gitBashThrows : imports :=
  mkImports (js "win32") (fun n => (1000 + Z.of_nat n)%Z)
            (Returned (ShellEnvResult.mk false 0 None))
            (Returned nodeFound) (Returned bunFound) (Returned gitFound)
            (Thrown (ErrorObject (js "spawn bash ENOENT")))
            (Returned wslFound).

Definition skipShell : RuntimeInitOptions.t :=
  RuntimeInitOptions.mk None None None None (Some true).

Definition skipGit : RuntimeInitOptions.t :=
  RuntimeInitOptions.mk None None None (Some true) None.

(** The status of the first initialisation on [windowsHost], and the
    world it leaves. *)
Definition firstStatus : RuntimeStatus.t :=
  RuntimeStatus.mk nodeFound bunFound gitFound
    (Some (ShellEnvironmentStatus.mk gitBashFound wslFound
             (Some ShellEnvironmentStatus.git_bash)))
    false 1001.

Definition afterFirstInit : world :=
  snd (initializeRuntime windowsHost RuntimeInitOptions.empty initialWorld).

Definition gitBashMissing : GitBashStatus.t :=
  GitBashStatus.mk false None None (Some (js "Git Bash not found")).

Definition wslMissing : WslStatus.t :=
  WslStatus.mk false None None [] (Some (js "WSL 未安装")).

Definition wslOne : WslStatus.t :=
  WslStatus.mk true (Some (JS.Num 1)) (Some (js "Debian")) [js "Debian"] None.

(** A Windows host without Git Bash, with WSL. *)
Definition wslOnlyHost : imports :=
  mkImports (js "win32") (fun n => (1000 + Z.of_nat n)%Z)
            (Returned (ShellEnvResult.mk false 0 None))
            (Returned nodeFound) (Returned bunFound) (Returned gitFound)
            (Returned gitBashMissing) (Returned wslOne).

(** A Windows host with neither Git Bash nor WSL. *)
Definition noShellHost : imports :=
  mkImports (js "win32") (fun n => (1000 + Z.of_nat n)%Z)
            (Returned (ShellEnvResult.mk false 0 None))
            (Returned nodeFound) (Returned bunFound) (Returned gitFound)
            (Returned gitBashMissing) (Returned wslMissing).

(** A Windows host with Git Bash, without WSL. *)
Definition gitBashOnlyHost : imports :=
  mkImports (js "win32") (fun n => (1000 + Z.of_nat n)%Z)
            (Returned (ShellEnvResult.mk false 0 None))
            (Returned nodeFound) (Returned bunFound) (Returned gitFound)
            (Returned gitBashFound) (Returned wslMissing).

(** Tools for the detectors of [SpecDetectors]: one that is at none of
    the searched locations, one whose probe fails, one that answers
    without a version, and one that answers with the version [v]. *)
Definition absentTool : SpecDetectors.tool :=
  SpecDetectors.mkTool None
    (fun _ => Thrown (ErrorObject (js "ENOENT")))
    (fun _ => None) (js "node: not found") WslDetector.errorMessageOf.

Definition brokenTool : SpecDetectors.tool :=
  SpecDetectors.mkTool (Some (js "C:/Git/bin/bash.exe"))
    (fun _ => Thrown (ErrorObject (js "spawn EACCES")))
    (fun _ => None) (js "bash: not found") WslDetector.errorMessageOf.

Definition unversionedTool : SpecDetectors.tool :=
  SpecDetectors.mkTool (Some (js "/usr/bin/git"))
    (fun _ => Returned (SpecDetectors.mkProbed (js "git version unknown") 0))
    (fun _ => None) (js "git: not found") WslDetector.errorMessageOf.

Definition versionedTool (p v : JS.str) : SpecDetectors.tool :=
  SpecDetectors.mkTool (Some p)
    (fun _ => Returned (SpecDetectors.mkProbed v 0))
    (fun out => Some out) (js "not found") WslDetector.errorMessageOf.

Definition noBun : SpecDetectors.bunStrategies :=
  SpecDetectors.mkBunStrategies absentTool brokenTool unversionedTool
    (js "bun: tried system, bundled, vendor").

Definition bundledBun : SpecDetectors.bunStrategies :=
  SpecDetectors.mkBunStrategies
    absentTool (versionedTool (js "resources/bun") (js "1.1.20"))
    (versionedTool (js "vendor/bun") (js "1.0.0"))
    (js "bun: tried system, bundled, vendor").

(** A Windows machine whose Git Bash cannot be run and whose
    [wsl.exe] prints the documented listing. *)
Definition brokenMachine : SpecDetectors.machine :=
  SpecDetectors.mkMachine (js "win32") (fun n => (1000 + Z.of_nat n)%Z)
    (Returned (ShellEnvResult.mk false 0 None))
    (versionedTool (js "node.exe") (js "v22.3.0")) noBun unversionedTool
    brokenTool (fun _ => Returned WslListing.documentedListing).

End Scenarios.

(* ================================================================== *)
(** * Listings, built row by row *)
(* ================================================================== *)

(** Listings as [wsl.exe --list --verbose] lays them out, to state what
    the parser makes of a well-formed one. *)
Module WslRender.
Import JS.

(** [b || a] on nullable values: [b] unless it is null. *)
Definition orElse {A} (b a : option A) : option A :=
  match b with
  | Some x => Some x
  | None => a
  end.

(** One row: an optional default marker with the blanks after it, the
    name, then the further columns, each after a gap; blanks may stand
    before and after the row. *)
Record row : Type := mkRow
  { isDefault : bool;
    before : str;
    afterMarker : str;
    name : str;
    columns : list (str * str);
    after : str }.

(** The last column is the version marker. *)
Definition marker (r : row) : str := last (map snd (columns r)) [].

Definition renderColumns (cs : list (str * str)) : str :=
  flat_map (fun c => fst c ++ snd c) cs.

Definition render (r : row) : str :=
  before r
  ++ (if isDefault r then 42%N :: afterMarker r else [])
  ++ name r ++ renderColumns (columns r) ++ after r.

(** The row without the blanks around it. *)
Definition core (r : row) : str :=
  (if isDefault r then 42%N :: afterMarker r else [])
  ++ name r ++ renderColumns (columns r).

(** No line feed in [s]. *)
Definition oneLine (s : str) : bool := forallb (fun c => negb (c =? 10)%N) s.

(** A run of blanks within a line: white space, no line feed. *)
Definition gap (s : str) : bool :=
  forallb (fun c => isWhiteSpace c && negb (c =? 10)%N) s.

(** A column entry: not empty, free of white space. *)
Definition word (s : str) : bool :=
  match s with
  | [] => false
  | _ :: _ => noWhiteSpace s
  end.

(** A column after the name: a gap that is not empty, then a word. *)
Definition columnOk (c : str * str) : bool :=
  gap (fst c) && truthy (fst c) && word (snd c).

(** A well-formed row: blanks only where blanks may stand, a name that
    is a word and, unless the row is the default one, does not begin
    with the marker, at least two further columns, and no column title
    anywhere in the row. *)
Definition wellFormed (r : row) : bool :=
  gap (before r) && gap (afterMarker r) && gap (after r)
  && word (name r)
  && (isDefault r || negb (startsWith (name r) [42%N]))
  && (2 <=? length (columns r))%nat
  && forallb columnOk (columns r)
  && negb (WslListing.isHeader (render r)).

(** The version a row supplies. *)
Definition supplied (r : row) : list number :=
  if isDefault r
  then match WslListing.markerVersion (marker r) with
       | Some v => [v]
       | None => []
       end
  else [].

(** A line with blanks around it. *)
Definition padded (p : str * str * str) : str :=
  fst (fst p) ++ snd (fst p) ++ snd p.

Definition unpadded (p : str * str * str) : str := snd (fst p).

Definition blankPadding (p : str * str * str) : bool :=
  WslListing.isBlank (fst (fst p)) && WslListing.isBlank (snd p).

End WslRender.

(* ================================================================== *)
(** * Sequences of coordinator calls *)
(* ================================================================== *)

Module CoordinatorRuns.
Import Coordinator.

(** The worlds the module can be in: the one it is loaded in, and those
    left by a call of [initializeRuntime] or [reinitializeRuntime],
    whatever the options, the imports' answers and the outcome. *)
Inductive reachable : world -> Prop :=
| Loaded : reachable initialWorld
| AfterInitialize (I : imports) (o : RuntimeInitOptions.t) (w : world) :
    reachable w -> reachable (snd (initializeRuntime I o w))
| AfterReinitialize (I : imports) (o : RuntimeInitOptions.t) (w : world) :
    reachable w -> reachable (snd (reinitializeRuntime I o w)).

(** The calls of a run in which nothing is skipped and nothing throws,
    in the order of the source. *)
Definition fullRun : list call :=
  [ CallDateNow; CallLoadShellEnv; CallDetectNodeRuntime;
    CallDetectBunRuntime; CallDetectGitRuntime; CallDetectGitBash;
    CallDetectWsl; CallDateNow; CallDateNow ].

(** [a] is [b] with some elements left out. *)
Fixpoint subsequence (a b : list call) : bool :=
  match a, b with
  | [], _ => true
  | _ :: _, [] => false
  | x :: a', y :: b' =>
      if call_eqb x y then subsequence a' b' else subsequence a b'
  end.

(** The calls one run makes: a step is reached only when the steps
    before it did not throw. *)
Definition madeCalls (I : imports) (o : RuntimeInitOptions.t) : list call :=
  CallDateNow :: envCalls o ++ nodeCalls o
    ++ match nodeStep I o with
       | Thrown _ => []
       | Returned _ =>
           bunCalls o
             ++ match bunStep I o with
                | Thrown _ => []
                | Returned _ =>
                    gitCalls o
                      ++ match gitStep I o with
                         | Thrown _ => []
                         | Returned _ =>
                             shellCalls I o ++ [CallDateNow; CallDateNow]
                         end
                end
       end.

(** Options with every flag set. *)
Definition skipAll : RuntimeInitOptions.t :=
  RuntimeInitOptions.mk (Some true) (Some true) (Some true) (Some true)
                        (Some true).

(** Imports on which every awaited call throws. *)
Definition allThrow (plat : JS.str) (e : exn) : imports :=
  mkImports plat (fun n => Z.of_nat n) (Thrown e) (Thrown e) (Thrown e)
            (Thrown e) (Thrown e) (Thrown e).

(** Two statuses that differ at most in [initializedAt]. *)
Definition sameButTime (a b : RuntimeStatus.t) : Prop :=
  RuntimeStatus.node a = RuntimeStatus.node b
  /\ RuntimeStatus.bun a = RuntimeStatus.bun b
  /\ RuntimeStatus.git a = RuntimeStatus.git b
  /\ RuntimeStatus.shell a = RuntimeStatus.shell b
  /\ RuntimeStatus.envLoaded a = RuntimeStatus.envLoaded b.

End CoordinatorRuns.

(* ================================================================== *)
(** * [ChatMessageItem.tsx]: message time and inline editing *)
(* ================================================================== *)

(** The parts of the component that compute: [formatMessageTime], the
    updates of the [editableAttachments] state and the payload built on
    submit.  A state update [setEditableAttachments(f)] is the function
    [f] from the previous state to the next.  Rendering, the file
    dialog, file reading and [URL.revokeObjectURL] are left out. *)
Module ChatMessageItem.
Import JS.

(** ** Numbers as text *)

Fixpoint uintDigits (d : Decimal.uint) : str :=
  match d with
  | Decimal.Nil => []
  | Decimal.D0 d' => 48%N :: uintDigits d'
  | Decimal.D1 d' => 49%N :: uintDigits d'
  | Decimal.D2 d' => 50%N :: uintDigits d'
  | Decimal.D3 d' => 51%N :: uintDigits d'
  | Decimal.D4 d' => 52%N :: uintDigits d'
  | Decimal.D5 d' => 53%N :: uintDigits d'
  | Decimal.D6 d' => 54%N :: uintDigits d'
  | Decimal.D7 d' => 55%N :: uintDigits d'
  | Decimal.D8 d' => 56%N :: uintDigits d'
  | Decimal.D9 d' => 57%N :: uintDigits d'
  end.

(** A decimal digit. *)
Definition isDecimalDigit (c : N) : bool := ((48 <=? c) && (c <=? 57))%N.

(** [n.toString()] for an integer [n] (of less than 22 digits, as
    [Date.now()], an index or a calendar field is). *)
Definition numberToString (n : Z) : str :=
  match n with
  | Z0 => [48%N]
  | Zpos p => uintDigits (Pos.to_uint p)
  | Zneg p => 45%N :: uintDigits (Pos.to_uint p)
  end.

(** [s.padStart(targetLength, pad)] for a pad of one code unit. *)
Definition padStart (s : str) (targetLength : nat) (pad : N) : str :=
  repeat pad (targetLength - length s) ++ s.

(** ** [formatMessageTime] *)

(** What the function reads of a [Date]: the local calendar fields. *)
Record date : Type := mkDate
  { getFullYear : Z;
    getMonth : Z;
    getDate : Z;
    getHours : Z;
    getMinutes : Z }.

(** [formatMessageTime(timestamp)], given [new Date(timestamp)] and
    [new Date()]. *)
Definition formatMessageTime (d now : date) : str :=
  let hh := padStart (numberToString (getHours d)) 2 48%N in
  let mm := padStart (numberToString (getMinutes d)) 2 48%N in
  let month := padStart (numberToString (getMonth d + 1)) 2 48%N in
  let day := padStart (numberToString (getDate d)) 2 48%N in
  let time := hh ++ js ":" ++ mm in
  if (getFullYear d =? getFullYear now)%Z
  then month ++ js "/" ++ day ++ js " " ++ time
  else numberToString (getFullYear d) ++ js "/" ++ month ++ js "/" ++ day
         ++ js " " ++ time.

(** ** Attachments under edit *)

(** [FileAttachment], with the fields the component reads and writes. *)
Record FileAttachment : Type := mkFileAttachment
  { id : str;
    filename : str;
    mediaType : str;
    localPath : str;
    size : Z }.

Record NewInlineAttachment : Type := mkNewInlineAttachment
  { newFilename : str;
    newMediaType : str;
    newSize : Z;
    data : str }.

Inductive EditableAttachment : Type :=
| Existing (itemId : str) (attachment : FileAttachment)
           (previewUrl : option str)
| New (itemId : str) (attachment : FileAttachment) (base64 : str)
      (previewUrl : option str).

Definition itemId (item : EditableAttachment) : str :=
  match item with
  | Existing i _ _ => i
  | New i _ _ _ => i
  end.

Definition itemAttachment (item : EditableAttachment) : FileAttachment :=
  match item with
  | Existing _ a _ => a
  | New _ a _ _ => a
  end.

Definition withPreviewUrl (item : EditableAttachment) (url : option str)
  : EditableAttachment :=
  match item with
  | Existing i a _ => Existing i a url
  | New i a b _ => New i a b url
  end.

Record InlineEditSubmitPayload : Type := mkPayload
  { content : str;
    keepExistingAttachments : list FileAttachment;
    newAttachments : list NewInlineAttachment }.

(** The second effect: the state when [isInlineEditing] or the
    message's attachments change.  [attachments] is
    [message.attachments], [None] when absent. *)
Definition onEditingChange (isInlineEditing : bool)
           (attachments : option (list FileAttachment))
  : list EditableAttachment :=
  if negb isInlineEditing then []
  else map (fun att => Existing (js "existing-" ++ id att) att None)
           (match attachments with Some l => l | None => [] end).

(** [results.find((result) => result.id === item.id)] *)
Fixpoint findResult (results : list (str * option str)) (i : str)
  : option (str * option str) :=
  match results with
  | [] => None
  | r :: rest => if str_eqb (fst r) i then Some r else findResult rest i
  end.

(** The update made once the previews of the images are read. *)
Definition applyPreviews (results : list (str * option str))
           (prev : list EditableAttachment) : list EditableAttachment :=
  map (fun item =>
         match findResult results (itemId item) with
         | Some (_, Some url) =>
             if truthy url then withPreviewUrl item (Some url) else item
         | _ => item
         end)
      prev.

(** The id of the [idx]-th item of one call of [addPendingAttachments]:
    [now] is [Date.now()], [random idx] the text
    [Math.random().toString(36).slice(2)] of the [idx]-th draw. *)
Definition tempId (now : Z) (random : nat -> str) (idx : nat) : str :=
  js "inline-new-" ++ numberToString now ++ js "-"
     ++ numberToString (Z.of_nat idx) ++ js "-" ++ random idx.

(** The items [addPendingAttachments] builds. *)
Fixpoint pendingFrom (now : Z) (random : nat -> str) (idx : nat)
         (items : list NewInlineAttachment) : list EditableAttachment :=
  match items with
  | [] => []
  | item :: rest =>
      New (tempId now random idx)
          (mkFileAttachment (tempId now random idx)
                            (newFilename item) (newMediaType item)
                            [] (newSize item))
          (data item)
          (if startsWith (newMediaType item) (js "image/")
           then Some (js "data:" ++ newMediaType item ++ js ";base64,"
                         ++ data item)
           else None)
        :: pendingFrom now random (S idx) rest
  end.

Definition addPendingAttachments (now : Z) (random : nat -> str)
           (items : list NewInlineAttachment)
           (prev : list EditableAttachment) : list EditableAttachment :=
  match items with
  | [] => prev
  | _ :: _ => prev ++ pendingFrom now random 0 items
  end.

Definition removeEditableAttachment (i : str)
           (prev : list EditableAttachment) : list EditableAttachment :=
  filter (fun item => negb (str_eqb (itemId item) i)) prev.

Definition canSubmitInline (editingContent : str)
           (editableAttachments : list EditableAttachment) : bool :=
  (0 <? length (trim editingContent))%nat
  || (0 <? length editableAttachments)%nat.

Definition isExisting (item : EditableAttachment) : bool :=
  match item with Existing _ _ _ => true | New _ _ _ _ => false end.

Definition isNew (item : EditableAttachment) : bool :=
  match item with Existing _ _ _ => false | New _ _ _ _ => true end.

Definition itemBase64 (item : EditableAttachment) : str :=
  match item with Existing _ _ _ => [] | New _ _ b _ => b end.

(** The payload handed to [onSubmitInlineEdit] by the send button and by
    Enter: [None] when nothing is submitted.  [hasHandler] tells whether
    [onSubmitInlineEdit] is given. *)
Definition submit (hasHandler : bool) (editingContent : str)
           (editableAttachments : list EditableAttachment)
  : option InlineEditSubmitPayload :=
  if negb (canSubmitInline editingContent editableAttachments)
     || negb hasHandler
  then None
  else Some
         (mkPayload
            (trim editingContent)
            (map itemAttachment (filter isExisting editableAttachments))
            (map (fun item =>
                    mkNewInlineAttachment
                      (filename (itemAttachment item))
                      (mediaType (itemAttachment item))
                      (size (itemAttachment item))
                      (itemBase64 item))
                 (filter isNew editableAttachments))).

(** The two lists of the payload, as [submit] reads them off the
    state. *)
Definition keptOf (st : list EditableAttachment) : list FileAttachment :=
  map itemAttachment (filter isExisting st).

Definition addedOf (st : list EditableAttachment)
  : list NewInlineAttachment :=
  map (fun item =>
         mkNewInlineAttachment
           (filename (itemAttachment item)) (mediaType (itemAttachment item))
           (size (itemAttachment item)) (itemBase64 item))
      (filter isNew st).

(** ** Editing sessions

    The states [editableAttachments] goes through while a message is
    edited: the seed, then additions, removals and preview updates. *)
Inductive editing (attachments : option (list FileAttachment))
  : list EditableAttachment -> Prop :=
| Seeded : editing attachments (onEditingChange true attachments)
| Added now random items st :
    editing attachments st ->
    editing attachments (addPendingAttachments now random items st)
| Removed i st :
    editing attachments st ->
    editing attachments (removeEditableAttachment i st)
| Previewed results st :
    editing attachments st ->
    editing attachments (applyPreviews results st).

(** An item carries the id its kind gives it. *)
Definition wellTagged (item : EditableAttachment) : Prop :=
  match item with
  | Existing i a _ => i = js "existing-" ++ id a
  | New i a _ _ => i = id a /\ startsWith i (js "inline-new-") = true
  end.

(** Two digits. *)
Definition twoDigits (n : Z) : str :=
  [ (48 + Z.to_N (n / 10))%N ; (48 + Z.to_N (n mod 10))%N ].

End ChatMessageItem.

(* ================================================================== *)
(** * Facts about the string operations *)
(* ================================================================== *)

Module JSFacts.
Import JS.

Lemma infix_refl s : infix s s.
Proof. exists [], []. now rewrite app_nil_r. Qed.

Lemma infix_trans p q s : infix p q -> infix q s -> infix p s.
Proof.
  intros (a & b & ->) (c & d & ->).
  exists (c ++ a), (b ++ d). now rewrite !app_assoc.
Qed.

Lemma str_eqb_eq a b : str_eqb a b = true <-> a = b.
Proof.
  revert b. induction a as [|x a IH]; intros [|y b]; simpl;
    try (split; [discriminate | congruence]); [tauto|].
  rewrite andb_true_iff, N.eqb_eq, IH. split.
  - now intros (-> & ->).
  - now intros [= -> ->].
Qed.

Lemma startsWith_spec s p : startsWith s p = true <-> exists b, s = p ++ b.
Proof.
  revert s. induction p as [|x p IH]; intros s.
  - split; [intros _; now exists s | now destruct s].
  - destruct s as [|c s]; simpl.
    + split; [discriminate | intros (b & Hb); discriminate].
    + rewrite andb_true_iff, N.eqb_eq, IH. split.
      * intros (-> & b & ->). now exists b.
      * intros (b & Hb). injection Hb as -> ->. split; [reflexivity | now exists b].
Qed.

Lemma includes_spec s p : includes s p = true <-> infix p s.
Proof.
  induction s as [|c s IH].
  - cbn [includes]. rewrite orb_false_r, startsWith_spec. split.
    + intros (b & Hb). now exists [], b.
    + intros (a & b & Hab). destruct a; [now exists b | discriminate].
  - cbn [includes]. rewrite orb_true_iff, startsWith_spec, IH. split.
    + intros [(b & Hb) | (a & b & Hab)].
      * now exists [], b.
      * exists (c :: a), b. now rewrite Hab.
    + intros (a & b & Hab). destruct a as [|c' a].
      * left. now exists b.
      * right. injection Hab as -> ->. now exists a, b.
Qed.

Lemma includes_infix p q s :
  infix q s -> includes q p = true -> includes s p = true.
Proof.
  rewrite !includes_spec. intros Hqs Hpq. exact (infix_trans Hpq Hqs).
Qed.

Lemma infix_rev p s : infix p s -> infix (rev p) (rev s).
Proof.
  intros (a & b & ->). exists (rev b), (rev a).
  now rewrite !rev_app_distr, app_assoc.
Qed.

(** ** [dropWhile], [trim] *)

Lemma dropWhile_split f s :
  exists a, s = a ++ dropWhile f s /\ forallb f a = true.
Proof.
  induction s as [|c s (a & Ha & Hf)]; simpl.
  - now exists [].
  - destruct (f c) eqn:Hc.
    + exists (c :: a). simpl. rewrite Hc, Hf. now rewrite <- Ha.
    + now exists [].
Qed.

Lemma dropWhile_all f s : forallb f s = true -> dropWhile f s = [].
Proof.
  induction s as [|c s IH]; simpl; [reflexivity|].
  rewrite andb_true_iff. intros (-> & Hs). auto.
Qed.

Lemma dropWhile_head f s :
  dropWhile f s = [] \/ exists c r, dropWhile f s = c :: r /\ f c = false.
Proof.
  induction s as [|c s IH]; simpl; [now left|].
  destruct (f c) eqn:Hc; [exact IH|]. right. now exists c, s.
Qed.

Lemma dropWhile_keeps_last f a c :
  f c = false -> exists u, dropWhile f (a ++ [c]) = u ++ [c].
Proof.
  intros Hc. induction a as [|x a (u & Hu)]; simpl.
  - rewrite Hc. now exists [].
  - destruct (f x); [now exists u | now exists (x :: a)].
Qed.

Lemma dropWhile_infix f p s x p' :
  p = x :: p' -> f x = false -> infix p s -> infix p (dropWhile f s).
Proof.
  intros -> Hx (a & b & ->). induction a as [|c a IH]; simpl.
  - rewrite Hx. now exists [], b.
  - destruct (f c); [exact IH | now exists (c :: a), b].
Qed.

Lemma trimStart_suffix s : exists a, s = a ++ trimStart s.
Proof.
  destruct (dropWhile_split isWhiteSpace s) as (a & Ha & _). now exists a.
Qed.

Lemma trimEnd_prefix s : exists b, s = trimEnd s ++ b.
Proof.
  unfold trimEnd.
  destruct (dropWhile_split isWhiteSpace (rev s)) as (a & Ha & _).
  exists (rev a). rewrite <- rev_app_distr, <- Ha. now rewrite rev_involutive.
Qed.

Lemma trim_infix s : infix (trim s) s.
Proof.
  unfold trim. destruct (trimStart_suffix s) as (a & Ha).
  destruct (trimEnd_prefix (trimStart s)) as (b & Hb).
  exists a, b. now rewrite <- Hb.
Qed.

Lemma trim_blank s : forallb isWhiteSpace s = true -> trim s = [].
Proof.
  intros H. unfold trim, trimStart, trimEnd.
  now rewrite (dropWhile_all _ _ H).
Qed.

(** A trimmed string is empty or begins with a code unit that is not
    white space. *)
Lemma trim_head s :
  trim s = [] \/ exists c r, trim s = c :: r /\ isWhiteSpace c = false.
Proof.
  unfold trim, trimEnd, trimStart.
  destruct (dropWhile_head isWhiteSpace s) as [-> | (c & r & -> & Hc)].
  - now left.
  - right. simpl rev.
    destruct (dropWhile_keeps_last isWhiteSpace (rev r) c Hc) as (u & ->).
    rewrite rev_app_distr. simpl. now exists c, (rev u).
Qed.

(** Trimming keeps every occurrence of a pattern free of white space. *)
Lemma includes_trim s p :
  noWhiteSpace p = true -> includes s p = true -> includes (trim s) p = true.
Proof.
  intros Hp. rewrite !includes_spec. intros H.
  destruct p as [|x p'].
  - exists [], (trim s). reflexivity.
  - assert (Hx : isWhiteSpace x = false).
    { simpl in Hp. apply andb_true_iff in Hp as (Hx & _).
      now apply negb_true_iff in Hx. }
    pose proof (dropWhile_infix isWhiteSpace eq_refl Hx H) as H1.
    fold (trimStart s) in H1.
    apply infix_rev in H1.
    destruct (rev (x :: p')) as [|y q] eqn:Hrev.
    { apply (f_equal (@length _)) in Hrev. rewrite length_rev in Hrev.
      discriminate. }
    assert (Hy : isWhiteSpace y = false).
    { assert (Hin : In y (x :: p')).
      { apply in_rev. rewrite Hrev. now left. }
      unfold noWhiteSpace in Hp. rewrite forallb_forall in Hp.
      apply Hp in Hin. now apply negb_true_iff in Hin. }
    pose proof (dropWhile_infix isWhiteSpace eq_refl Hy H1) as H2.
    apply infix_rev in H2. rewrite <- Hrev, rev_involutive in H2.
    exact H2.
Qed.

End JSFacts.

(* ================================================================== *)
(** * Facts about the listing parser *)
(* ================================================================== *)

Module WslFacts.
Import JS JSFacts WslDetector WslListing.

(** ** Splitting on white space *)

Lemma splitWs_head s : forall cur,
  exists t rest, splitWs cur false s = (cur ++ t) :: rest.
Proof.
  induction s as [|c s IH]; intros cur; simpl.
  - exists [], []. now rewrite app_nil_r.
  - destruct (isWhiteSpace c).
    + exists [], (splitWs [] true s). now rewrite app_nil_r.
    + destruct (IH (cur ++ [c])) as (t & rest & ->).
      exists (c :: t), rest. now rewrite <- app_assoc.
Qed.

Lemma splitWs_infix s : forall cur inRun t,
  In t (splitWs cur inRun s) -> infix t (cur ++ s).
Proof.
  induction s as [|c s IH]; intros cur inRun t; simpl.
  - intros [<- | []]. exists [], []. now rewrite app_nil_r.
  - assert (Hrun : In t (splitWs [] true s) -> infix t (cur ++ c :: s)).
    { intros H. apply IH in H. destruct H as (a & b & Hab). simpl in Hab.
      exists (cur ++ c :: a), b. rewrite Hab.
      now rewrite <- app_assoc. }
    destruct (isWhiteSpace c).
    + destruct inRun; [exact Hrun|].
      intros [<- | H]; [|now apply Hrun].
      now exists [], (c :: s).
    + intros H. apply IH in H.
      now rewrite <- app_assoc in H.
Qed.

Lemma splitWhitespace_infix s t : In t (splitWhitespace s) -> infix t s.
Proof. intros H. exact (splitWs_infix s [] false t H). Qed.

Lemma nth_error_last {A} (l : list A) d :
  l <> [] -> nth_error l (length l - 1) = Some (last l d).
Proof.
  induction l as [|x l IH]; [congruence|]. intros _.
  destruct l as [|y l]; [reflexivity|].
  replace (length (x :: y :: l) - 1)%nat with (S (length (y :: l) - 1))
    by (simpl; lia).
  cbn [nth_error]. rewrite IH by congruence. reflexivity.
Qed.

(** ** One iteration of the loop *)

Lemma rowTokens_nonempty line : rowTokens line <> [].
Proof.
  unfold rowTokens, splitWhitespace.
  destruct (splitWs_head (trim (replaceDefaultMarker line)) [])
    as (t & rest & ->). discriminate.
Qed.

(** The name of a row of two tokens or more is not empty. *)
Lemma rowName_truthy line :
  (2 <= length (rowTokens line))%nat -> truthy (rowName line) = true.
Proof.
  unfold rowName, rowTokens, splitWhitespace.
  destruct (trim_head (replaceDefaultMarker line)) as [-> | (c & r & -> & Hc)].
  - simpl. lia.
  - intros _. simpl. rewrite Hc.
    destruct (splitWs_head r [c]) as (t & rest & ->). reflexivity.
Qed.

Lemma parseInt10_marker v n :
  markerVersion v = Some n -> parseInt10 v = n.
Proof.
  unfold markerVersion.
  destruct (str_eqb v (js "1")) eqn:E1.
  - apply str_eqb_eq in E1. subst v. now intros [= <-].
  - destruct (str_eqb v (js "2")) eqn:E2; [|discriminate].
    apply str_eqb_eq in E2. subst v. now intros [= <-].
Qed.

Lemma markerVersion_test v :
  str_eqb v (js "1") || str_eqb v (js "2")
  = match markerVersion v with Some _ => true | None => false end.
Proof.
  unfold markerVersion.
  destruct (str_eqb v (js "1")); [reflexivity|].
  now destruct (str_eqb v (js "2")).
Qed.

Lemma loopBody_skipped acc line :
  recorded line = false -> loopBody acc line = acc.
Proof.
  unfold recorded, loopBody. fold (rowTokens line). intros H.
  apply Nat.leb_gt in H. apply Nat.ltb_lt in H. now rewrite H.
Qed.

Lemma loopBody_recorded acc line :
  recorded line = true ->
  loopBody acc line =
    mkParsed
      (match suppliedVersion line with
       | v :: _ => Some v
       | [] => version acc
       end)
      (if isDefaultRow line then Some (rowName line) else defaultDistro acc)
      (distros acc ++ [rowName line]).
Proof.
  unfold recorded. intros H. apply Nat.leb_le in H.
  assert (Hlt : (length (rowTokens line) <? 3)%nat = false)
    by (apply Nat.ltb_ge; exact H).
  pose proof (rowName_truthy line ltac:(lia)) as Ht.
  pose proof (@nth_error_last _ (rowTokens line) [] (rowTokens_nonempty line))
    as Hl.
  unfold loopBody. fold (rowTokens line). rewrite Hlt, Hl.
  fold (rowMarker line). fold (isDefaultRow line).
  assert (H0 : nth_error (rowTokens line) 0 = Some (rowName line)).
  { unfold rowName. destruct (rowTokens line); [simpl in H; lia | reflexivity]. }
  rewrite H0, Ht. unfold suppliedVersion.
  rewrite markerVersion_test.
  destruct (isDefaultRow line); [|reflexivity]. simpl.
  destruct (markerVersion (rowMarker line)) eqn:Hm; [|reflexivity].
  now rewrite (parseInt10_marker _ Hm).
Qed.

(** ** The whole loop *)

Lemma lastOf_app_one {A} (l : list A) x : lastOf (l ++ [x]) = Some x.
Proof. unfold lastOf. rewrite map_app. simpl. apply last_last. Qed.

Lemma loop_parsedOf rows :
  fold_left loopBody rows (mkParsed None None []) = parsedOf rows.
Proof.
  induction rows as [|line rows IH] using rev_ind; [reflexivity|].
  rewrite fold_left_app, IH. simpl fold_left.
  unfold parsedOf. rewrite filter_app. simpl filter.
  destruct (recorded line) eqn:Hr.
  - rewrite (loopBody_recorded _ _ Hr). cbn [version defaultDistro distros].
    rewrite !filter_app, !map_app, flat_map_app. simpl filter.
    simpl flat_map. rewrite app_nil_r. f_equal.
    + unfold suppliedVersion. destruct (isDefaultRow line).
      * destruct (markerVersion (rowMarker line)).
        -- now rewrite lastOf_app_one.
        -- now rewrite app_nil_r.
      * now rewrite app_nil_r.
    + destruct (isDefaultRow line).
      * simpl. now rewrite lastOf_app_one.
      * now rewrite app_nil_r.
  - rewrite (loopBody_skipped _ _ Hr). now rewrite !app_nil_r.
Qed.

(** ** Lines *)

Lemma splitOn_app sep a b : forall cur,
  splitOn sep cur (a ++ sep :: b) = splitOn sep cur a ++ splitOn sep [] b.
Proof.
  induction a as [|c a IH]; intros cur; simpl.
  - now rewrite N.eqb_refl.
  - destruct (c =? sep)%N; simpl; now rewrite IH.
Qed.

Lemma splitOn_single sep l : forall cur,
  forallb (fun c => negb (c =? sep)%N) l = true ->
  splitOn sep cur l = [cur ++ l].
Proof.
  induction l as [|c l IH]; intros cur; simpl.
  - now rewrite app_nil_r.
  - rewrite andb_true_iff, negb_true_iff. intros (-> & Hl).
    rewrite (IH _ Hl). now rewrite <- app_assoc.
Qed.

Lemma lines_app a b : lines (a ++ 10%N :: b) = lines a ++ lines b.
Proof.
  unfold lines, split. now rewrite splitOn_app, map_app, filter_app.
Qed.

Lemma dataLines_app a b :
  dataLines (a ++ 10%N :: b) = dataLines a ++ dataLines b.
Proof. unfold dataLines. now rewrite lines_app, filter_app. Qed.

Lemma dataLines_keep output :
  dataLines output = filter (fun line => negb (isHeader line)) (lines output).
Proof.
  unfold dataLines, isHeader. apply filter_ext. intros line.
  now rewrite !negb_orb.
Qed.

Lemma isHeader_trim line : isHeader line = true -> isHeader (trim line) = true.
Proof.
  unfold isHeader. rewrite !orb_true_iff.
  intros [[H | H] | H]; [left; left | left; right | right];
    (apply includes_trim; [reflexivity | exact H]).
Qed.

Lemma isHeader_infix d line :
  infix d line -> isHeader line = false -> isHeader d = false.
Proof.
  unfold isHeader. rewrite !orb_false_iff. intros Hi ((H1 & H2) & H3).
  repeat split; apply not_true_is_false; intros H;
    apply (includes_infix _ Hi) in H; congruence.
Qed.

Lemma filter_none {A} (f : A -> bool) l :
  (forall x, In x l -> f x = false) -> filter f l = [].
Proof.
  induction l as [|x l IH]; intros H; simpl; [reflexivity|].
  rewrite (H x (or_introl eq_refl)). apply IH. intros y Hy. apply H. now right.
Qed.

(** Lines that are blank or contain a column title leave no data line. *)
Lemma dataLines_none output :
  forallb (fun l => isBlank l || isHeader l) (split output 10%N) = true ->
  dataLines output = [].
Proof.
  intros H. rewrite forallb_forall in H.
  rewrite dataLines_keep. apply filter_none. intros x Hx.
  unfold lines in Hx. apply filter_In in Hx as (Hx & Ht).
  apply in_map_iff in Hx as (l & <- & Hl).
  apply H in Hl. apply orb_true_iff in Hl as [Hb | Hh].
  - unfold isBlank in Hb. rewrite (trim_blank _ Hb) in Ht. discriminate.
  - now rewrite (isHeader_trim _ Hh).
Qed.

Lemma dataLines_header_line line :
  forallb (fun c => negb (c =? 10)%N) line = true ->
  isHeader line = true -> dataLines line = [].
Proof.
  intros Hnl Hh. apply dataLines_none.
  unfold split. rewrite (splitOn_single _ _ [] Hnl). simpl.
  now rewrite Hh, orb_true_r.
Qed.

Lemma parse_parsedOf output :
  parseWslListOutput output = parsedOf (dataLines output).
Proof. apply loop_parsedOf. Qed.

Lemma lastOf_In {A} (l : list A) x : lastOf l = Some x -> In x l.
Proof.
  induction l as [|y l _] using rev_ind; [discriminate|].
  rewrite lastOf_app_one. intros [= ->]. apply in_or_app. right. now left.
Qed.

Lemma dataLines_not_header output line :
  In line (dataLines output) -> isHeader line = false.
Proof.
  rewrite dataLines_keep. intros H. apply filter_In in H as (_ & H).
  now apply negb_true_iff in H.
Qed.

Lemma rowName_infix line : infix (rowName line) line.
Proof.
  assert (H : In (rowName line) (rowTokens line)).
  { unfold rowName. pose proof (rowTokens_nonempty line).
    destruct (rowTokens line); [congruence | now left]. }
  apply splitWhitespace_infix in H.
  apply (infix_trans H). apply (infix_trans (trim_infix _)).
  unfold replaceDefaultMarker. destruct line as [|c r]; [apply infix_refl|].
  destruct (c =? 42)%N; [|apply infix_refl].
  destruct (dropWhile_split isWhiteSpace r) as (a & Ha & _).
  exists (c :: a), []. rewrite app_nil_r. simpl. now rewrite <- Ha.
Qed.

End WslFacts.

(* ================================================================== *)
(** * Properties of the WSL detector *)
(* ================================================================== *)

Module WslProperties.
Import JS JSFacts WslDetector WslListing WslFacts.

(** C1: for the listing made of the header line [NAME STATE VERSION],
    the line [* Ubuntu Running 2] and the line [Debian Stopped 1],
    [parseWslListOutput] returns the distributions [Ubuntu], [Debian] in
    that order, the default distribution [Ubuntu] and version 2; both
    with the column layout of the documentation and with single blanks. *)
Theorem parse_documented_listing :
  parseWslListOutput documentedListing
  = mkParsed (Some (Num 2)) (Some (js "Ubuntu")) [js "Ubuntu"; js "Debian"]
  /\ parseWslListOutput compactListing
     = mkParsed (Some (Num 2)) (Some (js "Ubuntu")) [js "Ubuntu"; js "Debian"].
Proof. split; vm_compute; reflexivity. Qed.

(** [detectWsl] always returns a status: whatever [execSync] prints or
    throws, nothing is thrown past the detector. *)
Lemma detectWsl_returns h : exists st, detectWsl h = Returned st.
Proof.
  unfold detectWsl.
  destruct (negb (str_eqb (platform h) (js "win32"))); [eauto|].
  destruct (execSync h _); eauto.
Qed.

(** C7: on Windows, when every line of the listing is blank or contains
    a column title, detection returns [available = false] with the error
    saying that WSL is installed without any distribution, a null
    version and default distribution and no distributions; and detection
    returns a status, without raising, on every host and every output. *)
Theorem header_only_listing_has_no_distribution (h : host) (output : str) :
  platform h = js "win32" ->
  execSync h (js "chcp 65001 > nul && wsl.exe --list --verbose")
  = Returned output ->
  forallb (fun l => isBlank l || isHeader l) (split output 10%N) = true ->
  detectWsl h
  = Returned (WslStatus.mk false None None []
                (Some (js "WSL 已安装但未安装任何 Linux 发行版")))
  /\ parseWslListOutput output = mkParsed None None []
  /\ forall h' : host, exists st, detectWsl h' = Returned st.
Proof.
  intros Hp He Hl.
  assert (Hparse : parseWslListOutput output = mkParsed None None []).
  { unfold parseWslListOutput. now rewrite (dataLines_none _ Hl). }
  split; [|split; [exact Hparse | exact detectWsl_returns]].
  unfold detectWsl. rewrite Hp.
  replace (str_eqb (js "win32") (js "win32")) with true
    by (vm_compute; reflexivity).
  cbn [negb]. rewrite He. unfold onExecOutput.
  rewrite Hparse. reflexivity.
Qed.

Lemma header_only_listing_witness :
  detectWsl (mkHost (js "win32")
               (fun _ => Returned (js "  NAME      STATE     VERSION

     
")))
  = Returned (WslStatus.mk false None None []
                (Some (js "WSL 已安装但未安装任何 Linux 发行版"))).
Proof.
  refine (proj1 (header_only_listing_has_no_distribution
                   (mkHost (js "win32") (fun _ => Returned _)) _ _ _));
    vm_compute; reflexivity.
Defined.

(** C8, as stated, fails: the line [* Ubuntu 2] is not empty and not a
    header line, its first token is [Ubuntu] and its last token is [2],
    yet no name is recorded and no version is set, because the row has
    fewer than three tokens. *)
Lemma short_row_is_skipped :
  dataLines (js "* Ubuntu 2") = [js "* Ubuntu 2"]
  /\ rowName (js "* Ubuntu 2") = js "Ubuntu"
  /\ rowMarker (js "* Ubuntu 2") = js "2"
  /\ parseWslListOutput (js "* Ubuntu 2") = mkParsed None None [].
Proof. repeat split; vm_compute; reflexivity. Qed.

(** C8, amended: of the non-empty non-header lines, those whose text
    after the default marker splits on white space into at least three
    tokens are the recorded rows (the others are skipped).  The first
    token of every recorded row is recorded as a distribution name, in
    encounter order; the default distribution is the name of the last
    recorded row that starts with the marker; the version is the one of
    the last recorded default row whose last token is [1] or [2], and is
    null when there is no such row. *)
Theorem parse_follows_rows (output : str) :
  let rows := filter recorded (dataLines output) in
  distros (parseWslListOutput output) = map rowName rows
  /\ defaultDistro (parseWslListOutput output)
     = lastOf (map rowName (filter isDefaultRow rows))
  /\ version (parseWslListOutput output)
     = lastOf (flat_map suppliedVersion rows)
  /\ (forall v, version (parseWslListOutput output) = Some v ->
      exists row, In row rows /\ isDefaultRow row = true
                  /\ (rowMarker row = js "1" /\ v = Num 1
                      \/ rowMarker row = js "2" /\ v = Num 2))
  /\ (forall name, In name (distros (parseWslListOutput output)) ->
      name <> []).
Proof.
  cbv zeta. rewrite parse_parsedOf. unfold parsedOf.
  cbn [distros defaultDistro version].
  repeat split.
  - intros v Hv. apply lastOf_In, in_flat_map in Hv as (row & Hrow & Hin).
    exists row. split; [exact Hrow|]. unfold suppliedVersion in Hin.
    destruct (isDefaultRow row); [|destruct Hin]. split; [reflexivity|].
    unfold markerVersion in Hin.
    destruct (str_eqb (rowMarker row) (js "1")) eqn:E1.
    + apply str_eqb_eq in E1. destruct Hin as [<- | []]. now left.
    + destruct (str_eqb (rowMarker row) (js "2")) eqn:E2; [|destruct Hin].
      apply str_eqb_eq in E2. destruct Hin as [<- | []]. now right.
  - intros name Hin. apply in_map_iff in Hin as (row & <- & Hrow).
    apply filter_In in Hrow as (_ & Hrec). unfold recorded in Hrec.
    apply Nat.leb_le in Hrec.
    pose proof (rowName_truthy row ltac:(lia)) as Ht.
    destruct (rowName row); [discriminate | congruence].
Qed.

Lemma unlines_app a b : unlines (a ++ b) = unlines a ++ unlines b.
Proof. unfold unlines. apply flat_map_app. Qed.

Lemma unlines_end ls :
  unlines ls = [] \/ exists u, unlines ls = u ++ [10%N].
Proof.
  induction ls as [|x ls _] using rev_ind; [now left|]. right.
  rewrite unlines_app. simpl. rewrite app_nil_r.
  exists (unlines ls ++ x). now rewrite app_assoc.
Qed.

(** A line with a column title in it, put anywhere among the lines of a
    listing, leaves the data lines as they were. *)
Lemma dataLines_insert_header before line after :
  forallb (fun c => negb (c =? 10)%N) line = true ->
  isHeader line = true ->
  dataLines (unlines (before ++ line :: after))
  = dataLines (unlines (before ++ after)).
Proof.
  intros Hnl Hh. rewrite !unlines_app.
  change (unlines (line :: after)) with ((line ++ [10%N]) ++ unlines after).
  rewrite <- (app_assoc line). simpl app.
  destruct (unlines_end before) as [-> | (u & ->)]; simpl app.
  - rewrite dataLines_app. now rewrite (dataLines_header_line _ Hnl Hh).
  - rewrite <- !app_assoc. simpl app. rewrite !dataLines_app.
    now rewrite (dataLines_header_line _ Hnl Hh).
Qed.

(** C9: a line that contains [NAME], [STATE] or [VERSION] (compared code
    unit by code unit, hence case-sensitively) anywhere is discarded:
    the listing parses as it does without the line.  So in the result of
    every listing no distribution name contains one of the three, the
    default distribution does not, and the version comes from a row that
    is not such a line and whose name does not contain one either. *)
Theorem header_like_lines_are_discarded
        (output : str) (before after : list str) (line : str) :
  isHeader line = true ->
  forallb (fun c => negb (c =? 10)%N) line = true ->
  parseWslListOutput (unlines (before ++ line :: after))
  = parseWslListOutput (unlines (before ++ after))
  /\ (forall d, In d (distros (parseWslListOutput output)) ->
      isHeader d = false)
  /\ (forall d, defaultDistro (parseWslListOutput output) = Some d ->
      isHeader d = false)
  /\ (forall v, version (parseWslListOutput output) = Some v ->
      exists row, In row (dataLines output)
                  /\ isHeader row = false
                  /\ isHeader (rowName row) = false
                  /\ isDefaultRow row = true
                  /\ markerVersion (rowMarker row) = Some v).
Proof.
  intros Hh Hnl. split.
  { unfold parseWslListOutput.
    now rewrite (dataLines_insert_header before line after Hnl Hh). }
  rewrite parse_parsedOf. unfold parsedOf.
  cbn [distros defaultDistro version].
  assert (Hname : forall row, In row (filter recorded (dataLines output)) ->
                              isHeader row = false
                              /\ isHeader (rowName row) = false).
  { intros row Hrow. apply filter_In in Hrow as (Hrow & _).
    apply dataLines_not_header in Hrow. split; [exact Hrow|].
    exact (isHeader_infix (rowName_infix row) Hrow). }
  repeat split.
  - intros d Hd. apply in_map_iff in Hd as (row & <- & Hrow).
    now apply Hname.
  - intros d Hd. apply lastOf_In, in_map_iff in Hd as (row & <- & Hrow).
    apply filter_In in Hrow as (Hrow & _). now apply Hname.
  - intros v Hv. apply lastOf_In, in_flat_map in Hv as (row & Hrow & Hin).
    exists row. destruct (Hname row Hrow) as (H1 & H2).
    apply filter_In in Hrow as (Hrow & _).
    unfold suppliedVersion in Hin.
    destruct (isDefaultRow row); [|destruct Hin].
    destruct (markerVersion (rowMarker row)) as [v'|]; [|destruct Hin].
    destruct Hin as [<- | []]. repeat split; assumption.
Qed.

(** The comparison is by code unit: a row whose name contains a column
    title in another case is kept, one that contains it as written is
    dropped. *)
Example titles_are_case_sensitive :
  parseWslListOutput (js "* MyVersion Running 2")
  = mkParsed (Some (Num 2)) (Some (js "MyVersion")) [js "MyVersion"]
  /\ parseWslListOutput (js "* MyVERSION Running 2") = mkParsed None None [].
Proof. split; vm_compute; reflexivity. Qed.

Lemma header_like_lines_witness :
  parseWslListOutput
    (unlines ([js "* Ubuntu Running 2"]
                ++ js "  USERNAMES Running 1" :: [js "  Debian Stopped 1"]))
  = parseWslListOutput
      (unlines ([js "* Ubuntu Running 2"] ++ [js "  Debian Stopped 1"])).
Proof.
  refine (proj1 (header_like_lines_are_discarded [] _ _ _ _ _));
    vm_compute; reflexivity.
Defined.

End WslProperties.

(* ================================================================== *)
(** * Facts about the coordinator *)
(* ================================================================== *)

Module CoordinatorFacts.
Import Coordinator.

Lemma asked_addCalls w made :
  asked (addCalls w made)
  = (asked w + length (filter (call_eqb CallDateNow) made))%nat.
Proof. unfold asked, addCalls. simpl. now rewrite filter_app, length_app. Qed.

Lemma addCalls_addCalls w a b :
  addCalls (addCalls w a) b = addCalls w (a ++ b).
Proof. unfold addCalls. simpl. now rewrite app_assoc. Qed.

Lemma now_run I w :
  now I w = (Returned (dateNow I (asked w)), addCalls w [CallDateNow]).
Proof. reflexivity. Qed.

Lemma loadEnvStep_run I o w :
  loadEnvStep I o w = (Returned (envLoadedOf I o), addCalls w (envCalls o)).
Proof.
  unfold loadEnvStep, envLoadedOf, envCalls, addCalls.
  destruct (negb _).
  - unfold tryCatch, bind, await, ret. now destruct (loadShellEnv I).
  - unfold ret. destruct w. simpl. now rewrite app_nil_r.
Qed.

Lemma shellStep_run I o w :
  shellStep I o w = (Returned (shellOf I o), addCalls w (shellCalls I o)).
Proof.
  unfold shellStep, shellOf, shellCalls, addCalls.
  fold (shellDetectionRuns I o). destruct (shellDetectionRuns I o).
  - unfold tryCatch, bind, await, ret.
    destruct (detectGitBash I); [|reflexivity].
    destruct (detectWsl I); simpl; now rewrite <- app_assoc.
  - unfold ret. destruct w. simpl. now rewrite app_nil_r.
Qed.

Lemma detect_run {A} (skip : option bool) (skipped : A) (c : call)
      (d : outcome A) w :
  (if RuntimeInitOptions.truthy skip then ret skipped else await c d) w
  = (if RuntimeInitOptions.truthy skip then Returned skipped else d,
     addCalls w (if RuntimeInitOptions.truthy skip then [] else [c])).
Proof.
  unfold addCalls. destruct (RuntimeInitOptions.truthy skip).
  - unfold ret. destruct w. simpl. now rewrite app_nil_r.
  - reflexivity.
Qed.

Lemma asked_no_dateNow w made :
  filter (call_eqb CallDateNow) made = [] ->
  asked (addCalls w (CallDateNow :: made)) = S (asked w).
Proof.
  intros H. rewrite asked_addCalls. simpl. rewrite H. simpl. lia.
Qed.

Lemma no_dateNow_calls I o :
  filter (call_eqb CallDateNow)
         (envCalls o ++ nodeCalls o ++ bunCalls o ++ gitCalls o
                  ++ shellCalls I o) = [].
Proof.
  unfold envCalls, nodeCalls, bunCalls, gitCalls, shellCalls.
  destruct (negb _), (RuntimeInitOptions.truthy _),
    (RuntimeInitOptions.truthy _), (RuntimeInitOptions.truthy _),
    (shellDetectionRuns I o); try reflexivity;
    destruct (detectGitBash I); reflexivity.
Qed.

(** The outcome and the world of a run of [initializeRuntime]. *)
Lemma initializeRuntime_run I o w :
  initializeRuntime I o w
  = match nodeStep I o with
    | Thrown e =>
        (Thrown e, addCalls w (CallDateNow :: envCalls o ++ nodeCalls o))
    | Returned n =>
        match bunStep I o with
        | Thrown e =>
            (Thrown e,
             addCalls w (CallDateNow :: envCalls o ++ nodeCalls o
                                     ++ bunCalls o))
        | Returned b =>
            match gitStep I o with
            | Thrown e =>
                (Thrown e,
                 addCalls w (CallDateNow :: envCalls o ++ nodeCalls o
                                         ++ bunCalls o ++ gitCalls o))
            | Returned g =>
                (Returned (builtStatus I o w n b g),
                 mkWorld
                   (mkVars (Some (builtStatus I o w n b g)) true)
                   (calls w ++ CallDateNow
                          :: envCalls o ++ nodeCalls o ++ bunCalls o
                          ++ gitCalls o ++ shellCalls I o
                          ++ [CallDateNow; CallDateNow]))
            end
        end
    end.
Proof.
  unfold initializeRuntime, bind at 1. rewrite now_run.
  unfold bind at 1. rewrite loadEnvStep_run, addCalls_addCalls.
  unfold bind at 1. rewrite detect_run, addCalls_addCalls.
  fold (nodeStep I o). fold (nodeCalls o).
  destruct (nodeStep I o) as [n|e]; [|reflexivity].
  unfold bind at 1. rewrite detect_run, addCalls_addCalls.
  fold (bunStep I o). fold (bunCalls o).
  destruct (bunStep I o) as [b|e]; [|now rewrite <- !app_assoc].
  unfold bind at 1. rewrite detect_run, addCalls_addCalls.
  fold (gitStep I o). fold (gitCalls o).
  destruct (gitStep I o) as [g|e]; [|now rewrite <- !app_assoc].
  unfold bind at 1. rewrite shellStep_run, addCalls_addCalls.
  unfold bind at 1. rewrite now_run, addCalls_addCalls.
  unfold bind, setRuntimeStatusCache, setIsInitialized, ret.
  rewrite now_run. unfold builtStatus.
  assert (Hask : asked
                   (addCalls w
                      (((((([CallDateNow] ++ envCalls o) ++ nodeCalls o)
                            ++ bunCalls o) ++ gitCalls o) ++ shellCalls I o)))
                 = S (asked w)).
  { rewrite <- !app_assoc. simpl app. apply asked_no_dateNow.
    apply no_dateNow_calls. }
  rewrite Hask. unfold addCalls. cbn [mem calls runtimeStatusCache].
  rewrite <- !app_assoc. reflexivity.
Qed.

End CoordinatorFacts.

(* ================================================================== *)
(** * Properties of the coordinator *)
(* ================================================================== *)

Module CoordinatorProperties.
Import Coordinator CoordinatorFacts Scenarios.

(** [reinitializeRuntime] clears the two variables, then runs
    [initializeRuntime]. *)
Lemma reinitializeRuntime_run I o w :
  reinitializeRuntime I o w
  = initializeRuntime I o (mkWorld (mkVars None false) (calls w)).
Proof. reflexivity. Qed.

(** C2, as stated, fails: after a first initialisation the cache holds a
    status; a reinitialisation in which the Node.js detector throws ends
    with that exception, and [getRuntimeStatus] then returns null. *)
Lemma failed_reinitialization_clears_cache :
  getRuntimeStatus afterFirstInit = Some firstStatus
  /\ fst (reinitializeRuntime nodeThrows RuntimeInitOptions.empty
            afterFirstInit)
     = Thrown (ErrorObject (js "spawn node ENOENT"))
  /\ getRuntimeStatus
       (snd (reinitializeRuntime nodeThrows RuntimeInitOptions.empty
               afterFirstInit))
     = None.
Proof. repeat split; vm_compute; reflexivity. Qed.

(** C2, amended: when a call of [initializeRuntime] ends with an
    exception, the cached status and the initialised flag are as before
    the call, and [getRuntimeStatus] still returns the previous status;
    [initializeRuntime] writes the cache once, with the fully built
    status it returns.  [reinitializeRuntime] clears the cache and the
    flag before it runs the initialisation, so after the same failure
    under [reinitializeRuntime] the cache is null and the flag false. *)
Theorem failed_initialization_keeps_cache I o w e w' :
  initializeRuntime I o w = (Thrown e, w') ->
  (mem w' = mem w
   /\ getRuntimeStatus w' = getRuntimeStatus w
   /\ isRuntimeInitialized w' = isRuntimeInitialized w)
  /\ (exists w2, reinitializeRuntime I o w = (Thrown e, w2)
                 /\ getRuntimeStatus w2 = None
                 /\ isRuntimeInitialized w2 = false)
  /\ (forall I1 o1 w1 s w3,
         initializeRuntime I1 o1 w1 = (Returned s, w3)
         \/ reinitializeRuntime I1 o1 w1 = (Returned s, w3) ->
         getRuntimeStatus w3 = Some s
         /\ isRuntimeInitialized w3 = true
         /\ nodeStep I1 o1 = Returned (RuntimeStatus.node s)
         /\ bunStep I1 o1 = Returned (RuntimeStatus.bun s)
         /\ gitStep I1 o1 = Returned (RuntimeStatus.git s)).
Proof.
  intros H.
  assert (Hret : forall I1 o1 w1 s w3,
             initializeRuntime I1 o1 w1 = (Returned s, w3) ->
             getRuntimeStatus w3 = Some s
             /\ isRuntimeInitialized w3 = true
             /\ nodeStep I1 o1 = Returned (RuntimeStatus.node s)
             /\ bunStep I1 o1 = Returned (RuntimeStatus.bun s)
             /\ gitStep I1 o1 = Returned (RuntimeStatus.git s)).
  { intros I1 o1 w1 s w3. rewrite initializeRuntime_run.
    destruct (nodeStep I1 o1); [|discriminate].
    destruct (bunStep I1 o1); [|discriminate].
    destruct (gitStep I1 o1); [|discriminate].
    intros [= <- <-]. repeat split. }
  split; [|split].
  - rewrite initializeRuntime_run in H.
    destruct (nodeStep I o);
      [destruct (bunStep I o); [destruct (gitStep I o); [discriminate|]|]|];
      injection H as _ <-; repeat split.
  - rewrite reinitializeRuntime_run.
    rewrite initializeRuntime_run in H. rewrite initializeRuntime_run.
    destruct (nodeStep I o);
      [destruct (bunStep I o); [destruct (gitStep I o); [discriminate|]|]|];
      injection H as -> _; eexists; repeat split.
  - intros I1 o1 w1 s w3 [Hi | Hr].
    + exact (Hret _ _ _ _ _ Hi).
    + rewrite reinitializeRuntime_run in Hr. exact (Hret _ _ _ _ _ Hr).
Qed.

Lemma failed_initialization_witness :
  getRuntimeStatus
    (snd (initializeRuntime nodeThrows RuntimeInitOptions.empty afterFirstInit))
  = getRuntimeStatus afterFirstInit.
Proof.
  refine (proj1 (proj2 (proj1
            (failed_initialization_keeps_cache
               nodeThrows RuntimeInitOptions.empty afterFirstInit
               (e := ErrorObject (js "spawn node ENOENT")) _)))).
  vm_compute; reflexivity.
Defined.

(** A run that returns, returns the status built from the three
    detection steps. *)
Lemma initializeRuntime_returned I o w s w' :
  initializeRuntime I o w = (Returned s, w') ->
  exists n b g,
    nodeStep I o = Returned n /\ bunStep I o = Returned b
    /\ gitStep I o = Returned g /\ s = builtStatus I o w n b g.
Proof.
  rewrite initializeRuntime_run.
  destruct (nodeStep I o) as [n|]; [|discriminate].
  destruct (bunStep I o) as [b|]; [|discriminate].
  destruct (gitStep I o) as [g|]; [|discriminate].
  intros [= <- _]. now exists n, b, g.
Qed.

(** When the three detection steps return, the run returns. *)
Lemma initializeRuntime_returns I o w n b g :
  nodeStep I o = Returned n -> bunStep I o = Returned b ->
  gitStep I o = Returned g ->
  exists w', initializeRuntime I o w = (Returned (builtStatus I o w n b g), w')
             /\ getRuntimeStatus w' = Some (builtStatus I o w n b g).
Proof.
  intros Hn Hb Hg. rewrite initializeRuntime_run, Hn, Hb, Hg.
  eexists. split; reflexivity.
Qed.

Lemma shellOf_present I o :
  shellOf I o <> None <->
  platform I = js "win32"
  /\ RuntimeInitOptions.truthy (RuntimeInitOptions.skipShellDetection o)
     = false
  /\ (exists gitBashStatus, detectGitBash I = Returned gitBashStatus)
  /\ (exists wslStatus, detectWsl I = Returned wslStatus).
Proof.
  unfold shellOf, shellDetectionRuns.
  destruct (JS.str_eqb (platform I) (js "win32")) eqn:Hp.
  - apply JSFacts.str_eqb_eq in Hp.
    destruct (RuntimeInitOptions.truthy _); simpl.
    + split; [congruence | intros (_ & [=] & _)].
    + destruct (detectGitBash I) as [gb|e1].
      * destruct (detectWsl I) as [ws|e2].
        -- split; [intros _ | discriminate]. repeat split; eauto.
        -- split; [congruence | intros (_ & _ & _ & (x & [=]))].
      * split; [congruence | intros (_ & _ & (x & [=]) & _)].
  - simpl. split; [congruence|]. intros (Hw & _).
    apply JSFacts.str_eqb_eq in Hw. congruence.
Qed.

(** C3, as stated, fails: on a [win32] host, initialising with
    [skipShellDetection = true] returns a status without [shell]; so
    does a run in which the Git Bash detector throws. *)
Lemma shell_absent_on_windows :
  platform windowsHost = js "win32"
  /\ option_map RuntimeStatus.shell
       (returned (initializeRuntime windowsHost skipShell initialWorld))
     = Some None
  /\ platform gitBashThrows = js "win32"
  /\ option_map RuntimeStatus.shell
       (returned (initializeRuntime gitBashThrows RuntimeInitOptions.empty
                    initialWorld))
     = Some None.
Proof. repeat split; vm_compute; reflexivity. Qed.

(** C3, amended: in every status that [initializeRuntime] returns,
    under any options, [shell] is present if and only if the platform is
    [win32], [skipShellDetection] is not set, and both the Git Bash and
    the WSL detector returned a status.  In particular [shell] is absent
    on every platform but [win32]. *)
Theorem shell_present_iff I o w s w' :
  initializeRuntime I o w = (Returned s, w') ->
  (RuntimeStatus.shell s <> None <->
   platform I = js "win32"
   /\ RuntimeInitOptions.truthy (RuntimeInitOptions.skipShellDetection o)
      = false
   /\ (exists gitBashStatus, detectGitBash I = Returned gitBashStatus)
   /\ (exists wslStatus, detectWsl I = Returned wslStatus))
  /\ (platform I <> js "win32" -> RuntimeStatus.shell s = None).
Proof.
  intros H. apply initializeRuntime_returned in H
    as (n & b & g & _ & _ & _ & ->).
  cbn [builtStatus RuntimeStatus.shell]. split; [apply shellOf_present|].
  intros Hp. destruct (shellOf I o) eqn:E; [|reflexivity].
  assert (Hs : shellOf I o <> None) by congruence.
  apply shellOf_present in Hs as (Hw & _). contradiction.
Qed.

Lemma shell_present_witness :
  RuntimeStatus.shell firstStatus <> None <->
  platform windowsHost = js "win32"
  /\ RuntimeInitOptions.truthy
       (RuntimeInitOptions.skipShellDetection RuntimeInitOptions.empty)
     = false
  /\ (exists gitBashStatus, detectGitBash windowsHost = Returned gitBashStatus)
  /\ (exists wslStatus, detectWsl windowsHost = Returned wslStatus).
Proof.
  refine (proj1 (shell_present_iff windowsHost RuntimeInitOptions.empty
                   initialWorld (s := firstStatus) (w' := afterFirstInit) _)).
  vm_compute; reflexivity.
Defined.

(** On [win32], for every pair of statuses the two detectors return, a
    run whose detection steps return reports the pair together with its
    recommendation. *)
Lemma every_pair_is_resolved I o w n b g gitBashStatus wslStatus :
  platform I = js "win32" ->
  RuntimeInitOptions.truthy (RuntimeInitOptions.skipShellDetection o)
  = false ->
  detectGitBash I = Returned gitBashStatus ->
  detectWsl I = Returned wslStatus ->
  nodeStep I o = Returned n -> bunStep I o = Returned b ->
  gitStep I o = Returned g ->
  exists s w',
    initializeRuntime I o w = (Returned s, w')
    /\ RuntimeStatus.shell s
       = Some (ShellEnvironmentStatus.mk gitBashStatus wslStatus
                 (recommend gitBashStatus wslStatus)).
Proof.
  intros Hp Hskip Hgb Hws Hn Hb Hg.
  destruct (initializeRuntime_returns I o w Hn Hb Hg) as (w' & Hrun & _).
  exists (builtStatus I o w n b g), w'. split; [exact Hrun|].
  cbn [builtStatus RuntimeStatus.shell]. unfold shellOf, shellDetectionRuns.
  apply JSFacts.str_eqb_eq in Hp. now rewrite Hp, Hskip, Hgb, Hws.
Qed.

(** With the detector of [wsl-detector.ts] linked in, WSL detection
    never throws: [shell] is present exactly on [win32], when shell
    detection is not skipped and the Git Bash detector returns. *)
Lemma linked_shell_present I execSync o w s w' :
  initializeRuntime (linked I execSync) o w = (Returned s, w') ->
  (RuntimeStatus.shell s <> None <->
   platform I = js "win32"
   /\ RuntimeInitOptions.truthy (RuntimeInitOptions.skipShellDetection o)
      = false
   /\ exists gitBashStatus, detectGitBash I = Returned gitBashStatus).
Proof.
  intros H. apply initializeRuntime_returned in H
    as (n & b & g & _ & _ & _ & ->).
  cbn [builtStatus RuntimeStatus.shell]. rewrite shellOf_present.
  cbn [linked platform detectGitBash detectWsl].
  split.
  - intros (Hp & Hs & Hgb & _). auto.
  - intros (Hp & Hs & Hgb). repeat split; try assumption.
    apply WslProperties.detectWsl_returns.
Qed.

(** The recommendation the code derives, case by case. *)
Lemma recommend_cases gitBashStatus wslStatus :
  (GitBashStatus.available gitBashStatus = true ->
   recommend gitBashStatus wslStatus = Some ShellEnvironmentStatus.git_bash)
  /\ (GitBashStatus.available gitBashStatus = false ->
      WslStatus.available wslStatus = true ->
      recommend gitBashStatus wslStatus
      = Some ShellEnvironmentStatus.wsl_shell)
  /\ (GitBashStatus.available gitBashStatus = false ->
      WslStatus.available wslStatus = false ->
      recommend gitBashStatus wslStatus = None).
Proof.
  unfold recommend. split; [|split].
  - now intros ->.
  - now intros -> ->.
  - now intros -> ->.
Qed.

(** Every shell environment that [initializeRuntime] returns holds the
    statuses the two detectors returned and the recommendation derived
    from them. *)
Lemma returned_shell_is_resolved I o w s w' sh :
  initializeRuntime I o w = (Returned s, w') ->
  RuntimeStatus.shell s = Some sh ->
  detectGitBash I = Returned (ShellEnvironmentStatus.gitBash sh)
  /\ detectWsl I = Returned (ShellEnvironmentStatus.wsl sh)
  /\ ShellEnvironmentStatus.recommended sh
     = recommend (ShellEnvironmentStatus.gitBash sh)
                 (ShellEnvironmentStatus.wsl sh).
Proof.
  intros H Hsh. apply initializeRuntime_returned in H
    as (n & b & g & _ & _ & _ & ->).
  cbn [builtStatus RuntimeStatus.shell] in Hsh. unfold shellOf in Hsh.
  destruct (shellDetectionRuns I o); [|discriminate].
  destruct (detectGitBash I) as [gb|]; [|discriminate].
  destruct (detectWsl I) as [ws|]; [|discriminate].
  injection Hsh as <-. cbn. repeat split.
Qed.

(** The recommendations on the sample hosts: [git-bash] with both
    environments and with Git Bash alone, [wsl] with WSL alone (here WSL
    1), null with neither; and [wsl] on the machine whose Git Bash
    cannot be run and whose [wsl.exe] prints the documented listing. *)
Example recommendations_on_sample_hosts :
  option_map RuntimeStatus.shell
    (returned (initializeRuntime windowsHost RuntimeInitOptions.empty
                 initialWorld))
  = Some (Some (ShellEnvironmentStatus.mk gitBashFound wslFound
                  (Some ShellEnvironmentStatus.git_bash)))
  /\ option_map RuntimeStatus.shell
       (returned (initializeRuntime gitBashOnlyHost RuntimeInitOptions.empty
                    initialWorld))
     = Some (Some (ShellEnvironmentStatus.mk gitBashFound wslMissing
                     (Some ShellEnvironmentStatus.git_bash)))
  /\ option_map RuntimeStatus.shell
       (returned (initializeRuntime wslOnlyHost RuntimeInitOptions.empty
                    initialWorld))
     = Some (Some (ShellEnvironmentStatus.mk gitBashMissing wslOne
                     (Some ShellEnvironmentStatus.wsl_shell)))
  /\ option_map RuntimeStatus.shell
       (returned (initializeRuntime noShellHost RuntimeInitOptions.empty
                    initialWorld))
     = Some (Some (ShellEnvironmentStatus.mk gitBashMissing wslMissing None))
  /\ option_map
       (fun s => option_map ShellEnvironmentStatus.recommended
                   (RuntimeStatus.shell s))
       (returned (initializeRuntime (SpecDetectors.program brokenMachine)
                    RuntimeInitOptions.empty initialWorld))
     = Some (Some (Some ShellEnvironmentStatus.wsl_shell)).
Proof. vm_compute. repeat split. Qed.

(** C5: for every pair of statuses that the Git Bash and the WSL
    detectors return, a run of [initializeRuntime] on [win32] that does
    not skip shell detection, and whose Node.js, Bun and Git steps
    return, returns and caches a status whose shell environment holds
    this very pair together with the derived recommendation:
    [git-bash] when Git Bash is available (whatever WSL is), [wsl] when
    Git Bash is not available and WSL is (whatever its version), and
    null when neither is available.  Conversely, in every status that
    any run returns with a shell environment, the two statuses are the
    ones the detectors returned and the recommendation follows the same
    priority. *)
Theorem recommendation_follows_priority I o w n b g gitBashStatus wslStatus :
  platform I = js "win32" ->
  RuntimeInitOptions.truthy (RuntimeInitOptions.skipShellDetection o)
  = false ->
  detectGitBash I = Returned gitBashStatus ->
  detectWsl I = Returned wslStatus ->
  nodeStep I o = Returned n -> bunStep I o = Returned b ->
  gitStep I o = Returned g ->
  (exists s w' recommended,
      initializeRuntime I o w = (Returned s, w')
      /\ getRuntimeStatus w' = Some s
      /\ RuntimeStatus.shell s
         = Some (ShellEnvironmentStatus.mk gitBashStatus wslStatus
                   recommended)
      /\ (GitBashStatus.available gitBashStatus = true ->
          recommended = Some ShellEnvironmentStatus.git_bash)
      /\ (GitBashStatus.available gitBashStatus = false ->
          WslStatus.available wslStatus = true ->
          recommended = Some ShellEnvironmentStatus.wsl_shell)
      /\ (GitBashStatus.available gitBashStatus = false ->
          WslStatus.available wslStatus = false ->
          recommended = None))
  /\ (forall I0 o0 w0 s w' sh,
      initializeRuntime I0 o0 w0 = (Returned s, w') ->
      RuntimeStatus.shell s = Some sh ->
      let gitBashStatus0 := ShellEnvironmentStatus.gitBash sh in
      let wslStatus0 := ShellEnvironmentStatus.wsl sh in
      detectGitBash I0 = Returned gitBashStatus0
      /\ detectWsl I0 = Returned wslStatus0
      /\ (GitBashStatus.available gitBashStatus0 = true ->
          ShellEnvironmentStatus.recommended sh
          = Some ShellEnvironmentStatus.git_bash)
      /\ (GitBashStatus.available gitBashStatus0 = false ->
          WslStatus.available wslStatus0 = true ->
          ShellEnvironmentStatus.recommended sh
          = Some ShellEnvironmentStatus.wsl_shell)
      /\ (GitBashStatus.available gitBashStatus0 = false ->
          WslStatus.available wslStatus0 = false ->
          ShellEnvironmentStatus.recommended sh = None)).
Proof.
  intros Hp Hskip Hgb Hws Hn Hb Hg. split.
  - destruct (initializeRuntime_returns I o w Hn Hb Hg)
      as (w' & Hrun & Hcache).
    destruct (@every_pair_is_resolved I o w n b g gitBashStatus wslStatus
                Hp Hskip Hgb Hws Hn Hb Hg) as (s & w1 & Hrun1 & Hshell).
    rewrite Hrun in Hrun1. injection Hrun1 as <- <-.
    exists (builtStatus I o w n b g), w',
      (recommend gitBashStatus wslStatus).
    split; [exact Hrun|]. split; [exact Hcache|]. split; [exact Hshell|].
    apply recommend_cases.
  - intros I0 o0 w0 s w' sh H Hsh.
    destruct (returned_shell_is_resolved _ _ _ H Hsh) as (H1 & H2 & H3).
    cbn zeta. split; [exact H1|]. split; [exact H2|].
    rewrite H3. apply recommend_cases.
Qed.

Lemma recommendation_witness :
  exists s w' recommended,
    initializeRuntime wslOnlyHost RuntimeInitOptions.empty initialWorld
    = (Returned s, w')
    /\ getRuntimeStatus w' = Some s
    /\ RuntimeStatus.shell s
       = Some (ShellEnvironmentStatus.mk gitBashMissing wslOne recommended)
    /\ recommended = Some ShellEnvironmentStatus.wsl_shell.
Proof.
  refine ((fun H =>
             match H with
             | ex_intro _ s (ex_intro _ w' (ex_intro _ r
                 (conj H1 (conj H2 (conj H3 (conj _ (conj H5 _))))))) =>
                 ex_intro _ s (ex_intro _ w' (ex_intro _ r
                   (conj H1 (conj H2 (conj H3
                      (H5 eq_refl eq_refl))))))
             end)
            (proj1 (@recommendation_follows_priority
                      wslOnlyHost RuntimeInitOptions.empty initialWorld
                      nodeFound bunFound gitFound gitBashMissing wslOne
                      _ _ _ _ _ _ _)));
    reflexivity.
Defined.

(** The calls a run makes, whatever its outcome. *)
Lemma initializeRuntime_calls I o w r w' :
  initializeRuntime I o w = (r, w') ->
  exists rest,
    calls w' = calls w ++ CallDateNow :: envCalls o ++ nodeCalls o ++ rest
    /\ (rest = []
        \/ rest = bunCalls o
        \/ rest = bunCalls o ++ gitCalls o
        \/ rest = bunCalls o ++ gitCalls o ++ shellCalls I o
                           ++ [CallDateNow; CallDateNow]).
Proof.
  rewrite initializeRuntime_run.
  destruct (nodeStep I o);
    [destruct (bunStep I o); [destruct (gitStep I o)|]|];
    intros [= _ <-]; cbn [calls addCalls].
  - exists (bunCalls o ++ gitCalls o ++ shellCalls I o
                     ++ [CallDateNow; CallDateNow]). auto.
  - exists (bunCalls o ++ gitCalls o). auto.
  - exists (bunCalls o). auto.
  - exists []. rewrite app_nil_r. auto.
Qed.

Lemma shellCalls_cases I o :
  shellCalls I o = [] \/ shellCalls I o = [CallDetectGitBash]
  \/ shellCalls I o = [CallDetectGitBash; CallDetectWsl].
Proof.
  unfold shellCalls. destruct (shellDetectionRuns I o); [|now left].
  destruct (detectGitBash I); auto.
Qed.

(** C6: with [skipGitDetection = true], every status that
    [initializeRuntime] returns has the Git status [available = false],
    null [version] and [path] and the error text of the skip; whatever
    the outcome of the run, the Git detector is not called during it;
    and when the Node.js and Bun steps give a status the run does
    return one, with that Git status in it and in the cache. *)
Theorem skipped_git_detection I o w :
  RuntimeInitOptions.truthy (RuntimeInitOptions.skipGitDetection o) = true ->
  (forall s w', initializeRuntime I o w = (Returned s, w') ->
      RuntimeStatus.git s
      = GitRuntimeStatus.mk false None None (Some (js "已跳过 Git 检测")))
  /\ (forall r w', initializeRuntime I o w = (r, w') ->
      exists made, calls w' = calls w ++ made
                   /\ ~ In CallDetectGitRuntime made)
  /\ (forall n b, nodeStep I o = Returned n -> bunStep I o = Returned b ->
      exists s w', initializeRuntime I o w = (Returned s, w')
                   /\ getRuntimeStatus w' = Some s
                   /\ RuntimeStatus.git s
                      = GitRuntimeStatus.mk false None None
                          (Some (js "已跳过 Git 检测"))).
Proof.
  intros Hskip.
  assert (Hg : gitStep I o = Returned skippedGit)
    by (unfold gitStep; now rewrite Hskip).
  assert (Hc : gitCalls o = []) by (unfold gitCalls; now rewrite Hskip).
  split; [|split].
  - intros s w' H. apply initializeRuntime_returned in H
      as (n & b & g & _ & _ & Hg' & ->).
    rewrite Hg in Hg'. injection Hg' as <-. reflexivity.
  - intros r w' H. apply initializeRuntime_calls in H as (rest & -> & Hrest).
    eexists. split; [reflexivity|].
    assert (He : ~ In CallDetectGitRuntime (envCalls o))
      by (unfold envCalls; destruct (negb _); simpl; intuition congruence).
    assert (Hn : ~ In CallDetectGitRuntime (nodeCalls o))
      by (unfold nodeCalls;
          destruct (RuntimeInitOptions.truthy
                      (RuntimeInitOptions.skipNodeDetection o)); simpl;
          intuition congruence).
    assert (Hb : ~ In CallDetectGitRuntime (bunCalls o))
      by (unfold bunCalls;
          destruct (RuntimeInitOptions.truthy
                      (RuntimeInitOptions.skipBunDetection o)); simpl;
          intuition congruence).
    assert (Hs : ~ In CallDetectGitRuntime (shellCalls I o))
      by (destruct (shellCalls_cases I o) as [-> | [-> | ->]]; simpl;
          intuition congruence).
    rewrite Hc in Hrest. intros [Hin | Hin]; [discriminate|].
    rewrite !in_app_iff in Hin.
    destruct Hin as [Hin | [Hin | Hin]]; [tauto | tauto |].
    destruct Hrest as [-> | [-> | [-> | ->]]];
      rewrite ?in_app_iff in Hin; simpl in Hin; intuition congruence.
  - intros n b Hn Hb.
    destruct (initializeRuntime_returns I o w Hn Hb Hg) as (w' & Hrun & Hcache).
    exists (builtStatus I o w n b skippedGit), w'. now repeat split.
Qed.

Lemma skipped_git_witness :
  exists s w',
    initializeRuntime windowsHost skipGit initialWorld = (Returned s, w')
    /\ getRuntimeStatus w' = Some s
    /\ RuntimeStatus.git s
       = GitRuntimeStatus.mk false None None (Some (js "已跳过 Git 检测")).
Proof.
  refine (proj2 (proj2 (skipped_git_detection windowsHost skipGit
                          initialWorld _)) nodeFound bunFound _ _);
    reflexivity.
Defined.

(** A detection step throws only when it is not skipped and its detector
    throws. *)
Lemma step_thrown {A} (skip : option bool) (skipped : A) (d : outcome A) e :
  (if RuntimeInitOptions.truthy skip then Returned skipped else d) = Thrown e ->
  RuntimeInitOptions.truthy skip = false /\ d = Thrown e.
Proof. destruct (RuntimeInitOptions.truthy skip); [discriminate | auto]. Qed.

(** The calls of the steps before shell detection contain no call of the
    Git Bash detector. *)
Lemma early_calls_before_shell o :
  ~ In CallDetectGitBash
      (CallDateNow :: envCalls o ++ nodeCalls o ++ bunCalls o ++ gitCalls o).
Proof.
  unfold envCalls, nodeCalls, bunCalls, gitCalls.
  destruct (negb _),
    (RuntimeInitOptions.truthy (RuntimeInitOptions.skipNodeDetection o)),
    (RuntimeInitOptions.truthy (RuntimeInitOptions.skipBunDetection o)),
    (RuntimeInitOptions.truthy (RuntimeInitOptions.skipGitDetection o));
    simpl; intuition congruence.
Qed.

(** C10: on [win32] without [skipShellDetection], when the Git Bash
    detector or the WSL detector throws, [shellEnvironmentStatus] stays
    undefined; every run that reaches shell detection (that calls the
    Git Bash detector) returns, and caches, a status without [shell]
    whose [node], [bun], [git], [envLoaded] and [initializedAt] are the
    results of the earlier steps and the time stamp, as in any other
    run; the run reaches shell detection, and so returns, as soon as the
    Node.js, Bun and Git steps have given their statuses; an exception
    that does leave [initializeRuntime] is the one of the Node.js, Bun
    or Git detector, never one of shell detection. *)
Theorem shell_detection_failure_is_contained I o w e :
  platform I = js "win32" ->
  RuntimeInitOptions.truthy (RuntimeInitOptions.skipShellDetection o)
  = false ->
  detectGitBash I = Thrown e \/ detectWsl I = Thrown e ->
  shellOf I o = None
  /\ (forall r w' made,
         initializeRuntime I o w = (r, w') ->
         calls w' = calls w ++ made -> In CallDetectGitBash made ->
         exists s,
           r = Returned s
           /\ RuntimeStatus.shell s = None
           /\ getRuntimeStatus w' = Some s
           /\ nodeStep I o = Returned (RuntimeStatus.node s)
           /\ bunStep I o = Returned (RuntimeStatus.bun s)
           /\ gitStep I o = Returned (RuntimeStatus.git s)
           /\ RuntimeStatus.envLoaded s = envLoadedOf I o
           /\ RuntimeStatus.initializedAt s = dateNow I (S (asked w)))
  /\ (forall n b g,
         nodeStep I o = Returned n -> bunStep I o = Returned b ->
         gitStep I o = Returned g ->
         exists w',
           initializeRuntime I o w
           = (Returned (RuntimeStatus.mk n b g None (envLoadedOf I o)
                          (dateNow I (S (asked w)))), w')
           /\ getRuntimeStatus w'
              = Some (RuntimeStatus.mk n b g None (envLoadedOf I o)
                        (dateNow I (S (asked w))))
           /\ isRuntimeInitialized w' = true)
  /\ (forall e' w', initializeRuntime I o w = (Thrown e', w') ->
         (RuntimeInitOptions.truthy (RuntimeInitOptions.skipNodeDetection o)
          = false /\ detectNodeRuntime I = Thrown e')
         \/ (RuntimeInitOptions.truthy
               (RuntimeInitOptions.skipBunDetection o) = false
             /\ detectBunRuntime I = Thrown e')
         \/ (RuntimeInitOptions.truthy
               (RuntimeInitOptions.skipGitDetection o) = false
             /\ detectGitRuntime I = Thrown e')).
Proof.
  intros Hp Hskip Hthrow.
  assert (Hshell : shellOf I o = None).
  { unfold shellOf. destruct (shellDetectionRuns I o); [|reflexivity].
    destruct Hthrow as [-> | ->]; [reflexivity|].
    now destruct (detectGitBash I). }
  split; [exact Hshell | split; [|split]].
  - intros r w' made Hrun Hcalls Hin. rewrite initializeRuntime_run in Hrun.
    pose proof (early_calls_before_shell o) as Hearly.
    destruct (nodeStep I o) as [n|];
      [destruct (bunStep I o) as [b|]; [destruct (gitStep I o) as [g|]|]|];
      injection Hrun as <- <-; cbn [calls addCalls] in Hcalls;
      apply app_inv_head in Hcalls; subst made.
    + exists (builtStatus I o w n b g). unfold builtStatus.
      rewrite Hshell. repeat split.
    + exfalso. apply Hearly. simpl in Hin |- *.
      rewrite ?in_app_iff in Hin. rewrite ?in_app_iff. clear - Hin. tauto.
    + exfalso. apply Hearly. simpl in Hin |- *.
      rewrite ?in_app_iff in Hin. rewrite ?in_app_iff. clear - Hin. tauto.
    + exfalso. apply Hearly. simpl in Hin |- *.
      rewrite ?in_app_iff in Hin. rewrite ?in_app_iff. clear - Hin. tauto.
  - intros n b g Hn Hb Hg.
    destruct (initializeRuntime_returns I o w Hn Hb Hg) as (w' & Hrun & Hc).
    unfold builtStatus in Hrun, Hc. rewrite Hshell in Hrun, Hc.
    exists w'. repeat split; try assumption.
    rewrite initializeRuntime_run, Hn, Hb, Hg in Hrun.
    now injection Hrun as _ <-.
  - intros e' w'. rewrite initializeRuntime_run.
    destruct (nodeStep I o) eqn:Hn; [|intros [= -> _]].
    + destruct (bunStep I o) eqn:Hb; [|intros [= -> _]].
      * destruct (gitStep I o) eqn:Hg; [discriminate | intros [= -> _]].
        right. right. exact (step_thrown _ _ _ Hg).
      * right. left. exact (step_thrown _ _ _ Hb).
    + left. exact (step_thrown _ _ _ Hn).
Qed.

Lemma shell_detection_failure_witness :
  exists w',
    initializeRuntime gitBashThrows RuntimeInitOptions.empty initialWorld
    = (Returned (RuntimeStatus.mk nodeFound bunFound gitFound None
                   (envLoadedOf gitBashThrows RuntimeInitOptions.empty)
                   (dateNow gitBashThrows (S (asked initialWorld)))), w')
    /\ getRuntimeStatus w'
       = Some (RuntimeStatus.mk nodeFound bunFound gitFound None
                 (envLoadedOf gitBashThrows RuntimeInitOptions.empty)
                 (dateNow gitBashThrows (S (asked initialWorld))))
    /\ isRuntimeInitialized w' = true.
Proof.
  refine (proj1 (proj2 (proj2
            (shell_detection_failure_is_contained
               gitBashThrows RuntimeInitOptions.empty initialWorld
               (e := ErrorObject (js "spawn bash ENOENT")) _ _ _)))
            nodeFound bunFound gitFound _ _ _);
    try reflexivity.
  left. reflexivity.
Defined.

End CoordinatorProperties.

(* ================================================================== *)
(** * The availability invariant *)
(* ================================================================== *)

Module StatusProperties.
Import JS WslDetector.

(** Every status [detectWsl] returns is either one of its
    unavailable statuses or has [available = true]. *)
Lemma detectWsl_status h s :
  detectWsl h = Returned s ->
  (exists msg, s = unavailable msg) \/ WslStatus.available s = true.
Proof.
  unfold detectWsl. intros Hs.
  destruct (negb _); [injection Hs as <-; left; eauto|].
  destruct (execSync h _) as [output|e]; injection Hs as <-.
  - unfold onExecOutput. destruct (_ =? 0)%nat; [left; eauto | now right].
  - unfold onExecError. destruct (_ && _); left; eauto.
Qed.

(** The statuses [detectWsl] returns obey the invariant. *)
Lemma detectWsl_blank h s :
  detectWsl h = Returned s ->
  AnyStatus.blankWhenUnavailable (AnyStatus.OfWsl s).
Proof.
  intros Hs. unfold AnyStatus.blankWhenUnavailable.
  destruct (detectWsl_status h Hs) as [(msg & ->) | Ha].
  - intros _. repeat split. discriminate.
  - cbn [AnyStatus.available]. congruence.
Qed.

(** A status of [SpecDetectors.detect] is either unavailable, with its
    error, or available. *)
Lemma detect_status t :
  (exists msg, SpecDetectors.detect t = SpecDetectors.unavailable msg)
  \/ SpecDetectors.available (SpecDetectors.detect t) = true.
Proof.
  unfold SpecDetectors.detect.
  destruct (SpecDetectors.found t) as [p|]; [|left; eauto].
  destruct (SpecDetectors.run t p) as [r|e]; [now right | left; eauto].
Qed.

Lemma detectNodeRuntime_blank t :
  AnyStatus.blankWhenUnavailable
    (AnyStatus.OfNode (SpecDetectors.detectNodeRuntime t)).
Proof.
  unfold AnyStatus.blankWhenUnavailable, SpecDetectors.detectNodeRuntime.
  cbn. destruct (detect_status t) as [(msg & ->) | Ha].
  - intros _. repeat split. discriminate.
  - congruence.
Qed.

Lemma detectGitRuntime_blank t :
  AnyStatus.blankWhenUnavailable
    (AnyStatus.OfGit (SpecDetectors.detectGitRuntime t)).
Proof.
  unfold AnyStatus.blankWhenUnavailable, SpecDetectors.detectGitRuntime.
  cbn. destruct (detect_status t) as [(msg & ->) | Ha].
  - intros _. repeat split. discriminate.
  - congruence.
Qed.

Lemma detectGitBash_blank t :
  AnyStatus.blankWhenUnavailable
    (AnyStatus.OfGitBash (SpecDetectors.detectGitBash t)).
Proof.
  unfold AnyStatus.blankWhenUnavailable, SpecDetectors.detectGitBash.
  cbn. destruct (detect_status t) as [(msg & ->) | Ha].
  - intros _. repeat split. discriminate.
  - congruence.
Qed.

Lemma detectBunRuntime_blank b :
  AnyStatus.blankWhenUnavailable
    (AnyStatus.OfBun (SpecDetectors.detectBunRuntime b)).
Proof.
  unfold AnyStatus.blankWhenUnavailable, SpecDetectors.detectBunRuntime.
  destruct (SpecDetectors.attempt (SpecDetectors.systemPath b));
    [discriminate|].
  destruct (SpecDetectors.attempt (SpecDetectors.bundledBinary b));
    [discriminate|].
  destruct (SpecDetectors.attempt (SpecDetectors.vendorDirectory b));
    [discriminate|].
  intros _. repeat split. discriminate.
Qed.

Lemma skippedNode_blank :
  AnyStatus.blankWhenUnavailable (AnyStatus.OfNode Coordinator.skippedNode).
Proof. intros _. repeat split. discriminate. Qed.

Lemma skippedBun_blank :
  AnyStatus.blankWhenUnavailable (AnyStatus.OfBun Coordinator.skippedBun).
Proof. intros _. repeat split. discriminate. Qed.

Lemma skippedGit_blank :
  AnyStatus.blankWhenUnavailable (AnyStatus.OfGit Coordinator.skippedGit).
Proof. intros _. repeat split. discriminate. Qed.

(** The coordinator keeps the invariant: in the linked program, when the
    statuses the imported detectors return obey it, so does every status
    of the aggregate that [initializeRuntime] returns. *)
Lemma aggregate_statuses_blank I execSync o w s w' :
  (forall n, Coordinator.detectNodeRuntime I = Returned n ->
             AnyStatus.blankWhenUnavailable (AnyStatus.OfNode n)) ->
  (forall b, Coordinator.detectBunRuntime I = Returned b ->
             AnyStatus.blankWhenUnavailable (AnyStatus.OfBun b)) ->
  (forall g, Coordinator.detectGitRuntime I = Returned g ->
             AnyStatus.blankWhenUnavailable (AnyStatus.OfGit g)) ->
  (forall gb, Coordinator.detectGitBash I = Returned gb ->
              AnyStatus.blankWhenUnavailable (AnyStatus.OfGitBash gb)) ->
  Coordinator.initializeRuntime (Coordinator.linked I execSync) o w
  = (Returned s, w') ->
  AnyStatus.blankWhenUnavailable (AnyStatus.OfNode (RuntimeStatus.node s))
  /\ AnyStatus.blankWhenUnavailable (AnyStatus.OfBun (RuntimeStatus.bun s))
  /\ AnyStatus.blankWhenUnavailable (AnyStatus.OfGit (RuntimeStatus.git s))
  /\ (forall sh, RuntimeStatus.shell s = Some sh ->
      AnyStatus.blankWhenUnavailable
        (AnyStatus.OfGitBash (ShellEnvironmentStatus.gitBash sh))
      /\ AnyStatus.blankWhenUnavailable
           (AnyStatus.OfWsl (ShellEnvironmentStatus.wsl sh))).
Proof.
  intros HN HB HG HGB H.
  apply CoordinatorProperties.initializeRuntime_returned in H
    as (n & b & g & Hn & Hb & Hg & ->).
  cbn [Coordinator.builtStatus RuntimeStatus.node RuntimeStatus.bun
         RuntimeStatus.git RuntimeStatus.shell].
  unfold Coordinator.nodeStep, Coordinator.bunStep, Coordinator.gitStep
    in Hn, Hb, Hg.
  cbn [Coordinator.linked Coordinator.detectNodeRuntime
         Coordinator.detectBunRuntime Coordinator.detectGitRuntime]
    in Hn, Hb, Hg.
  split; [|split; [|split; [|intros sh H; split]]].
  - destruct (RuntimeInitOptions.truthy _) in Hn.
    + injection Hn as <-. exact skippedNode_blank.
    + now apply HN.
  - destruct (RuntimeInitOptions.truthy _) in Hb.
    + injection Hb as <-. exact skippedBun_blank.
    + now apply HB.
  - destruct (RuntimeInitOptions.truthy _) in Hg.
    + injection Hg as <-. exact skippedGit_blank.
    + now apply HG.
  - unfold Coordinator.shellOf in H.
    destruct (Coordinator.shellDetectionRuns _ o); [|discriminate].
    cbn [Coordinator.linked Coordinator.detectGitBash] in H.
    destruct (Coordinator.detectGitBash I) as [gb|] eqn:Hgb; [|discriminate].
    destruct (Coordinator.detectWsl _); [|discriminate].
    injection H as <-. now apply HGB.
  - unfold Coordinator.shellOf in H.
    destruct (Coordinator.shellDetectionRuns _ o); [|discriminate].
    cbn [Coordinator.linked Coordinator.detectGitBash Coordinator.detectWsl]
      in H.
    destruct (Coordinator.detectGitBash I) as [gb|]; [|discriminate].
    destruct (detectWsl _) as [ws|] eqn:Hws; [|discriminate].
    injection H as <-. exact (detectWsl_blank _ Hws).
Qed.

(** The WSL status of an aggregate is the one [detectWsl] returned on
    the machine. *)
Lemma stored_wsl m o w s w' sh :
  Coordinator.initializeRuntime (SpecDetectors.program m) o w
  = (Returned s, w') ->
  RuntimeStatus.shell s = Some sh ->
  detectWsl (mkHost (SpecDetectors.platform m) (SpecDetectors.execSync m))
  = Returned (ShellEnvironmentStatus.wsl sh).
Proof.
  intros H Hsh.
  apply CoordinatorProperties.initializeRuntime_returned in H
    as (n & b & g & _ & _ & _ & ->).
  cbn [Coordinator.builtStatus RuntimeStatus.shell] in Hsh.
  unfold Coordinator.shellOf in Hsh.
  destruct (Coordinator.shellDetectionRuns _ o); [|discriminate].
  cbn [SpecDetectors.program Coordinator.detectGitBash Coordinator.detectWsl]
    in Hsh.
  destruct (detectWsl _) as [ws|]; [|discriminate].
  now injection Hsh as <-.
Qed.

(** Every status of an aggregate built on a machine obeys the
    invariant. *)
Lemma stored_blank m o w s w' x :
  Coordinator.initializeRuntime (SpecDetectors.program m) o w
  = (Returned s, w') ->
  In x (AnyStatus.statusesOf s) ->
  AnyStatus.blankWhenUnavailable x.
Proof.
  intros H Hin.
  change (SpecDetectors.program m)
    with (Coordinator.linked
            (Coordinator.mkImports
               (SpecDetectors.platform m) (SpecDetectors.dateNow m)
               (SpecDetectors.loadShellEnv m)
               (Returned (SpecDetectors.detectNodeRuntime
                            (SpecDetectors.node m)))
               (Returned (SpecDetectors.detectBunRuntime
                            (SpecDetectors.bun m)))
               (Returned (SpecDetectors.detectGitRuntime
                            (SpecDetectors.git m)))
               (Returned (SpecDetectors.detectGitBash
                            (SpecDetectors.gitBash m)))
               (Thrown (OtherValue [])))
            (SpecDetectors.execSync m)) in H.
  apply aggregate_statuses_blank in H.
  - destruct H as (Hn & Hb & Hg & Hsh).
    unfold AnyStatus.statusesOf in Hin. apply in_app_or in Hin.
    destruct Hin as [[<- | [<- | [<- | []]]] | Hin]; try assumption.
    destruct (RuntimeStatus.shell s) as [sh|]; [|destruct Hin].
    destruct (Hsh sh eq_refl) as (Hgb & Hws).
    destruct Hin as [<- | [<- | []]]; assumption.
  - cbn. intros n [= <-]. apply detectNodeRuntime_blank.
  - cbn. intros b [= <-]. apply detectBunRuntime_blank.
  - cbn. intros g [= <-]. apply detectGitRuntime_blank.
  - cbn. intros gb [= <-]. apply detectGitBash_blank.
Qed.

Lemma produced_blank x :
  AnyStatus.produced x -> AnyStatus.blankWhenUnavailable x.
Proof.
  intros [ | | | h s Hs | t | b | t | t | m o w w' s y H Hin].
  - exact skippedNode_blank.
  - exact skippedBun_blank.
  - exact skippedGit_blank.
  - exact (detectWsl_blank h Hs).
  - apply detectNodeRuntime_blank.
  - apply detectBunRuntime_blank.
  - apply detectGitRuntime_blank.
  - apply detectGitBash_blank.
  - exact (stored_blank _ _ _ H Hin).
Qed.

(** A WSL status that is produced was returned by [detectWsl]. *)
Lemma produced_wsl x :
  AnyStatus.produced x ->
  forall s, x = AnyStatus.OfWsl s -> exists h, detectWsl h = Returned s.
Proof.
  intros [ | | | h s Hs | t | b | t | t | m o w w' s y H Hin] s0 E;
    try discriminate.
  - injection E as <-. eauto.
  - subst y. unfold AnyStatus.statusesOf in Hin. apply in_app_or in Hin.
    destruct Hin as [[E | [E | [E | []]]] | Hin]; try discriminate.
    destruct (RuntimeStatus.shell s) as [sh|] eqn:Hsh; [|destruct Hin].
    destruct Hin as [E | [E | []]]; [discriminate|].
    injection E as <-. eexists. exact (stored_wsl _ _ _ H Hsh).
Qed.

(** The detectors of [SpecDetectors] do report tools that are not
    available: one that is absent, one whose probe fails, and a Bun
    runtime that none of the three strategies finds. *)
Example unavailable_tools :
  SpecDetectors.detectNodeRuntime Scenarios.absentTool
  = NodeRuntimeStatus.mk false None None (Some (js "node: not found"))
  /\ SpecDetectors.detectGitBash Scenarios.brokenTool
     = GitBashStatus.mk false None None (Some (js "spawn EACCES"))
  /\ SpecDetectors.detectGitRuntime Scenarios.unversionedTool
     = GitRuntimeStatus.mk true None (Some (js "/usr/bin/git")) None
  /\ SpecDetectors.detectBunRuntime Scenarios.noBun
     = BunRuntimeStatus.mk false None None None
         (Some (js "bun: tried system, bundled, vendor"))
  /\ SpecDetectors.detectBunRuntime Scenarios.bundledBun
     = BunRuntimeStatus.mk true (Some (js "resources/bun"))
         (Some (js "1.1.20")) (Some BunRuntimeStatus.bundled) None.
Proof. vm_compute. repeat split. Qed.

(** C4: for every status produced by a detector or by a skip
    substitution (the skip substitutions of [initializeRuntime] for
    Node.js, Bun and Git, the results of [detectWsl], the results of the
    Node.js, Bun, Git and Git Bash detectors as the specification
    describes them, and every status [initializeRuntime] stores in the
    aggregate it returns), [available = false] implies that [error] is
    not null and that [path], [version] and, for the Bun status,
    [source] are null; an unavailable WSL status has, besides, no default
    distribution and no distributions. *)
Theorem unavailable_status_is_blank (x : AnyStatus.t) :
  AnyStatus.produced x ->
  AnyStatus.available x = false ->
  AnyStatus.error x <> None
  /\ AnyStatus.path x = None
  /\ AnyStatus.versionIsNull x = true
  /\ AnyStatus.source x = None
  /\ (forall s, x = AnyStatus.OfWsl s ->
      WslStatus.defaultDistro s = None /\ WslStatus.distros s = []).
Proof.
  intros Hx Ha.
  destruct (produced_blank Hx Ha) as (He & Hp & Hv & Hs).
  do 4 (split; [assumption|]).
  intros s E. destruct (produced_wsl Hx E) as (h & Hd). subst x.
  destruct (detectWsl_status h Hd) as [(msg & ->) | Hav].
  - now split.
  - cbn [AnyStatus.available] in Ha. congruence.
Qed.

Lemma unavailable_status_witness :
  AnyStatus.error
    (AnyStatus.OfGitBash (SpecDetectors.detectGitBash Scenarios.brokenTool))
  <> None
  /\ AnyStatus.path
       (AnyStatus.OfGitBash (SpecDetectors.detectGitBash Scenarios.brokenTool))
     = None.
Proof.
  refine ((fun H => conj (proj1 H) (proj1 (proj2 H)))
            (unavailable_status_is_blank
               (AnyStatus.DetectedGitBash Scenarios.brokenTool) _)).
  vm_compute; reflexivity.
Defined.

End StatusProperties.

(* ================================================================== *)
(** * Further properties of the WSL detector *)
(* ================================================================== *)

Module WslExtras.
Import JS JSFacts WslDetector WslListing WslFacts WslRender.

(** ** Listings put one after the other *)

Lemma lastOf_app {A} (l1 l2 : list A) :
  lastOf (l1 ++ l2) = orElse (lastOf l2) (lastOf l1).
Proof.
  induction l2 as [|x l2 _] using rev_ind.
  - now rewrite app_nil_r.
  - now rewrite app_assoc, !lastOf_app_one.
Qed.

Lemma parsedOf_app a b :
  parsedOf (a ++ b)
  = mkParsed (orElse (version (parsedOf b)) (version (parsedOf a)))
             (orElse (defaultDistro (parsedOf b)) (defaultDistro (parsedOf a)))
             (distros (parsedOf a) ++ distros (parsedOf b)).
Proof.
  unfold parsedOf. cbn [version defaultDistro distros].
  now rewrite !filter_app, flat_map_app, !map_app, !lastOf_app.
Qed.

(** X1: a listing followed, after a line feed, by a second listing parses
    to the names of the first followed by the names of the second; the
    default distribution and the version are those of the second listing
    where it has them and those of the first otherwise. *)
Theorem parse_of_concatenation (first second : str) :
  parseWslListOutput (first ++ 10%N :: second)
  = mkParsed
      (orElse (version (parseWslListOutput second))
              (version (parseWslListOutput first)))
      (orElse (defaultDistro (parseWslListOutput second))
              (defaultDistro (parseWslListOutput first)))
      (distros (parseWslListOutput first)
               ++ distros (parseWslListOutput second)).
Proof. now rewrite !parse_parsedOf, dataLines_app, parsedOf_app. Qed.

(** ** Blanks around lines *)

Lemma dropWhile_app_all f (a b : str) :
  forallb f a = true -> dropWhile f (a ++ b) = dropWhile f b.
Proof.
  induction a as [|c a IH]; simpl; [reflexivity|].
  rewrite andb_true_iff. intros (-> & Ha). auto.
Qed.

Lemma trim_pad_left pre s : isBlank pre = true -> trim (pre ++ s) = trim s.
Proof.
  intros H. unfold trim, trimStart. now rewrite (dropWhile_app_all _ _ s H).
Qed.

Lemma trimStart_app s t :
  trimStart (s ++ t)
  = if forallb isWhiteSpace s then trimStart t else trimStart s ++ t.
Proof.
  unfold trimStart. induction s as [|c s IH]; simpl; [reflexivity|].
  destruct (isWhiteSpace c); [exact IH | reflexivity].
Qed.

Lemma trimEnd_snoc s c : isWhiteSpace c = true -> trimEnd (s ++ [c]) = trimEnd s.
Proof.
  intros H. unfold trimEnd. rewrite rev_app_distr. simpl. now rewrite H.
Qed.

Lemma trim_snoc s c : isWhiteSpace c = true -> trim (s ++ [c]) = trim s.
Proof.
  intros H. unfold trim. rewrite trimStart_app.
  destruct (forallb isWhiteSpace s) eqn:E.
  - unfold trimStart at 2. rewrite (dropWhile_all _ _ E).
    unfold trimStart. simpl. now rewrite H.
  - now apply trimEnd_snoc.
Qed.

Lemma trim_pad_right post : forall s,
  isBlank post = true -> trim (s ++ post) = trim s.
Proof.
  induction post as [|c post IH]; intros s; [now rewrite app_nil_r|].
  unfold isBlank. simpl. rewrite andb_true_iff. intros (Hc & Hp).
  change (s ++ c :: post) with (s ++ [c] ++ post).
  rewrite app_assoc, (IH _ Hp). now apply trim_snoc.
Qed.

Lemma isBlank_snoc cur c :
  isBlank cur = true -> isWhiteSpace c = true -> isBlank (cur ++ [c]) = true.
Proof. unfold isBlank. intros H Hc. rewrite forallb_app. simpl. now rewrite H, Hc. Qed.

(** The non-empty trimmed lines of [s], the first one begun by [cur]. *)
Lemma splitOn_cur sep s : forall cur,
  splitOn sep cur s
  = (cur ++ hd [] (splitOn sep [] s)) :: tl (splitOn sep [] s).
Proof.
  induction s as [|c s IH]; intros cur; simpl.
  - now rewrite app_nil_r.
  - destruct (c =? sep)%N; simpl.
    + now rewrite app_nil_r.
    + rewrite (IH (cur ++ [c])), (IH [c]). simpl. now rewrite <- app_assoc.
Qed.

Lemma lines_from_blank cur s :
  isBlank cur = true ->
  filter truthy (map trim (splitOn 10%N cur s)) = lines s.
Proof.
  intros H. unfold lines, split. rewrite (splitOn_cur 10%N s cur).
  destruct (splitOn 10%N [] s) as [|x r]; simpl.
  - rewrite app_nil_r. now rewrite (trim_blank _ H).
  - now rewrite (trim_pad_left _ _ H).
Qed.

Lemma lines_pad_left pre s : forall cur,
  isBlank cur = true -> isBlank pre = true ->
  filter truthy (map trim (splitOn 10%N cur (pre ++ s))) = lines s.
Proof.
  induction pre as [|c pre IH]; intros cur Hcur Hpre.
  - now apply lines_from_blank.
  - unfold isBlank in Hpre. simpl in Hpre.
    apply andb_true_iff in Hpre as (Hc & Hpre). simpl.
    destruct (c =? 10)%N.
    + simpl. rewrite (trim_blank _ Hcur). simpl. now apply IH.
    + apply IH; [now apply isBlank_snoc | exact Hpre].
Qed.

Lemma lines_of_blank post : forall cur,
  isBlank post = true ->
  filter truthy (map trim (splitOn 10%N cur post)) = filter truthy [trim cur].
Proof.
  induction post as [|c post IH]; intros cur Hpost; [reflexivity|].
  unfold isBlank in Hpost. simpl in Hpost.
  apply andb_true_iff in Hpost as (Hc & Hpost). simpl.
  destruct (c =? 10)%N.
  - simpl. rewrite (IH [] Hpost). simpl. destruct (truthy (trim cur)); reflexivity.
  - rewrite (IH _ Hpost). simpl. now rewrite (trim_snoc _ _ Hc).
Qed.

Lemma lines_pad_right post s : forall cur,
  isBlank post = true ->
  filter truthy (map trim (splitOn 10%N cur (s ++ post)))
  = filter truthy (map trim (splitOn 10%N cur s)).
Proof.
  induction s as [|c s IH]; intros cur Hpost.
  - simpl app. now rewrite lines_of_blank.
  - simpl. destruct (c =? 10)%N; simpl; now rewrite IH.
Qed.

Lemma dataLines_padded pre s post :
  isBlank pre = true -> isBlank post = true ->
  dataLines (pre ++ s ++ post) = dataLines s.
Proof.
  intros Hpre Hpost. unfold dataLines. f_equal.
  unfold lines at 1, split. rewrite (lines_pad_left pre (s ++ post) [] eq_refl Hpre).
  unfold lines, split. now apply lines_pad_right.
Qed.

Lemma unlines_cons l ls : unlines (l :: ls) = l ++ 10%N :: unlines ls.
Proof. unfold unlines. simpl. now rewrite <- app_assoc. Qed.

(** X2: white space added before and after the lines of a listing (a
    carriage return before each line feed, indentation, blank lines)
    does not change what the listing parses to. *)
Theorem padding_is_ignored (ls : list (str * str * str)) :
  forallb blankPadding ls = true ->
  parseWslListOutput (unlines (map padded ls))
  = parseWslListOutput (unlines (map unpadded ls)).
Proof.
  intros H. unfold parseWslListOutput. f_equal.
  induction ls as [|[[pre l] post] ls IH]; [reflexivity|].
  simpl in H. apply andb_true_iff in H as (Hp & Hls).
  unfold blankPadding in Hp. simpl in Hp.
  apply andb_true_iff in Hp as (Hpre & Hpost).
  simpl map. rewrite !unlines_cons, !dataLines_app, (IH Hls).
  unfold padded, unpadded. simpl. now rewrite dataLines_padded.
Qed.

Lemma padding_is_ignored_witness :
  parseWslListOutput
    (unlines (map padded
                [ (js "  ", js "NAME STATE VERSION", [13%N]);
                  ([], js "* Ubuntu Running 2", [13%N]);
                  (js "  ", js "Debian Stopped 1", [13%N]) ]))
  = parseWslListOutput
      (unlines (map unpadded
                  [ (js "  ", js "NAME STATE VERSION", [13%N]);
                    ([], js "* Ubuntu Running 2", [13%N]);
                    (js "  ", js "Debian Stopped 1", [13%N]) ])).
Proof.
  refine (padding_is_ignored _ _). vm_compute; reflexivity.
Defined.

(** ** The status of an available WSL *)

Lemma noWhiteSpace_snoc cur c :
  noWhiteSpace cur = true -> isWhiteSpace c = false ->
  noWhiteSpace (cur ++ [c]) = true.
Proof.
  unfold noWhiteSpace. intros H Hc. rewrite forallb_app. simpl.
  now rewrite H, Hc.
Qed.

Lemma splitWs_noWhiteSpace s : forall cur inRun t,
  noWhiteSpace cur = true -> In t (splitWs cur inRun s) ->
  noWhiteSpace t = true.
Proof.
  induction s as [|c s IH]; intros cur inRun t Hcur; simpl.
  - now intros [<- | []].
  - destruct (isWhiteSpace c) eqn:Hc.
    + destruct inRun.
      * now apply IH.
      * intros [<- | H]; [exact Hcur | now apply (IH [] true)].
    + apply IH. now apply noWhiteSpace_snoc.
Qed.

Lemma rowName_In line : In (rowName line) (rowTokens line).
Proof.
  unfold rowName. pose proof (rowTokens_nonempty line).
  destruct (rowTokens line); [congruence | now left].
Qed.

Lemma rowName_noWhiteSpace line : noWhiteSpace (rowName line) = true.
Proof.
  apply (splitWs_noWhiteSpace (trim (replaceDefaultMarker line)) [] false);
    [reflexivity | apply rowName_In].
Qed.

Lemma lastOf_none {A} (l : list A) : lastOf l = None -> l = [].
Proof.
  induction l as [|x l _] using rev_ind; [reflexivity|].
  now rewrite lastOf_app_one.
Qed.

(** [detectWsl] reports WSL available exactly in its last [return]. *)
Lemma detectWsl_available h s :
  detectWsl h = Returned s -> WslStatus.available s = true ->
  platform h = js "win32"
  /\ exists output,
       execSync h (js "chcp 65001 > nul && wsl.exe --list --verbose")
       = Returned output
       /\ distros (parseWslListOutput output) <> []
       /\ s = WslStatus.mk true (version (parseWslListOutput output))
                (defaultDistro (parseWslListOutput output))
                (distros (parseWslListOutput output)) None.
Proof.
  unfold detectWsl.
  destruct (str_eqb (platform h) (js "win32")) eqn:Hp; simpl negb; cbv iota.
  - apply str_eqb_eq in Hp.
    destruct (execSync h _) as [output|e]; intros [= <-].
    + unfold onExecOutput.
      destruct (distros (parseWslListOutput output)) eqn:Hd; simpl;
        [discriminate|].
      intros _. split; [exact Hp|]. exists output.
      rewrite Hd. repeat split. discriminate.
    + unfold onExecError. now destruct (_ && _).
  - now intros [= <-].
Qed.

(** X3: a status in which [detectWsl] reports WSL available has no error
    and at least one distribution; every distribution name is a
    non-empty word without white space; the default distribution, when
    there is one, is among the distributions; and a version, when there
    is one, is 1 or 2 and comes with a default distribution. *)
Theorem available_status_is_coherent (h : host) (s : WslStatus.t) :
  detectWsl h = Returned s ->
  WslStatus.available s = true ->
  WslStatus.error s = None
  /\ WslStatus.distros s <> []
  /\ (forall d, In d (WslStatus.distros s) ->
      d <> [] /\ noWhiteSpace d = true)
  /\ (forall d, WslStatus.defaultDistro s = Some d ->
      In d (WslStatus.distros s))
  /\ (forall v, WslStatus.version s = Some v ->
      (v = Num 1 \/ v = Num 2) /\ WslStatus.defaultDistro s <> None).
Proof.
  intros Hs Ha.
  destruct (detectWsl_available h Hs Ha) as (_ & output & _ & Hne & ->).
  cbn [WslStatus.error WslStatus.distros WslStatus.defaultDistro
         WslStatus.version].
  split; [reflexivity|]. split; [exact Hne|].
  rewrite parse_parsedOf. unfold parsedOf.
  cbn [distros defaultDistro version].
  split; [|split].
  - intros d Hd. apply in_map_iff in Hd as (row & <- & Hrow).
    apply filter_In in Hrow as (_ & Hrec). unfold recorded in Hrec.
    apply Nat.leb_le in Hrec.
    pose proof (rowName_truthy row ltac:(lia)) as Ht.
    split; [|apply rowName_noWhiteSpace].
    destruct (rowName row); [discriminate | congruence].
  - intros d Hd. apply lastOf_In in Hd.
    apply in_map_iff in Hd as (row & <- & Hrow).
    apply filter_In in Hrow as (Hrow & _). now apply in_map.
  - intros v Hv. apply lastOf_In, in_flat_map in Hv as (row & Hrow & Hin).
    unfold suppliedVersion in Hin.
    destruct (isDefaultRow row) eqn:Hdef; [|destruct Hin]. split.
    + unfold markerVersion in Hin.
      destruct (str_eqb (rowMarker row) (js "1"));
        [destruct Hin as [<- | []]; now left|].
      destruct (str_eqb (rowMarker row) (js "2")); [|destruct Hin].
      destruct Hin as [<- | []]. now right.
    + intros Hnone. apply lastOf_none in Hnone.
      apply map_eq_nil in Hnone.
      assert (Hin' : In row (filter isDefaultRow
                               (filter recorded (dataLines output))))
        by (apply filter_In; now split).
      rewrite Hnone in Hin'. destruct Hin'.
Qed.

Lemma available_status_witness :
  WslStatus.error
    (WslStatus.mk true (Some (Num 2)) (Some (js "Ubuntu"))
       [js "Ubuntu"; js "Debian"] None)
  = None.
Proof.
  refine (proj1 (available_status_is_coherent
                   (mkHost (js "win32") (fun _ => Returned documentedListing))
                   (s := WslStatus.mk true _ _ _ None) _ _)).
  - vm_compute; reflexivity.
  - reflexivity.
Defined.

(** X4: on every host, [detectWsl] reports WSL available if and only if
    the platform is [win32], the listing command returned its output,
    and some line of it that is non-empty and free of column titles has
    at least three tokens after the default marker. *)
Theorem available_iff_recorded_row (h : host) (s : WslStatus.t) :
  detectWsl h = Returned s ->
  (WslStatus.available s = true <->
   platform h = js "win32"
   /\ exists output,
        execSync h (js "chcp 65001 > nul && wsl.exe --list --verbose")
        = Returned output
        /\ exists line, In line (dataLines output) /\ recorded line = true).
Proof.
  intros Hs. split.
  - intros Ha.
    destruct (detectWsl_available h Hs Ha) as (Hp & output & He & Hne & _).
    split; [exact Hp|]. exists output. split; [exact He|].
    rewrite parse_parsedOf in Hne. unfold parsedOf in Hne.
    cbn [distros] in Hne.
    destruct (filter recorded (dataLines output)) as [|line rest] eqn:Hf;
      [now elim Hne|].
    exists line. apply filter_In. rewrite Hf. now left.
  - intros (Hp & output & He & line & Hin & Hrec).
    unfold detectWsl in Hs. rewrite He in Hs.
    apply str_eqb_eq in Hp. rewrite Hp in Hs. simpl in Hs.
    injection Hs as <-. unfold onExecOutput.
    rewrite parse_parsedOf. unfold parsedOf. cbn [distros].
    assert (Hin' : In line (filter recorded (dataLines output)))
      by (apply filter_In; now split).
    destruct (filter recorded (dataLines output)); [destruct Hin'|].
    reflexivity.
Qed.

Lemma available_iff_witness :
  WslStatus.available
    (WslStatus.mk false None None []
       (Some (js "WSL 已安装但未安装任何 Linux 发行版")))
  = true <->
  platform (mkHost (js "win32") (fun _ => Returned (js "* Ubuntu 2")))
  = js "win32"
  /\ exists output,
       execSync (mkHost (js "win32") (fun _ => Returned (js "* Ubuntu 2")))
                (js "chcp 65001 > nul && wsl.exe --list --verbose")
       = Returned output
       /\ exists line, In line (dataLines output) /\ recorded line = true.
Proof.
  refine (available_iff_recorded_row
            (mkHost (js "win32") (fun _ => Returned (js "* Ubuntu 2"))) _).
  vm_compute; reflexivity.
Defined.

(** ** Well-formed listings *)

Lemma render_core r : render r = before r ++ core r ++ after r.
Proof. unfold render, core. now rewrite <- !app_assoc. Qed.

Lemma gap_blank s : gap s = true -> isBlank s = true.
Proof.
  unfold gap, isBlank. rewrite !forallb_forall. intros H c Hc.
  apply H in Hc. now apply andb_true_iff in Hc as (-> & _).
Qed.

Lemma gap_oneLine s : gap s = true -> oneLine s = true.
Proof.
  unfold gap, oneLine. rewrite !forallb_forall. intros H c Hc.
  apply H in Hc. now apply andb_true_iff in Hc as (_ & ->).
Qed.

Lemma noWhiteSpace_oneLine s : noWhiteSpace s = true -> oneLine s = true.
Proof.
  unfold noWhiteSpace, oneLine. rewrite !forallb_forall. intros H c Hc.
  apply H in Hc. destruct (N.eqb_spec c 10); [subst c; discriminate | reflexivity].
Qed.

Lemma word_noWhiteSpace w : word w = true -> noWhiteSpace w = true.
Proof. destruct w; [discriminate | trivial]. Qed.

Lemma word_head w :
  word w = true -> exists x m, w = x :: m /\ isWhiteSpace x = false.
Proof.
  destruct w as [|x m]; [discriminate|]. unfold word, noWhiteSpace. simpl.
  rewrite andb_true_iff, negb_true_iff. intros (Hx & _). now exists x, m.
Qed.

Lemma word_last w :
  word w = true -> exists m y, w = m ++ [y] /\ isWhiteSpace y = false.
Proof.
  intros H. destruct (exists_last (l := w)) as (m & y & ->);
    [now destruct w|].
  exists m, y. split; [reflexivity|].
  apply word_noWhiteSpace in H. unfold noWhiteSpace in H.
  rewrite forallb_app in H. simpl in H.
  apply andb_true_iff in H as (_ & H). apply andb_true_iff in H as (H & _).
  now apply negb_true_iff in H.
Qed.

(** A string that begins and ends with something else than white space
    is what trimming leaves of it, whatever blanks surround it. *)
Lemma trim_core pre c post x m m' y :
  c = x :: m -> isWhiteSpace x = false ->
  c = m' ++ [y] -> isWhiteSpace y = false ->
  isBlank pre = true -> isBlank post = true ->
  trim (pre ++ c ++ post) = c.
Proof.
  intros Hx Hwx Hy Hwy Hpre Hpost.
  rewrite (trim_pad_left _ _ Hpre), (trim_pad_right _ _ Hpost).
  unfold trim, trimStart, trimEnd. rewrite Hx. simpl. rewrite Hwx.
  rewrite <- Hx, Hy, rev_app_distr. simpl. rewrite Hwy.
  simpl. now rewrite rev_involutive.
Qed.

Lemma splitWs_word w : forall cur inRun s,
  noWhiteSpace w = true -> w <> [] ->
  splitWs cur inRun (w ++ s) = splitWs (cur ++ w) false s.
Proof.
  induction w as [|c w IH]; intros cur inRun s Hw Hne; [congruence|].
  unfold noWhiteSpace in Hw. simpl in Hw.
  apply andb_true_iff in Hw as (Hc & Hw). apply negb_true_iff in Hc.
  simpl. rewrite Hc. destruct w as [|c' w'].
  - reflexivity.
  - rewrite (IH (cur ++ [c]) false s Hw ltac:(discriminate)).
    now rewrite <- app_assoc.
Qed.

Lemma splitWs_run g s :
  isBlank g = true -> splitWs [] true (g ++ s) = splitWs [] true s.
Proof.
  unfold isBlank. induction g as [|c g IH]; simpl; [reflexivity|].
  rewrite andb_true_iff. intros (-> & Hg). auto.
Qed.

Lemma splitWs_gap g cur s :
  isBlank g = true -> g <> [] ->
  splitWs cur false (g ++ s) = cur :: splitWs [] true s.
Proof.
  destruct g as [|c g]; [congruence|]. unfold isBlank. simpl.
  rewrite andb_true_iff. intros (-> & Hg) _. f_equal.
  now apply splitWs_run.
Qed.

Lemma splitWs_columns cs : forall cur,
  forallb columnOk cs = true ->
  splitWs cur false (renderColumns cs) = cur :: map snd cs.
Proof.
  induction cs as [|[g w] cs IH]; intros cur H; [reflexivity|].
  simpl in H. apply andb_true_iff in H as (Hc & Hcs).
  unfold columnOk in Hc. simpl in Hc.
  apply andb_true_iff in Hc as (Hc & Hw).
  apply andb_true_iff in Hc as (Hg & Hgne).
  unfold renderColumns. simpl. fold (renderColumns cs).
  rewrite <- !app_assoc.
  rewrite (@splitWs_gap g cur _ (gap_blank _ Hg)) by (now destruct g).
  rewrite (@splitWs_word w [] true _ (word_noWhiteSpace _ Hw))
    by (now destruct w).
  simpl. now rewrite (IH w Hcs).
Qed.

Lemma startsWith_one s c :
  startsWith s [c] = match s with x :: _ => (x =? c)%N | [] => false end.
Proof.
  destruct s as [|x s]; [reflexivity|]. simpl.
  destruct s; now rewrite andb_true_r.
Qed.

Lemma isDefaultRow_head s :
  isDefaultRow s = match s with x :: _ => (x =? 42)%N | [] => false end.
Proof.
  unfold isDefaultRow.
  replace (js "*") with [42%N] by (vm_compute; reflexivity).
  apply startsWith_one.
Qed.

Lemma wellFormed_parts r :
  wellFormed r = true ->
  gap (before r) = true /\ gap (afterMarker r) = true
  /\ gap (after r) = true /\ word (name r) = true
  /\ (isDefault r = false -> startsWith (name r) [42%N] = false)
  /\ (2 <= length (columns r))%nat
  /\ forallb columnOk (columns r) = true
  /\ isHeader (render r) = false.
Proof.
  unfold wellFormed. rewrite !andb_true_iff, negb_true_iff.
  intros (((((((H1 & H2) & H3) & H4) & H5) & H6) & H7) & H8).
  repeat split; try assumption.
  - intros Hd. rewrite Hd in H5. simpl in H5. now apply negb_true_iff in H5.
  - now apply Nat.leb_le.
Qed.

Lemma renderColumns_last cs :
  forallb columnOk cs = true -> cs <> [] ->
  exists p m y, renderColumns cs = p ++ m ++ [y] /\ isWhiteSpace y = false.
Proof.
  intros H Hne. destruct (exists_last Hne) as (cs' & [g w] & ->).
  rewrite forallb_app in H. simpl in H.
  apply andb_true_iff in H as (_ & H). apply andb_true_iff in H as (H & _).
  unfold columnOk in H. simpl in H. apply andb_true_iff in H as (_ & Hw).
  destruct (word_last _ Hw) as (m & y & -> & Hy).
  exists (renderColumns cs' ++ g), m, y. split; [|exact Hy].
  unfold renderColumns. rewrite flat_map_app. simpl.
  now rewrite app_nil_r, <- !app_assoc.
Qed.

Lemma renderColumns_oneLine cs :
  forallb columnOk cs = true -> oneLine (renderColumns cs) = true.
Proof.
  induction cs as [|[g w] cs IH]; [reflexivity|]. simpl.
  rewrite andb_true_iff. intros (Hc & Hcs).
  unfold columnOk in Hc. simpl in Hc.
  apply andb_true_iff in Hc as (Hc & Hw).
  apply andb_true_iff in Hc as (Hg & _).
  unfold oneLine. rewrite !forallb_app.
  fold (oneLine g). fold (oneLine w). fold (renderColumns cs).
  fold (oneLine (renderColumns cs)).
  now rewrite (gap_oneLine _ Hg),
    (noWhiteSpace_oneLine _ (word_noWhiteSpace _ Hw)), (IH Hcs).
Qed.

Section WellFormedRow.
Variable r : row.
Hypothesis Hwf : wellFormed r = true.

Lemma render_oneLine : oneLine (render r) = true.
Proof.
  destruct (wellFormed_parts r Hwf) as (H1 & H2 & H3 & H4 & _ & _ & H7 & _).
  unfold render, oneLine. rewrite !forallb_app.
  fold (oneLine (before r)). fold (oneLine (name r)).
  fold (oneLine (renderColumns (columns r))). fold (oneLine (after r)).
  rewrite (gap_oneLine _ H1), (gap_oneLine _ H3),
    (noWhiteSpace_oneLine _ (word_noWhiteSpace _ H4)),
    (@renderColumns_oneLine _ H7).
  destruct (isDefault r); [|reflexivity].
  simpl. fold (oneLine (afterMarker r)). now rewrite (gap_oneLine _ H2).
Qed.

(** The name and the columns, already trimmed. *)
Lemma trim_name_columns :
  trim (name r ++ renderColumns (columns r))
  = name r ++ renderColumns (columns r).
Proof.
  destruct (wellFormed_parts r Hwf) as (_ & _ & _ & H4 & _ & H6 & H7 & _).
  destruct (word_head _ H4) as (x & m & Hx & Hwx).
  destruct (@renderColumns_last _ H7) as (p & m' & y & Hy & Hwy);
    [destruct (columns r); [simpl in H6; lia | discriminate]|].
  pose proof (@trim_core [] (name r ++ renderColumns (columns r)) []
                x (m ++ renderColumns (columns r))
                (name r ++ p ++ m') y) as T.
  simpl in T. rewrite app_nil_r in T. apply T; try reflexivity; try assumption.
  - now rewrite Hx.
  - rewrite Hy. now rewrite <- !app_assoc.
Qed.

Lemma core_head :
  exists x m, core r = x :: m /\ isWhiteSpace x = false.
Proof.
  destruct (wellFormed_parts r Hwf) as (_ & _ & _ & H4 & _).
  unfold core. destruct (isDefault r).
  - simpl. eexists _, _. split; reflexivity.
  - destruct (word_head _ H4) as (x & m & -> & Hwx). simpl.
    eexists _, _. split; [reflexivity | exact Hwx].
Qed.

Lemma core_last :
  exists m y, core r = m ++ [y] /\ isWhiteSpace y = false.
Proof.
  destruct (wellFormed_parts r Hwf) as (_ & _ & _ & _ & _ & H6 & H7 & _).
  destruct (@renderColumns_last _ H7) as (p & m' & y & Hy & Hwy);
    [destruct (columns r); [simpl in H6; lia | discriminate]|].
  unfold core. rewrite Hy.
  exists ((if isDefault r then 42%N :: afterMarker r else [])
            ++ name r ++ p ++ m'), y.
  split; [now rewrite <- !app_assoc | exact Hwy].
Qed.

(** Trimming a rendered row leaves the row without the blanks around. *)
Lemma trim_render : trim (render r) = core r.
Proof.
  destruct (wellFormed_parts r Hwf) as (H1 & _ & H3 & _).
  destruct core_head as (x & m & Hx & Hwx).
  destruct core_last as (m' & y & Hy & Hwy).
  rewrite render_core.
  exact (@trim_core _ _ _ _ _ _ _ Hx Hwx Hy Hwy
           (gap_blank _ H1) (gap_blank _ H3)).
Qed.

Lemma core_isDefaultRow : isDefaultRow (core r) = isDefault r.
Proof.
  destruct (wellFormed_parts r Hwf) as (_ & _ & _ & H4 & H5 & _).
  rewrite isDefaultRow_head. unfold core. destruct (isDefault r).
  - reflexivity.
  - specialize (H5 eq_refl). rewrite startsWith_one in H5.
    destruct (word_head _ H4) as (x & m & Hx & _).
    rewrite Hx in H5 |- *. exact H5.
Qed.

Lemma core_rowTokens :
  rowTokens (core r) = name r :: map snd (columns r).
Proof.
  destruct (wellFormed_parts r Hwf) as (_ & H2 & _ & H4 & H5 & _ & H7 & _).
  destruct (word_head _ H4) as (x & m & Hx & Hwx).
  assert (Hrep : replaceDefaultMarker (core r)
                 = name r ++ renderColumns (columns r)).
  { unfold core, replaceDefaultMarker. destruct (isDefault r).
    - simpl. unfold trimStart.
      rewrite (dropWhile_app_all _ _ _ (gap_blank _ H2)).
      rewrite Hx. simpl. now rewrite Hwx.
    - specialize (H5 eq_refl). rewrite startsWith_one in H5.
      rewrite Hx in H5 |- *. simpl. now rewrite H5. }
  unfold rowTokens. rewrite Hrep, trim_name_columns. unfold splitWhitespace.
  rewrite (@splitWs_word (name r) [] false _ (word_noWhiteSpace _ H4))
    by (rewrite Hx; discriminate).
  simpl. now apply splitWs_columns.
Qed.

Lemma core_recorded : recorded (core r) = true.
Proof.
  destruct (wellFormed_parts r Hwf) as (_ & _ & _ & _ & _ & H6 & _).
  unfold recorded. rewrite core_rowTokens. apply Nat.leb_le.
  simpl length. rewrite length_map. lia.
Qed.

Lemma core_rowName : rowName (core r) = name r.
Proof. unfold rowName. now rewrite core_rowTokens. Qed.

Lemma core_suppliedVersion : suppliedVersion (core r) = supplied r.
Proof.
  destruct (wellFormed_parts r Hwf) as (_ & _ & _ & _ & _ & H6 & _).
  unfold suppliedVersion, supplied. rewrite core_isDefaultRow.
  replace (rowMarker (core r)) with (marker r); [reflexivity|].
  unfold rowMarker, marker. rewrite core_rowTokens.
  destruct (columns r) as [|c cs]; [simpl in H6; lia | reflexivity].
Qed.

(** A rendered row is a data line: its trimmed text. *)
Lemma dataLines_render : dataLines (render r) = [core r].
Proof.
  destruct (wellFormed_parts r Hwf) as (_ & _ & _ & _ & _ & _ & _ & H8).
  rewrite dataLines_keep. unfold lines, split.
  rewrite (splitOn_single 10%N (render r) [] render_oneLine). simpl.
  rewrite trim_render. destruct core_head as (x & m & Hx & _).
  rewrite Hx at 1. simpl. rewrite <- trim_render.
  now rewrite (isHeader_infix (trim_infix (render r)) H8).
Qed.

End WellFormedRow.

Lemma dataLines_rendered rows :
  forallb wellFormed rows = true ->
  dataLines (unlines (map render rows)) = map core rows.
Proof.
  induction rows as [|r rows IH]; [reflexivity|]. cbn [map forallb].
  rewrite andb_true_iff. intros (Hr & Hrows).
  now rewrite unlines_cons, dataLines_app, (dataLines_render r Hr), (IH Hrows).
Qed.

Lemma rows_of_cores rows :
  forallb wellFormed rows = true ->
  filter recorded (map core rows) = map core rows
  /\ map rowName (map core rows) = map name rows
  /\ map rowName (filter isDefaultRow (map core rows))
     = map name (filter isDefault rows)
  /\ flat_map suppliedVersion (map core rows) = flat_map supplied rows.
Proof.
  induction rows as [|r rows IH]; [now repeat split|].
  cbn [map filter flat_map forallb].
  rewrite andb_true_iff. intros (Hr & Hrows).
  destruct (IH Hrows) as (I1 & I2 & I3 & I4).
  rewrite (core_recorded r Hr), (core_rowName r Hr),
    (core_isDefaultRow r Hr), (core_suppliedVersion r Hr), I1, I2, I4.
  repeat split. destruct (isDefault r); cbn [map];
    now rewrite ?(core_rowName r Hr), I3.
Qed.

(** X5: a listing made of a header line and well-formed rows (a name,
    at least two further columns, any blanks between and around them, a
    leading asterisk on default rows, no column title in a row) parses
    to the names of its rows in order; the default distribution is the
    name of the last default row, and the version is that of the last
    default row whose last column is [1] or [2]. *)
Theorem well_formed_listing_parses (header : str) (rows : list row) :
  isHeader header = true ->
  oneLine header = true ->
  forallb wellFormed rows = true ->
  parseWslListOutput (unlines (header :: map render rows))
  = mkParsed (lastOf (flat_map supplied rows))
             (lastOf (map name (filter isDefault rows)))
             (map name rows).
Proof.
  intros Hh Hone Hrows. rewrite parse_parsedOf.
  rewrite unlines_cons, dataLines_app, (dataLines_header_line _ Hone Hh).
  simpl app. rewrite (dataLines_rendered _ Hrows). unfold parsedOf.
  destruct (rows_of_cores _ Hrows) as (-> & -> & -> & ->). reflexivity.
Qed.

Lemma well_formed_listing_witness :
  parseWslListOutput
    (unlines
       (js "  NAME      STATE      VERSION"
           :: map render
                [ mkRow true [] (js " ") (js "Ubuntu-22.04")
                        [(js "    ", js "Running"); (js "   ", js "2")] [13%N];
                  mkRow false (js "  ") [] (js "docker-desktop")
                        [(js " ", js "Stopped"); (js "  ", js "1")] [13%N] ]))
  = mkParsed
      (lastOf (flat_map supplied
                 [ mkRow true [] (js " ") (js "Ubuntu-22.04")
                         [(js "    ", js "Running"); (js "   ", js "2")] [13%N];
                   mkRow false (js "  ") [] (js "docker-desktop")
                         [(js " ", js "Stopped"); (js "  ", js "1")] [13%N] ]))
      (lastOf (map name (filter isDefault
                 [ mkRow true [] (js " ") (js "Ubuntu-22.04")
                         [(js "    ", js "Running"); (js "   ", js "2")] [13%N];
                   mkRow false (js "  ") [] (js "docker-desktop")
                         [(js " ", js "Stopped"); (js "  ", js "1")] [13%N] ])))
      (map name
         [ mkRow true [] (js " ") (js "Ubuntu-22.04")
                 [(js "    ", js "Running"); (js "   ", js "2")] [13%N];
           mkRow false (js "  ") [] (js "docker-desktop")
                 [(js " ", js "Stopped"); (js "  ", js "1")] [13%N] ]).
Proof.
  refine (well_formed_listing_parses _ _ _ _ _); vm_compute; reflexivity.
Defined.

End WslExtras.

(* ================================================================== *)
(** * Further properties of the coordinator *)
(* ================================================================== *)

Module CoordinatorExtras.
Import Coordinator CoordinatorFacts CoordinatorRuns Scenarios.

(** The variables after a run: those before it when it throws, the built
    status and [true] when it returns. *)
Lemma initializeRuntime_mem I o w :
  mem (snd (initializeRuntime I o w)) = mem w
  /\ (exists e, fst (initializeRuntime I o w) = Thrown e)
  \/ exists s, fst (initializeRuntime I o w) = Returned s
               /\ mem (snd (initializeRuntime I o w)) = mkVars (Some s) true.
Proof.
  rewrite initializeRuntime_run.
  destruct (nodeStep I o);
    [destruct (bunStep I o); [destruct (gitStep I o)|]|]; simpl; eauto.
Qed.

(** X6: in every world the module can reach by calls of
    [initializeRuntime] and [reinitializeRuntime], whatever their
    options and outcomes, [isRuntimeInitialized] is true exactly when
    [getRuntimeStatus] returns a status. *)
Theorem initialized_iff_cached (w : world) :
  reachable w ->
  (isRuntimeInitialized w = true <-> getRuntimeStatus w <> None).
Proof.
  unfold isRuntimeInitialized, getRuntimeStatus.
  assert (Hstep : forall I o w0,
             (isInitialized (mem w0) = true
              <-> runtimeStatusCache (mem w0) <> None) ->
             isInitialized (mem (snd (initializeRuntime I o w0))) = true
             <-> runtimeStatusCache (mem (snd (initializeRuntime I o w0)))
                 <> None).
  { intros I o w0 H0.
    destruct (initializeRuntime_mem I o w0) as [(-> & _) | (s & _ & ->)];
      [exact H0|]. simpl. split; [discriminate | reflexivity]. }
  induction 1 as [ | I o w Hw IH | I o w Hw IH].
  - simpl. split; [discriminate | congruence].
  - now apply Hstep.
  - change (reinitializeRuntime I o w)
      with (initializeRuntime I o (mkWorld (mkVars None false) (calls w))).
    apply Hstep. simpl. split; [discriminate | congruence].
Qed.

Lemma initialized_iff_cached_witness :
  isRuntimeInitialized afterFirstInit = true
  <-> getRuntimeStatus afterFirstInit <> None.
Proof.
  refine (initialized_iff_cached (w := afterFirstInit) _).
  exact (AfterInitialize windowsHost RuntimeInitOptions.empty Loaded).
Defined.

(** ** The calls of a run *)

Lemma initializeRuntime_made I o w :
  calls (snd (initializeRuntime I o w)) = calls w ++ madeCalls I o.
Proof.
  rewrite initializeRuntime_run. unfold madeCalls.
  destruct (nodeStep I o);
    [destruct (bunStep I o); [destruct (gitStep I o)|]|];
    cbn [snd calls addCalls]; rewrite ?app_nil_r; reflexivity.
Qed.

Lemma made_of_run I o w r w' made :
  initializeRuntime I o w = (r, w') -> calls w' = calls w ++ made ->
  made = madeCalls I o.
Proof.
  intros Hrun Hc. pose proof (initializeRuntime_made I o w) as Hm.
  rewrite Hrun in Hm. simpl in Hm. rewrite Hc in Hm.
  now apply app_inv_head in Hm.
Qed.

Lemma madeCalls_ordered I o : subsequence (madeCalls I o) fullRun = true.
Proof.
  unfold madeCalls, nodeStep, bunStep, gitStep, envCalls, nodeCalls,
    bunCalls, gitCalls, shellCalls.
  destruct (shellDetectionRuns I o),
    (RuntimeInitOptions.truthy (RuntimeInitOptions.skipEnvLoad o)),
    (RuntimeInitOptions.truthy (RuntimeInitOptions.skipNodeDetection o)),
    (RuntimeInitOptions.truthy (RuntimeInitOptions.skipBunDetection o)),
    (RuntimeInitOptions.truthy (RuntimeInitOptions.skipGitDetection o));
    cbn [negb app];
    try destruct (detectNodeRuntime I); try destruct (detectBunRuntime I);
    try destruct (detectGitRuntime I); try destruct (detectGitBash I);
    reflexivity.
Qed.

(** X7: in every run of [initializeRuntime] or [reinitializeRuntime],
    whatever is skipped and whatever throws, the calls made are, in this
    order and each at most as often as listed: [Date.now],
    [loadShellEnv], the Node.js, Bun, Git, Git Bash and WSL detectors,
    [Date.now], [Date.now]. *)
Theorem calls_follow_the_order I o w :
  (exists made,
      calls (snd (initializeRuntime I o w)) = calls w ++ made
      /\ subsequence made fullRun = true)
  /\ (exists made,
         calls (snd (reinitializeRuntime I o w)) = calls w ++ made
         /\ subsequence made fullRun = true).
Proof.
  split; exists (madeCalls I o); (split; [|apply madeCalls_ordered]).
  - apply initializeRuntime_made.
  - change (reinitializeRuntime I o w)
      with (initializeRuntime I o (mkWorld (mkVars None false) (calls w))).
    now rewrite initializeRuntime_made.
Qed.

Lemma shellCalls_any I o :
  shellCalls I o = [] \/ shellCalls I o = [CallDetectGitBash]
  \/ shellCalls I o = [CallDetectGitBash; CallDetectWsl].
Proof.
  unfold shellCalls. destruct (shellDetectionRuns I o); [|now left].
  destruct (detectGitBash I); auto.
Qed.

(** ** A detector that throws *)

Lemma step_outcome {A} (skip : option bool) (skipped : A) (d : outcome A) e :
  (if RuntimeInitOptions.truthy skip then Returned skipped else d) = Thrown e ->
  RuntimeInitOptions.truthy skip = false /\ d = Thrown e.
Proof. destruct (RuntimeInitOptions.truthy skip); [discriminate | auto]. Qed.

Ltac not_called :=
  unfold envCalls, nodeCalls, bunCalls, gitCalls;
  repeat match goal with
         | |- context [RuntimeInitOptions.truthy ?f] =>
             destruct (RuntimeInitOptions.truthy f)
         end;
  simpl; intuition congruence.

(** X8: when [initializeRuntime] throws, the exception is the one of the
    first of the Node.js, Bun and Git detectors that was not skipped and
    threw, and no detector after that one was called in the run: a
    failing Node.js detector leaves Bun, Git, Git Bash and WSL
    undetected, a failing Bun detector Git, Git Bash and WSL, a failing
    Git detector Git Bash and WSL. *)
Theorem failing_detector_ends_the_run I o w e w' :
  initializeRuntime I o w = (Thrown e, w') ->
  exists made,
    calls w' = calls w ++ made
    /\ ~ In CallDetectGitBash made /\ ~ In CallDetectWsl made
    /\ ((RuntimeInitOptions.truthy (RuntimeInitOptions.skipNodeDetection o)
         = false
         /\ detectNodeRuntime I = Thrown e
         /\ ~ In CallDetectBunRuntime made /\ ~ In CallDetectGitRuntime made)
        \/ (RuntimeInitOptions.truthy (RuntimeInitOptions.skipBunDetection o)
            = false
            /\ detectBunRuntime I = Thrown e
            /\ ~ In CallDetectGitRuntime made)
        \/ (RuntimeInitOptions.truthy (RuntimeInitOptions.skipGitDetection o)
            = false
            /\ detectGitRuntime I = Thrown e)).
Proof.
  rewrite initializeRuntime_run.
  destruct (nodeStep I o) eqn:Hn; [|intros [= -> <-]].
  - destruct (bunStep I o) eqn:Hb; [|intros [= -> <-]].
    + destruct (gitStep I o) eqn:Hg; [discriminate | intros [= -> <-]].
      eexists. split; [reflexivity|].
      destruct (step_outcome _ _ _ Hg) as (Hs & Hd).
      repeat split; [not_called | not_called |]. right. right. auto.
    + eexists. split; [reflexivity|].
      destruct (step_outcome _ _ _ Hb) as (Hs & Hd).
      repeat split; [not_called | not_called |]. right. left.
      repeat split; [assumption | assumption | not_called].
  - eexists. split; [reflexivity|].
    destruct (step_outcome _ _ _ Hn) as (Hs & Hd).
    repeat split; [not_called | not_called |]. left.
    repeat split; [assumption | assumption | not_called | not_called].
Qed.

Lemma failing_detector_witness :
  exists made,
    calls (snd (initializeRuntime nodeThrows RuntimeInitOptions.empty
                  initialWorld))
    = calls initialWorld ++ made
    /\ ~ In CallDetectGitBash made /\ ~ In CallDetectWsl made
    /\ ((RuntimeInitOptions.truthy
           (RuntimeInitOptions.skipNodeDetection RuntimeInitOptions.empty)
         = false
         /\ detectNodeRuntime nodeThrows
            = Thrown (ErrorObject (js "spawn node ENOENT"))
         /\ ~ In CallDetectBunRuntime made /\ ~ In CallDetectGitRuntime made)
        \/ (RuntimeInitOptions.truthy
              (RuntimeInitOptions.skipBunDetection RuntimeInitOptions.empty)
            = false
            /\ detectBunRuntime nodeThrows
               = Thrown (ErrorObject (js "spawn node ENOENT"))
            /\ ~ In CallDetectGitRuntime made)
        \/ (RuntimeInitOptions.truthy
              (RuntimeInitOptions.skipGitDetection RuntimeInitOptions.empty)
            = false
            /\ detectGitRuntime nodeThrows
               = Thrown (ErrorObject (js "spawn node ENOENT")))).
Proof.
  refine (failing_detector_ends_the_run
            nodeThrows RuntimeInitOptions.empty initialWorld _).
  vm_compute; reflexivity.
Defined.

(** ** Skipping *)

(** X9: with all five skip flags set, [initializeRuntime] returns
    whatever the imports would answer (even if every one of them would
    throw): it calls nothing but [Date.now] (three times), returns and
    caches the status made of the three fixed skipped statuses, without
    [shell] and with [envLoaded = false]. *)
Theorem skipping_everything_calls_nothing I o w :
  RuntimeInitOptions.truthy (RuntimeInitOptions.skipEnvLoad o) = true ->
  RuntimeInitOptions.truthy (RuntimeInitOptions.skipNodeDetection o) = true ->
  RuntimeInitOptions.truthy (RuntimeInitOptions.skipBunDetection o) = true ->
  RuntimeInitOptions.truthy (RuntimeInitOptions.skipGitDetection o) = true ->
  RuntimeInitOptions.truthy (RuntimeInitOptions.skipShellDetection o) = true ->
  initializeRuntime I o w
  = (Returned (RuntimeStatus.mk skippedNode skippedBun skippedGit None false
                 (dateNow I (S (asked w)))),
     mkWorld
       (mkVars (Some (RuntimeStatus.mk skippedNode skippedBun skippedGit None
                        false (dateNow I (S (asked w))))) true)
       (calls w ++ [CallDateNow; CallDateNow; CallDateNow])).
Proof.
  intros He Hn Hb Hg Hs. rewrite initializeRuntime_run.
  unfold nodeStep, bunStep, gitStep, builtStatus, shellOf, envLoadedOf,
    envCalls, nodeCalls, bunCalls, gitCalls, shellCalls, shellDetectionRuns.
  rewrite He, Hn, Hb, Hg, Hs. cbn [negb]. rewrite andb_false_r. reflexivity.
Qed.

Lemma skipping_everything_witness :
  initializeRuntime (allThrow (js "win32") (OtherValue (js "boom")))
                    skipAll initialWorld
  = (Returned (RuntimeStatus.mk skippedNode skippedBun skippedGit None false
                 (dateNow (allThrow (js "win32") (OtherValue (js "boom")))
                          (S (asked initialWorld)))),
     mkWorld
       (mkVars (Some (RuntimeStatus.mk skippedNode skippedBun skippedGit None
                        false
                        (dateNow
                           (allThrow (js "win32") (OtherValue (js "boom")))
                           (S (asked initialWorld))))) true)
       (calls initialWorld ++ [CallDateNow; CallDateNow; CallDateNow])).
Proof.
  refine (skipping_everything_calls_nothing
            (allThrow (js "win32") (OtherValue (js "boom"))) skipAll
            initialWorld _ _ _ _ _); reflexivity.
Defined.

(** X10: in every status [initializeRuntime] returns, [envLoaded] is
    true exactly when the environment load was not skipped and
    [loadShellEnv] returned a result with [success = true]; an
    exception of [loadShellEnv] only makes [envLoaded] false.
    [loadShellEnv] is called exactly when the load is not skipped. *)
Theorem envLoaded_iff_loaded I o w s w' :
  initializeRuntime I o w = (Returned s, w') ->
  (RuntimeStatus.envLoaded s = true <->
   RuntimeInitOptions.truthy (RuntimeInitOptions.skipEnvLoad o) = false
   /\ exists r, loadShellEnv I = Returned r
                /\ ShellEnvResult.success r = true)
  /\ (forall made, calls w' = calls w ++ made ->
      (In CallLoadShellEnv made <->
       RuntimeInitOptions.truthy (RuntimeInitOptions.skipEnvLoad o) = false)).
Proof.
  intros Hrun. split.
  - rewrite initializeRuntime_run in Hrun.
    destruct (nodeStep I o); [|discriminate].
    destruct (bunStep I o); [|discriminate].
    destruct (gitStep I o); [|discriminate].
    injection Hrun as <- _. cbn [builtStatus RuntimeStatus.envLoaded].
    unfold envLoadedOf.
    destruct (RuntimeInitOptions.truthy (RuntimeInitOptions.skipEnvLoad o));
      cbn [negb].
    + split; [discriminate | intros ([=] & _)].
    + destruct (loadShellEnv I) as [r|e].
      * split; [intros H; split; [reflexivity | now exists r]|].
        now intros (_ & r' & [= <-] & H).
      * split; [discriminate | intros (_ & r' & [=] & _)].
  - intros made Hm. rewrite (@made_of_run _ _ _ _ _ _ Hrun Hm).
    unfold madeCalls, nodeStep, bunStep, gitStep, envCalls, nodeCalls,
      bunCalls, gitCalls.
    destruct (shellCalls_any I o) as [-> | [-> | ->]];
    destruct (RuntimeInitOptions.truthy (RuntimeInitOptions.skipEnvLoad o)),
      (RuntimeInitOptions.truthy (RuntimeInitOptions.skipNodeDetection o)),
      (RuntimeInitOptions.truthy (RuntimeInitOptions.skipBunDetection o)),
      (RuntimeInitOptions.truthy (RuntimeInitOptions.skipGitDetection o));
      cbn [negb app];
      try destruct (detectNodeRuntime I); try destruct (detectBunRuntime I);
      try destruct (detectGitRuntime I);
      simpl; intuition congruence.
Qed.

Lemma envLoaded_witness :
  RuntimeStatus.envLoaded firstStatus = true <->
  RuntimeInitOptions.truthy
    (RuntimeInitOptions.skipEnvLoad RuntimeInitOptions.empty) = false
  /\ exists r, loadShellEnv windowsHost = Returned r
               /\ ShellEnvResult.success r = true.
Proof.
  refine (proj1 (envLoaded_iff_loaded
                   windowsHost RuntimeInitOptions.empty initialWorld
                   (s := firstStatus) (w' := afterFirstInit) _)).
  vm_compute; reflexivity.
Defined.

(** ** Shell detection *)

(** X11: in every run, whatever its outcome, the Git Bash detector is
    called only on [win32] and only when shell detection is not
    skipped, and the WSL detector is called only after the Git Bash
    detector was called and returned a status. *)
Theorem shell_detectors_are_guarded I o w r w' made :
  initializeRuntime I o w = (r, w') ->
  calls w' = calls w ++ made ->
  (In CallDetectGitBash made ->
   platform I = js "win32"
   /\ RuntimeInitOptions.truthy (RuntimeInitOptions.skipShellDetection o)
      = false)
  /\ (In CallDetectWsl made ->
      In CallDetectGitBash made
      /\ exists gitBashStatus, detectGitBash I = Returned gitBashStatus).
Proof.
  intros Hrun Hm. rewrite (@made_of_run _ _ _ _ _ _ Hrun Hm).
  assert (Hshell :
            (In CallDetectGitBash (shellCalls I o) ->
             platform I = js "win32"
             /\ RuntimeInitOptions.truthy
                  (RuntimeInitOptions.skipShellDetection o) = false)
            /\ (In CallDetectWsl (shellCalls I o) ->
                In CallDetectGitBash (shellCalls I o)
                /\ exists gb, detectGitBash I = Returned gb)).
  { unfold shellCalls, shellDetectionRuns.
    destruct (JS.str_eqb (platform I) (js "win32")) eqn:Hp;
      [|simpl; intuition].
    apply JSFacts.str_eqb_eq in Hp.
    destruct (RuntimeInitOptions.truthy
                (RuntimeInitOptions.skipShellDetection o));
      [simpl; intuition|].
    destruct (detectGitBash I) as [gb|]; simpl.
    - split; [auto|]. intros _. split; [auto | now exists gb].
    - split; [auto | intuition congruence]. }
  destruct Hshell as (H1 & H2).
  assert (Hmade : forall c,
             c = CallDetectGitBash \/ c = CallDetectWsl ->
             (In c (madeCalls I o) <->
              match nodeStep I o, bunStep I o, gitStep I o with
              | Returned _, Returned _, Returned _ => In c (shellCalls I o)
              | _, _, _ => False
              end)).
  { intros c Hc. unfold madeCalls, envCalls, nodeCalls, bunCalls, gitCalls.
    destruct (nodeStep I o), (bunStep I o), (gitStep I o),
      (RuntimeInitOptions.truthy (RuntimeInitOptions.skipEnvLoad o)),
      (RuntimeInitOptions.truthy (RuntimeInitOptions.skipNodeDetection o)),
      (RuntimeInitOptions.truthy (RuntimeInitOptions.skipBunDetection o)),
      (RuntimeInitOptions.truthy (RuntimeInitOptions.skipGitDetection o));
      cbn [negb app]; simpl; rewrite ?in_app_iff; simpl;
      intuition congruence. }
  pose proof (Hmade CallDetectGitBash (or_introl eq_refl)) as Hg.
  pose proof (Hmade CallDetectWsl (or_intror eq_refl)) as Hw.
  destruct (nodeStep I o), (bunStep I o), (gitStep I o);
    split; intros Hin; try (apply Hg in Hin; tauto);
    try (apply Hw in Hin; tauto).
Qed.

Lemma shell_detectors_witness :
  (In CallDetectGitBash (calls afterFirstInit) ->
   platform windowsHost = js "win32"
   /\ RuntimeInitOptions.truthy
        (RuntimeInitOptions.skipShellDetection RuntimeInitOptions.empty)
      = false)
  /\ (In CallDetectWsl (calls afterFirstInit) ->
      In CallDetectGitBash (calls afterFirstInit)
      /\ exists gitBashStatus,
           detectGitBash windowsHost = Returned gitBashStatus).
Proof.
  refine (@shell_detectors_are_guarded
            windowsHost RuntimeInitOptions.empty initialWorld
            (Returned firstStatus) afterFirstInit (calls afterFirstInit) _ _);
    vm_compute; reflexivity.
Defined.

(** ** Runs compared *)

Lemma run_returned I o w s w' :
  initializeRuntime I o w = (Returned s, w')
  \/ reinitializeRuntime I o w = (Returned s, w') ->
  exists n b g,
    nodeStep I o = Returned n /\ bunStep I o = Returned b
    /\ gitStep I o = Returned g
    /\ s = builtStatus I o w n b g
    /\ w' = mkWorld (mkVars (Some s) true) (calls w ++ madeCalls I o).
Proof.
  assert (H : forall w0, asked w0 = asked w -> calls w0 = calls w ->
                         initializeRuntime I o w0 = (Returned s, w') ->
                         exists n b g,
                           nodeStep I o = Returned n
                           /\ bunStep I o = Returned b
                           /\ gitStep I o = Returned g
                           /\ s = builtStatus I o w n b g
                           /\ w' = mkWorld (mkVars (Some s) true)
                                           (calls w ++ madeCalls I o)).
  { intros w0 Ha Hc. rewrite initializeRuntime_run. unfold madeCalls.
    destruct (nodeStep I o) as [n|]; [|discriminate].
    destruct (bunStep I o) as [b|]; [|discriminate].
    destruct (gitStep I o) as [g|]; [|discriminate].
    unfold builtStatus. rewrite Ha, Hc. intros [= <- <-].
    exists n, b, g. repeat split. }
  intros [Hi | Hr]; [now apply (H w)|].
  exact (H (mkWorld (mkVars None false) (calls w)) eq_refl eq_refl Hr).
Qed.

(** X12: the status a run returns does not depend on the state the
    coordinator was in: two runs of [initializeRuntime] or
    [reinitializeRuntime] with the same options, against imports that
    answer the same, return statuses equal in every field but
    [initializedAt], whatever was cached or called before each. *)
Theorem status_is_repeatable I o w1 w2 s1 s2 w1' w2' :
  initializeRuntime I o w1 = (Returned s1, w1')
  \/ reinitializeRuntime I o w1 = (Returned s1, w1') ->
  initializeRuntime I o w2 = (Returned s2, w2')
  \/ reinitializeRuntime I o w2 = (Returned s2, w2') ->
  sameButTime s1 s2
  /\ RuntimeStatus.initializedAt s1 = dateNow I (S (asked w1))
  /\ RuntimeStatus.initializedAt s2 = dateNow I (S (asked w2)).
Proof.
  intros H1 H2.
  apply run_returned in H1 as (n1 & b1 & g1 & Hn1 & Hb1 & Hg1 & -> & _).
  apply run_returned in H2 as (n2 & b2 & g2 & Hn2 & Hb2 & Hg2 & -> & _).
  rewrite Hn1 in Hn2. rewrite Hb1 in Hb2. rewrite Hg1 in Hg2.
  injection Hn2 as <-. injection Hb2 as <-. injection Hg2 as <-.
  unfold sameButTime, builtStatus. simpl. repeat split.
Qed.

Lemma status_is_repeatable_witness :
  sameButTime firstStatus
    (RuntimeStatus.mk nodeFound bunFound gitFound
       (Some (ShellEnvironmentStatus.mk gitBashFound wslFound
                (Some ShellEnvironmentStatus.git_bash)))
       false 1004)
  /\ RuntimeStatus.initializedAt firstStatus
     = dateNow windowsHost (S (asked initialWorld))
  /\ RuntimeStatus.initializedAt
       (RuntimeStatus.mk nodeFound bunFound gitFound
          (Some (ShellEnvironmentStatus.mk gitBashFound wslFound
                   (Some ShellEnvironmentStatus.git_bash)))
          false 1004)
     = dateNow windowsHost (S (asked afterFirstInit)).
Proof.
  refine (@status_is_repeatable
            windowsHost RuntimeInitOptions.empty initialWorld afterFirstInit
            firstStatus _ afterFirstInit
            (snd (reinitializeRuntime windowsHost RuntimeInitOptions.empty
                    afterFirstInit)) _ _).
  - left. vm_compute; reflexivity.
  - right. vm_compute; reflexivity.
Defined.

(** X13: a reinitialisation that succeeds is an initialisation:
    [reinitializeRuntime] returns a status and leaves a world exactly
    when [initializeRuntime], called in the same world with the same
    options and imports, returns that status and leaves that world.
    The two differ only when they throw. *)
Theorem successful_reinitialization_is_initialization I o w s w' :
  reinitializeRuntime I o w = (Returned s, w')
  <-> initializeRuntime I o w = (Returned s, w').
Proof.
  change (reinitializeRuntime I o w)
    with (initializeRuntime I o (mkWorld (mkVars None false) (calls w))).
  rewrite !initializeRuntime_run.
  destruct (nodeStep I o); [|split; discriminate].
  destruct (bunStep I o); [|split; discriminate].
  destruct (gitStep I o); [|split; discriminate].
  unfold builtStatus, asked. simpl. tauto.
Qed.

End CoordinatorExtras.

(* ================================================================== *)
(** * Properties of the message item *)
(* ================================================================== *)

Module ChatExtras.
Import JS JSFacts ChatMessageItem.

(** ** The message time *)

Lemma pad_two_digits n :
  (0 <= n < 100)%Z -> padStart (numberToString n) 2 48%N = twoDigits n.
Proof.
  intros Hn.
  assert (Hall : forallb
                   (fun k => str_eqb
                               (padStart (numberToString (Z.of_nat k)) 2 48%N)
                               (twoDigits (Z.of_nat k)))
                   (seq 0 100) = true) by (vm_compute; reflexivity).
  rewrite forallb_forall in Hall.
  specialize (Hall (Z.to_nat n)). rewrite Z2Nat.id in Hall by lia.
  apply str_eqb_eq, Hall, in_seq. lia.
Qed.

(** X14: for a date whose calendar fields are in range,
    [formatMessageTime] writes month, day, hours and minutes with two
    digits each, the month counted from 1: in the current year the text
    is [MM/DD HH:mm], eleven code units long; in another year it is the
    same text after the year and a slash. *)
Theorem message_time_is_zero_padded (d now : date) :
  (0 <= getMonth d <= 11)%Z -> (1 <= getDate d <= 31)%Z ->
  (0 <= getHours d <= 23)%Z -> (0 <= getMinutes d <= 59)%Z ->
  let stamp :=
    twoDigits (getMonth d + 1) ++ 47%N :: twoDigits (getDate d)
      ++ 32%N :: twoDigits (getHours d) ++ 58%N :: twoDigits (getMinutes d) in
  length stamp = 11%nat
  /\ (getFullYear d = getFullYear now -> formatMessageTime d now = stamp)
  /\ (getFullYear d <> getFullYear now ->
      formatMessageTime d now
      = numberToString (getFullYear d) ++ 47%N :: stamp).
Proof.
  intros Hm Hd Hh Hmin. cbv zeta. split; [reflexivity|].
  unfold formatMessageTime.
  rewrite !pad_two_digits by lia.
  replace (js ":") with [58%N] by (vm_compute; reflexivity).
  replace (js "/") with [47%N] by (vm_compute; reflexivity).
  replace (js " ") with [32%N] by (vm_compute; reflexivity).
  split; intros Hy.
  - apply Z.eqb_eq in Hy. rewrite Hy. reflexivity.
  - apply Z.eqb_neq in Hy. rewrite Hy. reflexivity.
Qed.

Lemma message_time_witness :
  formatMessageTime (mkDate 2025 1 12 14 5) (mkDate 2026 10 2 9 0)
  = numberToString 2025
      ++ 47%N :: twoDigits (1 + 1) ++ 47%N :: twoDigits 12
      ++ 32%N :: twoDigits 14 ++ 58%N :: twoDigits 5.
Proof.
  refine (proj2 (proj2 (message_time_is_zero_padded
                          (mkDate 2025 1 12 14 5) (mkDate 2026 10 2 9 0)
                          _ _ _ _)) _);
    simpl; lia.
Defined.

(** ** Trimming *)

Lemma dropWhile_nil f (s : list N) :
  dropWhile f s = [] -> forallb f s = true.
Proof.
  induction s as [|c s IH]; simpl; [reflexivity|].
  destruct (f c); [exact IH | discriminate].
Qed.

Lemma trim_nil s : trim s = [] -> forallb isWhiteSpace s = true.
Proof.
  unfold trim, trimEnd. intros H.
  apply (f_equal (@rev N)) in H. rewrite rev_involutive in H. simpl in H.
  apply dropWhile_nil in H. rewrite forallb_forall in H.
  apply dropWhile_nil.
  destruct (dropWhile_head isWhiteSpace s) as [E | (c & r & E & Hc)];
    [exact E|].
  unfold trimStart in H. rewrite E in H.
  specialize (H c). rewrite <- in_rev in H.
  rewrite H in Hc by (now left). discriminate.
Qed.

Lemma trim_last s :
  trim s = [] \/ exists m y, trim s = m ++ [y] /\ isWhiteSpace y = false.
Proof.
  unfold trim, trimEnd.
  destruct (dropWhile_head isWhiteSpace (rev (trimStart s)))
    as [-> | (c & r & -> & Hc)]; [now left|].
  right. exists (rev r), c. now split.
Qed.

Lemma trim_idempotent s : trim (trim s) = trim s.
Proof.
  destruct (trim_head s) as [E | (x & m & Hx & Hwx)]; [now rewrite E|].
  destruct (trim_last s) as [E | (m' & y & Hy & Hwy)];
    [rewrite E in Hx; discriminate|].
  unfold trim at 1, trimStart, trimEnd. rewrite Hx at 1. simpl. rewrite Hwx.
  rewrite <- Hx, Hy, rev_app_distr. simpl. rewrite Hwy. simpl.
  now rewrite rev_involutive.
Qed.

(** ** What the payload is made of *)

Lemma keptOf_app a b : keptOf (a ++ b) = keptOf a ++ keptOf b.
Proof. unfold keptOf. now rewrite filter_app, map_app. Qed.

Lemma addedOf_app a b : addedOf (a ++ b) = addedOf a ++ addedOf b.
Proof. unfold addedOf. now rewrite filter_app, map_app. Qed.

Lemma seed_parts attachments :
  keptOf (onEditingChange true (Some attachments)) = attachments
  /\ addedOf (onEditingChange true (Some attachments)) = []
  /\ length (onEditingChange true (Some attachments)) = length attachments.
Proof.
  unfold onEditingChange. simpl negb. cbv iota.
  induction attachments as [|a l (I1 & I2 & I3)]; [now repeat split|].
  unfold keptOf, addedOf in *.
  cbn [map filter isExisting isNew length itemAttachment].
  now rewrite I1, I2, I3.
Qed.

Lemma pending_parts now random items : forall idx,
  keptOf (pendingFrom now random idx items) = []
  /\ addedOf (pendingFrom now random idx items) = items.
Proof.
  induction items as [|[f m z d] items IH]; intros idx; [now split|].
  destruct (IH (S idx)) as (I1 & I2).
  unfold keptOf, addedOf in *.
  cbn [pendingFrom map filter isExisting isNew itemAttachment itemBase64
         filename mediaType size newFilename newMediaType newSize data].
  now rewrite I1, I2.
Qed.

Lemma previewed_item results item :
  let item' :=
    match findResult results (itemId item) with
    | Some (_, Some url) =>
        if truthy url then withPreviewUrl item (Some url) else item
    | _ => item
    end in
  isExisting item' = isExisting item /\ isNew item' = isNew item
  /\ itemAttachment item' = itemAttachment item
  /\ itemBase64 item' = itemBase64 item /\ itemId item' = itemId item.
Proof.
  cbv zeta. destruct (findResult results (itemId item)) as [[i [url|]]|];
    [|now repeat split..].
  destruct (truthy url); [|now repeat split]. now destruct item.
Qed.

Lemma previews_parts results st :
  keptOf (applyPreviews results st) = keptOf st
  /\ addedOf (applyPreviews results st) = addedOf st
  /\ map itemId (applyPreviews results st) = map itemId st
  /\ length (applyPreviews results st) = length st.
Proof.
  unfold applyPreviews, keptOf, addedOf.
  induction st as [|item st (I1 & I2 & I3 & I4)]; [now repeat split|].
  destruct (previewed_item results item) as (E1 & E2 & E3 & E4 & E5).
  cbn [map filter length]. rewrite E1, E2, E5, I3, I4.
  repeat split.
  - destruct (isExisting item); cbn [map]; now rewrite ?E3, I1.
  - destruct (isNew item); cbn [map]; now rewrite ?E3, ?E4, I2.
Qed.

(** [submit], by the parts of the state it reads. *)
Lemma submit_parts hasHandler text st :
  submit hasHandler text st
  = if hasHandler
       && ((0 <? length (trim text))%nat || (0 <? length st)%nat)
    then Some (mkPayload (trim text) (keptOf st) (addedOf st))
    else None.
Proof.
  unfold submit, canSubmitInline, keptOf, addedOf.
  destruct hasHandler,
    ((0 <? length (trim text))%nat || (0 <? length st)%nat); reflexivity.
Qed.

(** X15: a message edited in place and sent without touching its
    attachments keeps them all, in order, and adds none: the payload
    built from the seeded state, also after the image previews were
    filled in, holds the message's attachments and the trimmed text,
    provided the text is not blank or there is an attachment. *)
Theorem unedited_submit_keeps_attachments
        (attachments : list FileAttachment) (text : str)
        (results : list (str * option str)) :
  forallb isWhiteSpace text && (length attachments =? 0)%nat = false ->
  submit true text
         (applyPreviews results (onEditingChange true (Some attachments)))
  = Some (mkPayload (trim text) attachments []).
Proof.
  intros H. rewrite submit_parts.
  destruct (previews_parts results (onEditingChange true (Some attachments)))
    as (-> & -> & _ & ->).
  destruct (seed_parts attachments) as (-> & -> & ->).
  simpl andb.
  destruct ((0 <? length (trim text))%nat || (0 <? length attachments)%nat)
    eqn:E; [reflexivity|].
  apply orb_false_iff in E as (E1 & E2).
  apply Nat.ltb_ge in E1, E2.
  assert (Ht : trim text = []) by (destruct (trim text); [easy | simpl in E1; lia]).
  rewrite (trim_nil _ Ht) in H.
  destruct attachments; [discriminate | simpl in E2; lia].
Qed.

Lemma unedited_submit_witness :
  submit true (js "  see the log  ")
         (applyPreviews
            [(js "existing-a1", Some (js "data:image/png;base64,AAAA"))]
            (onEditingChange true
               (Some [mkFileAttachment (js "a1") (js "shot.png")
                        (js "image/png") (js "/tmp/shot.png") 2048])))
  = Some (mkPayload (trim (js "  see the log  "))
            [mkFileAttachment (js "a1") (js "shot.png") (js "image/png")
               (js "/tmp/shot.png") 2048]
            []).
Proof.
  refine (unedited_submit_keeps_attachments _ _ _ _).
  vm_compute; reflexivity.
Defined.

(** X16: attachments added in place reach the payload as they were
    given: after [addPendingAttachments] with a non-empty list, the
    payload keeps the existing attachments it kept before and its new
    attachments are the earlier ones followed by the given ones, with
    the same file name, media type, size and data. *)
Theorem added_attachments_reach_the_payload
        (now : Z) (random : nat -> str) (items : list NewInlineAttachment)
        (text : str) (st : list EditableAttachment) :
  items <> [] ->
  submit true text (addPendingAttachments now random items st)
  = Some (mkPayload (trim text) (keptOf st) (addedOf st ++ items)).
Proof.
  intros Hne. rewrite submit_parts. unfold addPendingAttachments.
  destruct items as [|item items]; [congruence|].
  rewrite keptOf_app, addedOf_app.
  destruct (pending_parts now random (item :: items) 0) as (-> & ->).
  rewrite app_nil_r.
  assert (Hlen : (0 <? length (st ++ pendingFrom now random 0 (item :: items)))%nat
                 = true).
  { apply Nat.ltb_lt. rewrite length_app. simpl. lia. }
  rewrite Hlen, orb_true_r. reflexivity.
Qed.

Lemma added_attachments_witness :
  submit true []
         (addPendingAttachments 1700000000000 (fun _ => js "k3x9")
            [mkNewInlineAttachment (js "notes.txt") (js "text/plain") 12
               (js "aGVsbG8gd29ybGQh")]
            [])
  = Some (mkPayload (trim []) (keptOf [])
            (addedOf []
               ++ [mkNewInlineAttachment (js "notes.txt") (js "text/plain") 12
                     (js "aGVsbG8gd29ybGQh")])).
Proof.
  refine (added_attachments_reach_the_payload _ _ _ _ _). discriminate.
Defined.

(** ** Previews *)

(** X17: filling in the previews of the images changes nothing about
    what is submitted and nothing about which items a removal hits:
    the payload, the ids of the items and their order are the same
    before and after [applyPreviews], and removing an item before or
    after the previews arrive gives the same payload. *)
Theorem previews_do_not_change_the_payload
        (results : list (str * option str)) (hasHandler : bool) (text : str)
        (st : list EditableAttachment) (i : str) :
  submit hasHandler text (applyPreviews results st)
  = submit hasHandler text st
  /\ map itemId (applyPreviews results st) = map itemId st
  /\ submit hasHandler text
            (removeEditableAttachment i (applyPreviews results st))
     = submit hasHandler text (removeEditableAttachment i st).
Proof.
  destruct (previews_parts results st) as (Hk & Ha & Hi & Hl).
  split; [|split; [exact Hi|]].
  - rewrite !submit_parts. now rewrite Hk, Ha, Hl.
  - assert (Hcomm : removeEditableAttachment i (applyPreviews results st)
                    = applyPreviews results (removeEditableAttachment i st)).
    { clear Hk Ha Hi Hl. unfold removeEditableAttachment, applyPreviews.
      induction st as [|item st IH]; [reflexivity|].
      cbn [map filter].
      destruct (previewed_item results item) as (_ & _ & _ & _ & E5).
      rewrite E5. destruct (negb (str_eqb (itemId item) i)); cbn [map].
      - f_equal. exact IH.
      - exact IH. }
    rewrite Hcomm, !submit_parts.
    destruct (previews_parts results (removeEditableAttachment i st))
      as (-> & -> & _ & ->). reflexivity.
Qed.

(** ** Submitting *)

(** X18: nothing is submitted exactly when no handler is given, or when
    the text is blank and no attachment is left; a payload that is
    built carries the text trimmed, so without white space at either
    end, and an empty text only together with an attachment. *)
Theorem submit_needs_text_or_attachment
        (hasHandler : bool) (text : str) (st : list EditableAttachment) :
  (submit hasHandler text st = None <->
   hasHandler = false \/ (forallb isWhiteSpace text = true /\ st = []))
  /\ (forall p, submit hasHandler text st = Some p ->
      content p = trim text
      /\ trim (content p) = content p
      /\ (content p = [] -> st <> [])).
Proof.
  rewrite submit_parts. split.
  - destruct hasHandler; simpl andb; [|split; auto].
    destruct (trim text) as [|c r] eqn:Ht.
    + apply trim_nil in Ht. destruct st as [|x st]; simpl.
      * split; auto.
      * split; [discriminate|]. intros [[=] | (_ & [=])].
    + simpl. split; [discriminate|]. intros [[=] | (Hb & _)].
      rewrite (trim_blank _ Hb) in Ht. discriminate.
  - intros p. destruct hasHandler; simpl andb; [|discriminate].
    destruct ((0 <? length (trim text))%nat || (0 <? length st)%nat) eqn:E;
      [|discriminate].
    intros [= <-]. cbn [content]. split; [reflexivity|].
    split; [apply trim_idempotent|].
    intros Ht ->. rewrite Ht in E. discriminate.
Qed.

(** ** Ids *)

Lemma startsWith_app p s : startsWith (p ++ s) p = true.
Proof. apply startsWith_spec. now exists s. Qed.

Lemma str_eqb_app p a b : str_eqb (p ++ a) (p ++ b) = str_eqb a b.
Proof.
  induction p as [|c p IH]; [reflexivity|]. simpl.
  now rewrite N.eqb_refl, IH.
Qed.

Lemma str_eqb_refl a : str_eqb a a = true.
Proof. now apply str_eqb_eq. Qed.

Lemma str_eqb_sym a b : str_eqb a b = str_eqb b a.
Proof.
  destruct (str_eqb a b) eqn:E1, (str_eqb b a) eqn:E2; try reflexivity.
  - apply str_eqb_eq in E1. subst. now rewrite str_eqb_refl in E2.
  - apply str_eqb_eq in E2. subst. now rewrite str_eqb_refl in E1.
Qed.

(** An id of a new item is never the id of an existing one. *)
Lemma new_id_is_not_existing i a :
  startsWith i (js "inline-new-") = true ->
  str_eqb i (js "existing-" ++ a) = false.
Proof.
  intros H. apply startsWith_spec in H as (rest & ->).
  replace (js "inline-new-") with (105%N :: tl (js "inline-new-"))
    by (vm_compute; reflexivity).
  replace (js "existing-") with (101%N :: tl (js "existing-"))
    by (vm_compute; reflexivity).
  reflexivity.
Qed.

Lemma pending_wellTagged now random items : forall idx,
  Forall wellTagged (pendingFrom now random idx items).
Proof.
  induction items as [|item items IH]; intros idx; constructor.
  - split; [reflexivity|]. unfold tempId. apply startsWith_app.
  - apply IH.
Qed.

(** Every state of an editing session is well tagged. *)
Lemma editing_wellTagged attachments st :
  editing attachments st -> Forall wellTagged st.
Proof.
  induction 1 as [ | now random items st _ IH | i st _ IH | results st _ IH].
  - unfold onEditingChange. simpl negb. cbv iota.
    apply Forall_forall. intros item Hin.
    apply in_map_iff in Hin as (a & <- & _). reflexivity.
  - unfold addPendingAttachments. destruct items; [exact IH|].
    apply Forall_app. split; [exact IH | apply pending_wellTagged].
  - unfold removeEditableAttachment. rewrite Forall_forall in *.
    intros item Hin. apply filter_In in Hin as (Hin & _). now apply IH.
  - unfold applyPreviews. rewrite Forall_forall in *.
    intros item Hin. apply in_map_iff in Hin as (item0 & <- & Hin0).
    specialize (IH _ Hin0).
    destruct (findResult results (itemId item0)) as [[j [url|]]|];
      try exact IH.
    destruct (truthy url); [|exact IH]. now destruct item0.
Qed.

Lemma remove_existing_parts a st :
  Forall wellTagged st ->
  keptOf (removeEditableAttachment (js "existing-" ++ a) st)
  = filter (fun x => negb (str_eqb (id x) a)) (keptOf st)
  /\ addedOf (removeEditableAttachment (js "existing-" ++ a) st) = addedOf st.
Proof.
  unfold removeEditableAttachment, keptOf, addedOf.
  induction 1 as [|item st Ht _ (I1 & I2)]; [now split|].
  cbn [filter]. destruct item as [i att url | i att b url]; cbn [itemId].
  - unfold wellTagged in Ht. subst i. rewrite str_eqb_app.
    destruct (str_eqb (id att) a) eqn:E; cbn [negb filter isExisting isNew map
                                               itemAttachment];
      rewrite ?E; cbn [negb]; now rewrite I1, I2.
  - destruct Ht as (_ & Ht). rewrite (new_id_is_not_existing _ a Ht).
    cbn [negb filter isExisting isNew map]. now rewrite I1, I2.
Qed.

Lemma remove_new_parts i st :
  startsWith i (js "inline-new-") = true ->
  Forall wellTagged st ->
  keptOf (removeEditableAttachment i st) = keptOf st.
Proof.
  intros Hi. unfold removeEditableAttachment, keptOf.
  induction 1 as [|item st Ht _ IH]; [reflexivity|].
  cbn [filter]. destruct item as [j att url | j att b url]; cbn [itemId].
  - unfold wellTagged in Ht. subst j.
    rewrite str_eqb_sym, (new_id_is_not_existing _ (id att) Hi).
    cbn [negb filter isExisting map]. now rewrite IH.
  - destruct (negb (str_eqb j i)); cbn [filter isExisting]; exact IH.
Qed.

(** X19: during an editing session (the seeded state, then any
    additions, removals and preview updates), removing the item of an
    existing attachment, by the id [existing-<id>] it is shown under,
    drops from the payload the kept attachments with that id, keeps the
    others in order and leaves the new attachments alone; removing the
    item of a new attachment never drops an existing one. *)
Theorem removal_hits_the_right_kind
        (attachments : option (list FileAttachment))
        (st : list EditableAttachment) (a i : str) :
  editing attachments st ->
  keptOf (removeEditableAttachment (js "existing-" ++ a) st)
  = filter (fun x => negb (str_eqb (id x) a)) (keptOf st)
  /\ addedOf (removeEditableAttachment (js "existing-" ++ a) st) = addedOf st
  /\ (startsWith i (js "inline-new-") = true ->
      keptOf (removeEditableAttachment i st) = keptOf st).
Proof.
  intros H. apply editing_wellTagged in H.
  destruct (remove_existing_parts a H) as (H1 & H2).
  split; [exact H1 | split; [exact H2|]].
  intros Hi. now apply remove_new_parts.
Qed.

Lemma removal_witness :
  keptOf (removeEditableAttachment (js "existing-" ++ js "a1")
            (onEditingChange true
               (Some [mkFileAttachment (js "a1") (js "shot.png")
                        (js "image/png") (js "/tmp/shot.png") 2048;
                      mkFileAttachment (js "a2") (js "log.txt")
                        (js "text/plain") (js "/tmp/log.txt") 10])))
  = filter (fun x => negb (str_eqb (id x) (js "a1")))
      (keptOf
         (onEditingChange true
            (Some [mkFileAttachment (js "a1") (js "shot.png")
                     (js "image/png") (js "/tmp/shot.png") 2048;
                   mkFileAttachment (js "a2") (js "log.txt")
                     (js "text/plain") (js "/tmp/log.txt") 10]))).
Proof.
  refine (proj1 (@removal_hits_the_right_kind
                   (Some [mkFileAttachment (js "a1") (js "shot.png")
                            (js "image/png") (js "/tmp/shot.png") 2048;
                          mkFileAttachment (js "a2") (js "log.txt")
                            (js "text/plain") (js "/tmp/log.txt") 10])
                   _ (js "a1") [] _)).
  apply Seeded.
Defined.

(** ** The ids of one addition *)

Lemma uintDigits_digits d : forallb isDecimalDigit (uintDigits d) = true.
Proof. induction d; simpl; auto. Qed.

Lemma uintDigits_inj d1 : forall d2,
  uintDigits d1 = uintDigits d2 -> d1 = d2.
Proof.
  induction d1; intros d2; destruct d2; simpl; try discriminate;
    try reflexivity; intros [= H]; f_equal; auto.
Qed.

Lemma numberToString_digits n :
  forallb isDecimalDigit (numberToString (Z.of_nat n)) = true.
Proof.
  destruct n; [reflexivity|]. simpl. apply uintDigits_digits.
Qed.

Lemma numberToString_inj i j :
  numberToString (Z.of_nat i) = numberToString (Z.of_nat j) -> i = j.
Proof.
  assert (Hpos : forall p, uintDigits (Pos.to_uint p) <> [48%N]).
  { intros p H. change [48%N] with (uintDigits (Decimal.D0 Decimal.Nil)) in H.
    apply uintDigits_inj in H.
    pose proof (Unsigned.of_to p) as E. rewrite H in E. discriminate. }
  destruct i, j; simpl; intros H.
  - reflexivity.
  - symmetry in H. now apply Hpos in H.
  - now apply Hpos in H.
  - apply uintDigits_inj in H.
    pose proof (Unsigned.of_to (Pos.of_succ_nat i)) as E1.
    pose proof (Unsigned.of_to (Pos.of_succ_nat j)) as E2.
    rewrite H in E1. rewrite E1 in E2. injection E2 as E2.
    apply SuccNat2Pos.inj in E2. now subst.
Qed.

(** Digits followed by a hyphen: the digits are determined. *)
Lemma digits_before_hyphen d1 : forall d2 r1 r2,
  forallb isDecimalDigit d1 = true -> forallb isDecimalDigit d2 = true ->
  d1 ++ 45%N :: r1 = d2 ++ 45%N :: r2 -> d1 = d2.
Proof.
  induction d1 as [|c d1 IH]; intros [|c2 d2] r1 r2 H1 H2 E; simpl in *.
  - reflexivity.
  - injection E as <- _. discriminate.
  - injection E as -> _. discriminate.
  - injection E as <- E. apply andb_true_iff in H1 as (_ & H1).
    apply andb_true_iff in H2 as (_ & H2). f_equal. exact (IH _ _ _ H1 H2 E).
Qed.

Lemma tempId_inj now random i j :
  tempId now random i = tempId now random j -> i = j.
Proof.
  unfold tempId. intros H.
  apply app_inv_head in H. apply app_inv_head in H.
  replace (js "-") with [45%N] in H by (vm_compute; reflexivity).
  simpl in H. injection H as H.
  apply digits_before_hyphen in H; try apply numberToString_digits.
  now apply numberToString_inj.
Qed.

Lemma pending_ids now random items : forall idx i,
  In i (map itemId (pendingFrom now random idx items)) ->
  exists j, (idx <= j)%nat /\ i = tempId now random j.
Proof.
  induction items as [|item items IH]; intros idx i; [intros []|].
  cbn [pendingFrom map itemId]. intros [<- | Hin].
  - exists idx. split; [lia | reflexivity].
  - apply IH in Hin as (j & Hj & ->). exists j. split; [lia | reflexivity].
Qed.

(** X20: the items added by one call of [addPendingAttachments] have
    pairwise different ids, whatever [Date.now()] and the random draws
    give (even if all draws are equal), and none of them has the id of
    an existing attachment's item. *)
Theorem added_items_have_distinct_ids
        (now : Z) (random : nat -> str) (items : list NewInlineAttachment) :
  NoDup (map itemId (pendingFrom now random 0 items))
  /\ (forall i a, In i (map itemId (pendingFrom now random 0 items)) ->
      i <> js "existing-" ++ a).
Proof.
  split.
  - generalize 0%nat. induction items as [|item items IH]; intros idx.
    + constructor.
    + cbn [pendingFrom map itemId]. constructor; [|apply IH].
      intros Hin. apply pending_ids in Hin as (j & Hj & E).
      apply tempId_inj in E. lia.
  - intros i a Hin Heq. apply pending_ids in Hin as (j & _ & ->).
    assert (Hs : startsWith (tempId now random j) (js "inline-new-") = true)
      by (unfold tempId; apply startsWith_app).
    apply (new_id_is_not_existing _ a) in Hs.
    rewrite Heq, str_eqb_refl in Hs. discriminate.
Qed.

End ChatExtras.
